(** * mev-bot-beast: the decision-and-dispatch pipeline, embedded in Rocq

    A shallow embedding of the parts of the bot that its specification
    makes claims about:

    - [CircuitBreaker]   (src/risk/CircuitBreaker.js)
    - [RiskManager]      (src/risk/RiskManager.js)
    - [ProviderManager]  (src/infrastructure/ProviderManager.js)
    - [Executor]         (src/core/Executor.js)
    - [Monitor]          (src/core/Monitor.js)
    - [MEVBot]           (src/core/Bot.js)
    - [Helpers]          (src/utils/helpers.js)
    - [PositionSizer]    (src/risk/PositionSizer.js)

    Conventions.  An ethers [BigNumber] is a [Z].  A JavaScript number that
    only ever counts is a [nat]; one that holds a time stamp is a [Z]
    (milliseconds).  A number that a check reports or that a configuration
    file gives is a [Q], the real number that is meant.  The two scores
    that decide something, the composite risk score and the score of a
    provider, are computed as the code computes them, in doubles: see
    [Number].  A [Map] keyed by strings is a [gmap string _], a [Set] of
    strings a [gset string].  [Date.now()] is an argument of the function
    that reads it.  A call that can throw returns a [result]. *)

From Stdlib Require Import ZArith QArith Qminmax Qround Qpower Lia Lqa.
From Stdlib Require Import Ascii String.
From stdpp Require Import gmap strings list.

Open Scope Z_scope.

(** ** JavaScript idioms shared by the components *)

(** [x || d] on a number read from a configuration object: [undefined] and
    [0] are both falsy. *)
Definition or_default (x : option Z) (d : Z) : Z :=
  match x with
  | Some v => if Z.eqb v 0 then d else v
  | None => d
  end.

(** Truthiness of an optional string: [undefined] and [''] are falsy. *)
Definition truthy_str (x : option string) : bool :=
  match x with
  | Some s => negb (String.eqb s "")
  | None => false
  end.

(** The outcome of a call that may throw. *)
Inductive result (A : Type) : Type :=
| Ok (a : A)
| Throw (msg : string).
Arguments Ok {A} a.
Arguments Throw {A} msg.

(** ** JavaScript numbers

    A number that the code computes with [/] or compares with a threshold
    is a double: every operation gives the double nearest to the exact
    result, the even one of two that are equally near, and a division by
    zero gives an infinity or [NaN].  The range of the exponent is not
    bounded here (no overflow to an infinity, no gradual underflow), and
    zero has no sign. *)
Module Number.

(** [2 ^ e], also for a negative [e]. *)
Definition pow2 (e : Z) : Q := (2 ^ e)%Q.

(** The integer nearest to [x], the even one of two that are equally
    near. *)
Definition rne (x : Q) : Z :=
  let f := Qfloor x in
  match (x - inject_Z f ?= 1 # 2)%Q with
  | Lt => f
  | Gt => f + 1
  | Eq => if Z.even f then f else f + 1
  end.

(** The exponent of a positive [x]: [2 ^ ilog2 x <= x < 2 ^ (ilog2 x + 1)]. *)
Definition ilog2 (x : Q) : Z :=
  let l := Z.log2 (Qnum x) - Z.log2 (Zpos (Qden x)) in
  if Qle_bool (pow2 l) x then l else l - 1.

(** The nearest number with a significand of 53 bits, for a positive
    [x]. *)
Definition nearest (x : Q) : Q :=
  let e := ilog2 x - 52 in
  (inject_Z (rne (x / pow2 e)) * pow2 e)%Q.

(** The double that stands for the real number [x]. *)
Definition double (x : Q) : Q :=
  match Qnum x with
  | 0 => 0%Q
  | Zpos _ => nearest x
  | Zneg _ => (- nearest (- x))%Q
  end.

(** A value of type number. *)
Inductive t : Set :=
| Num (q : Q)
| PInf
| NInf
| NaN.

(** A numeric literal, or an integer held in a variable. *)
Definition lit (q : Q) : t := Num (double q).
Definition of_Z (z : Z) : t := Num (double (inject_Z z)).

(** [a + b] *)
Definition add (a b : t) : t :=
  match a, b with
  | NaN, _ | _, NaN => NaN
  | PInf, NInf | NInf, PInf => NaN
  | PInf, _ | _, PInf => PInf
  | NInf, _ | _, NInf => NInf
  | Num x, Num y => Num (double (x + y))
  end.

(** The product of an infinity of sign [s] and the finite [x]. *)
Definition scale_inf (positive : bool) (x : Q) : t :=
  match (x ?= 0)%Q with
  | Eq => NaN
  | Gt => if positive then PInf else NInf
  | Lt => if positive then NInf else PInf
  end.

(** [a * b] *)
Definition mul (a b : t) : t :=
  match a, b with
  | NaN, _ | _, NaN => NaN
  | Num x, Num y => Num (double (x * y))
  | Num x, PInf | PInf, Num x => scale_inf true x
  | Num x, NInf | NInf, Num x => scale_inf false x
  | PInf, PInf | NInf, NInf => PInf
  | PInf, NInf | NInf, PInf => NInf
  end.

(** [a / b] *)
Definition div (a b : t) : t :=
  match a, b with
  | NaN, _ | _, NaN => NaN
  | Num x, Num y =>
      if Qeq_bool y 0 then
        match (x ?= 0)%Q with
        | Eq => NaN
        | Gt => PInf
        | Lt => NInf
        end
      else Num (double (x / y))
  | Num _, PInf | Num _, NInf => Num 0
  | PInf, Num y => if Qle_bool 0 y then PInf else NInf
  | NInf, Num y => if Qle_bool 0 y then NInf else PInf
  | _, _ => NaN
  end.

(** [Math.min(a, b)] *)
Definition min (a b : t) : t :=
  match a, b with
  | NaN, _ | _, NaN => NaN
  | NInf, _ | _, NInf => NInf
  | PInf, x | x, PInf => x
  | Num x, Num y => if Qle_bool x y then Num x else Num y
  end.

(** [a < b]: false as soon as one side is [NaN]. *)
Definition ltb (a b : t) : bool :=
  match a, b with
  | NaN, _ | _, NaN => false
  | _, NInf => false
  | NInf, _ => true
  | PInf, _ => false
  | Num _, PInf => true
  | Num x, Num y => negb (Qle_bool y x)
  end.

(** The same value: the same infinity, [NaN] on both sides, or the same
    finite number. *)
Definition same (a b : t) : Prop :=
  match a, b with
  | Num x, Num y => (x == y)%Q
  | PInf, PInf | NInf, NInf | NaN, NaN => True
  | _, _ => False
  end.

(** A finite value is a double. *)
Definition rounded (a : t) : Prop :=
  match a with
  | Num q => (double q == q)%Q
  | _ => True
  end.

(** [a] is not above [b]: the two are the same value, or both are finite
    and [a <= b]. *)
Definition not_above (a b : t) : Prop :=
  same a b
  \/ match a, b with
     | Num x, Num y => (x <= y)%Q
     | _, _ => False
     end.

End Number.

(** ** src/risk/CircuitBreaker.js *)
Module CircuitBreaker.

Inductive cb_state : Set := CLOSED | OPEN | HALF_OPEN.

Definition cb_state_eqb (a b : cb_state) : bool :=
  match a, b with
  | CLOSED, CLOSED | OPEN, OPEN | HALF_OPEN, HALF_OPEN => true
  | _, _ => false
  end.

(** The [config.circuitBreaker] object. *)
Record config : Set := {
  cfg_maxFailuresPerHour : option Z;
  cfg_maxConsecutiveFailures : option Z;
  cfg_cooldownMinutes : option Z;
  cfg_strategyDisableThreshold : option Z
}.

(** An element of [hourlyFailures]. *)
Record failure : Set := {
  timestamp : Z;
  strategy : option string
}.

(** What the breaker emits on its [EventEmitter]. *)
Inductive event : Set :=
| Tripped (reason : string) (at_ : Z)
| RecoveryAttempt (at_ : Z)
| Closed (at_ : Z)
| Reset_ (at_ : Z).

(** The fields of a [CircuitBreaker].  [timers] holds the callbacks that
    [trip] handed to [setTimeout] and that have not run yet, each as the
    time at which it is due; [emitted] is the log of emitted events,
    oldest first. *)
Record t : Type := {
  state : cb_state;
  failures : nat;
  consecutiveFailures : nat;
  lastFailureTime : option Z;
  hourlyFailures : list failure;
  strategyFailures : gmap string nat;
  maxFailuresPerHour : Z;
  maxConsecutiveFailures : Z;
  cooldownMinutes : Z;
  strategyDisableThreshold : Z;
  timers : list Z;
  emitted : list event
}.

Definition set_state (v : cb_state) (b : t) : t :=
  {| state := v; failures := failures b;
     consecutiveFailures := consecutiveFailures b;
     lastFailureTime := lastFailureTime b;
     hourlyFailures := hourlyFailures b;
     strategyFailures := strategyFailures b;
     maxFailuresPerHour := maxFailuresPerHour b;
     maxConsecutiveFailures := maxConsecutiveFailures b;
     cooldownMinutes := cooldownMinutes b;
     strategyDisableThreshold := strategyDisableThreshold b;
     timers := timers b; emitted := emitted b |}.

Definition set_consecutiveFailures (v : nat) (b : t) : t :=
  {| state := state b; failures := failures b;
     consecutiveFailures := v;
     lastFailureTime := lastFailureTime b;
     hourlyFailures := hourlyFailures b;
     strategyFailures := strategyFailures b;
     maxFailuresPerHour := maxFailuresPerHour b;
     maxConsecutiveFailures := maxConsecutiveFailures b;
     cooldownMinutes := cooldownMinutes b;
     strategyDisableThreshold := strategyDisableThreshold b;
     timers := timers b; emitted := emitted b |}.

Definition set_hourlyFailures (v : list failure) (b : t) : t :=
  {| state := state b; failures := failures b;
     consecutiveFailures := consecutiveFailures b;
     lastFailureTime := lastFailureTime b;
     hourlyFailures := v;
     strategyFailures := strategyFailures b;
     maxFailuresPerHour := maxFailuresPerHour b;
     maxConsecutiveFailures := maxConsecutiveFailures b;
     cooldownMinutes := cooldownMinutes b;
     strategyDisableThreshold := strategyDisableThreshold b;
     timers := timers b; emitted := emitted b |}.

Definition set_timers (v : list Z) (b : t) : t :=
  {| state := state b; failures := failures b;
     consecutiveFailures := consecutiveFailures b;
     lastFailureTime := lastFailureTime b;
     hourlyFailures := hourlyFailures b;
     strategyFailures := strategyFailures b;
     maxFailuresPerHour := maxFailuresPerHour b;
     maxConsecutiveFailures := maxConsecutiveFailures b;
     cooldownMinutes := cooldownMinutes b;
     strategyDisableThreshold := strategyDisableThreshold b;
     timers := v; emitted := emitted b |}.

Definition emit (e : event) (b : t) : t :=
  {| state := state b; failures := failures b;
     consecutiveFailures := consecutiveFailures b;
     lastFailureTime := lastFailureTime b;
     hourlyFailures := hourlyFailures b;
     strategyFailures := strategyFailures b;
     maxFailuresPerHour := maxFailuresPerHour b;
     maxConsecutiveFailures := maxConsecutiveFailures b;
     cooldownMinutes := cooldownMinutes b;
     strategyDisableThreshold := strategyDisableThreshold b;
     timers := timers b; emitted := emitted b ++ [e] |}.

(** [constructor(config)] *)
Definition new (c : config) : t :=
  {| state := CLOSED;
     failures := 0;
     consecutiveFailures := 0;
     lastFailureTime := None;
     hourlyFailures := [];
     strategyFailures := ∅;
     maxFailuresPerHour := or_default (cfg_maxFailuresPerHour c) 10;
     maxConsecutiveFailures := or_default (cfg_maxConsecutiveFailures c) 5;
     cooldownMinutes := or_default (cfg_cooldownMinutes c) 30;
     strategyDisableThreshold :=
       or_default (cfg_strategyDisableThreshold c) 20;
     timers := [];
     emitted := [] |}.

Definition enable (b : t) : t := set_state CLOSED b.
Definition disable (b : t) : t := set_state OPEN b.

Definition isTripped (b : t) : bool := cb_state_eqb (state b) OPEN.

(** [trip(reason)]: a breaker that is already open returns at once;
    otherwise it opens, emits ['tripped'] and schedules one
    [attemptRecovery] after the cool-down. *)
Definition trip (reason : string) (now : Z) (b : t) : t :=
  if cb_state_eqb (state b) OPEN then b
  else
    let b := set_state OPEN b in
    let b := emit (Tripped reason now) b in
    set_timers (timers b ++ [now + cooldownMinutes b * 60 * 1000]) b.

(** [evaluateCircuit()] *)
Definition evaluateCircuit (now : Z) (b : t) : t :=
  let oneHourAgo := now - 60 * 60 * 1000 in
  let b :=
    set_hourlyFailures
      (List.filter (fun f => Z.ltb oneHourAgo (timestamp f))
                   (hourlyFailures b)) b in
  if Z.leb (maxConsecutiveFailures b) (Z.of_nat (consecutiveFailures b))
  then trip "Max consecutive failures reached" now b
  else if Z.leb (maxFailuresPerHour b)
                (Z.of_nat (length (hourlyFailures b)))
  then trip "Max hourly failures reached" now b
  else b.

(** [recordFailure(strategy = null)] *)
Definition recordFailure (now : Z) (strat : option string) (b : t) : t :=
  let b :=
    {| state := state b;
       failures := S (failures b);
       consecutiveFailures := S (consecutiveFailures b);
       lastFailureTime := Some now;
       hourlyFailures :=
         hourlyFailures b ++ [{| timestamp := now; strategy := strat |}];
       strategyFailures :=
         match strat with
         | Some s =>
             if truthy_str strat
             then <[s := S (default 0%nat (strategyFailures b !! s))]>
                    (strategyFailures b)
             else strategyFailures b
         | None => strategyFailures b
         end;
       maxFailuresPerHour := maxFailuresPerHour b;
       maxConsecutiveFailures := maxConsecutiveFailures b;
       cooldownMinutes := cooldownMinutes b;
       strategyDisableThreshold := strategyDisableThreshold b;
       timers := timers b; emitted := emitted b |} in
  evaluateCircuit now b.

(** [close()] *)
Definition close (now : Z) (b : t) : t :=
  emit (Closed now) (set_consecutiveFailures 0 (set_state CLOSED b)).

(** [recordSuccess()] *)
Definition recordSuccess (now : Z) (b : t) : t :=
  let b := set_consecutiveFailures 0 b in
  if cb_state_eqb (state b) HALF_OPEN then close now b else b.

(** [attemptRecovery()], the body of the callback that [trip] schedules. *)
Definition attemptRecovery (now : Z) (b : t) : t :=
  if negb (cb_state_eqb (state b) OPEN) then b
  else emit (RecoveryAttempt now) (set_state HALF_OPEN b).

(** The event loop runs the oldest scheduled callback once it is due. *)
Definition fire_timer (now : Z) (b : t) : t :=
  match timers b with
  | due :: rest =>
      if Z.leb due now then attemptRecovery now (set_timers rest b) else b
  | [] => b
  end.

(** [reset()] *)
Definition reset (now : Z) (b : t) : t :=
  emit (Reset_ now)
    {| state := CLOSED; failures := 0; consecutiveFailures := 0;
       lastFailureTime := lastFailureTime b;
       hourlyFailures := [];
       strategyFailures := ∅;
       maxFailuresPerHour := maxFailuresPerHour b;
       maxConsecutiveFailures := maxConsecutiveFailures b;
       cooldownMinutes := cooldownMinutes b;
       strategyDisableThreshold := strategyDisableThreshold b;
       timers := timers b; emitted := emitted b |}.

(** [shouldDisableStrategy(strategy)] *)
Definition shouldDisableStrategy (s : string) (b : t) : bool :=
  Z.leb (strategyDisableThreshold b)
        (Z.of_nat (default 0%nat (strategyFailures b !! s))).

(** Recording a run of failures, oldest first. *)
Definition recordFailures (fs : list (Z * option string)) (b : t) : t :=
  fold_left (fun b f => recordFailure (fst f) (snd f) b) fs b.

(** What can happen to a breaker that sees no success: a failure is
    recorded, or a scheduled recovery runs. *)
Inductive action : Set :=
| Fail (now : Z) (strat : option string)
| Timer (now : Z).

Definition is_fail (a : action) : bool :=
  match a with Fail _ _ => true | Timer _ => false end.

Definition step (b : t) (a : action) : t :=
  match a with
  | Fail now strat => recordFailure now strat b
  | Timer now => fire_timer now b
  end.

Definition run (acts : list action) (b : t) : t := fold_left step acts b.


(** Everything that can happen to a breaker. *)
Inductive input : Set :=
| Failed (now : Z) (strat : option string)
| Succeeded (now : Z)
| Recovery (now : Z).

Definition react (b : t) (i : input) : t :=
  match i with
  | Failed now strat => recordFailure now strat b
  | Succeeded now => recordSuccess now b
  | Recovery now => fire_timer now b
  end.

(** The entries of [hourlyFailures] that [evaluateCircuit] keeps. *)
Definition within_the_hour (now : Z) (fs : list failure) : list failure :=
  List.filter (fun f => Z.ltb (now - 60 * 60 * 1000) (timestamp f)) fs.

End CircuitBreaker.

(** ** The Opportunity object

    Strategies emit plain objects; every property is optional.  The record
    lists the properties that the risk manager, the executor and the bot
    read, and [expiresAt], which the data model of the specification names
    and which no function of the repository reads. *)
Module Opportunity.

(** An element of [opportunity.quotes]. *)
Record quote : Set := { quote_dex : option string }.

(** A transaction object handed over by a strategy
    ([frontrun], [backrun], [frontrunTx], [transactions[i]], ...);
    [victimTx] is given by its [rawTransaction]. *)
Record txTemplate : Set := {
  tpl_to : option string;
  tpl_data : option string;
  tpl_value : option Z
}.

Record t : Set := {
  type : option string;
  strategy : option string;
  amount : option Z;
  inputAmount : option Z;
  gasPrice : option Z;
  expectedProfit : option Z;
  netProfit : option Z;
  gasCost : option Z;
  tokenA : option string;
  tokenB : option string;
  path : option (list string);
  asset : option string;
  user : option string;
  dex : option string;
  buyDex : option string;
  sellDex : option string;
  quotes : option (list quote);
  priority : option string;
  requiresBundle : bool;
  estimatedGas : option Z;
  value : option Z;
  to : option string;
  data : option string;
  contract : option string;
  calldata : option string;
  lendingProtocol : option string;
  frontrun : option txTemplate;
  backrun : option txTemplate;
  frontrunTx : option txTemplate;
  backrunTx : option txTemplate;
  victimTx : option string;
  transactions : option (list txTemplate);
  timestamp : option Z;
  expiresAt : option Z
}.

(** The same object with another [expiresAt]. *)
Definition with_expiresAt (e : option Z) (o : t) : t :=
  {| type := type o; strategy := strategy o; amount := amount o;
     inputAmount := inputAmount o; gasPrice := gasPrice o;
     expectedProfit := expectedProfit o; netProfit := netProfit o;
     gasCost := gasCost o; tokenA := tokenA o; tokenB := tokenB o;
     path := path o; asset := asset o; user := user o;
     dex := dex o; buyDex := buyDex o;
     sellDex := sellDex o; quotes := quotes o; priority := priority o;
     requiresBundle := requiresBundle o; estimatedGas := estimatedGas o;
     value := value o; to := to o; data := data o;
     contract := contract o; calldata := calldata o;
     lendingProtocol := lendingProtocol o;
     frontrun := frontrun o; backrun := backrun o;
     frontrunTx := frontrunTx o; backrunTx := backrunTx o;
     victimTx := victimTx o; transactions := transactions o;
     timestamp := timestamp o; expiresAt := e |}.

(** The same object with another [expectedProfit]. *)
Definition with_expectedProfit (x : option Z) (o : t) : t :=
  {| type := type o; strategy := strategy o; amount := amount o;
     inputAmount := inputAmount o; gasPrice := gasPrice o;
     expectedProfit := x; netProfit := netProfit o;
     gasCost := gasCost o; tokenA := tokenA o; tokenB := tokenB o;
     path := path o; asset := asset o; user := user o;
     dex := dex o; buyDex := buyDex o;
     sellDex := sellDex o; quotes := quotes o; priority := priority o;
     requiresBundle := requiresBundle o; estimatedGas := estimatedGas o;
     value := value o; to := to o; data := data o;
     contract := contract o; calldata := calldata o;
     lendingProtocol := lendingProtocol o;
     frontrun := frontrun o; backrun := backrun o;
     frontrunTx := frontrunTx o; backrunTx := backrunTx o;
     victimTx := victimTx o; transactions := transactions o;
     timestamp := timestamp o; expiresAt := expiresAt o |}.

(** [a || b] on two BigNumber properties: an object is truthy whatever
    number it holds, so only [undefined] falls through. *)
Definition bn_or (a b : option Z) : option Z :=
  match a with
  | Some _ => a
  | None => b
  end.


(** The same object with another [gasPrice]. *)
Definition with_gasPrice (x : option Z) (o : t) : t :=
  {| type := type o; strategy := strategy o; amount := amount o;
     inputAmount := inputAmount o; gasPrice := x;
     expectedProfit := expectedProfit o; netProfit := netProfit o;
     gasCost := gasCost o; tokenA := tokenA o; tokenB := tokenB o;
     path := path o; asset := asset o; user := user o;
     dex := dex o; buyDex := buyDex o;
     sellDex := sellDex o; quotes := quotes o; priority := priority o;
     requiresBundle := requiresBundle o; estimatedGas := estimatedGas o;
     value := value o; to := to o; data := data o;
     contract := contract o; calldata := calldata o;
     lendingProtocol := lendingProtocol o;
     frontrun := frontrun o; backrun := backrun o;
     frontrunTx := frontrunTx o; backrunTx := backrunTx o;
     victimTx := victimTx o; transactions := transactions o;
     timestamp := timestamp o; expiresAt := expiresAt o |}.


(** The same object with another [amount]. *)
Definition with_amount (x : option Z) (o : t) : t :=
  {| type := type o; strategy := strategy o; amount := x;
     inputAmount := inputAmount o; gasPrice := gasPrice o;
     expectedProfit := expectedProfit o; netProfit := netProfit o;
     gasCost := gasCost o; tokenA := tokenA o; tokenB := tokenB o;
     path := path o; asset := asset o; user := user o;
     dex := dex o; buyDex := buyDex o;
     sellDex := sellDex o; quotes := quotes o; priority := priority o;
     requiresBundle := requiresBundle o; estimatedGas := estimatedGas o;
     value := value o; to := to o; data := data o;
     contract := contract o; calldata := calldata o;
     lendingProtocol := lendingProtocol o;
     frontrun := frontrun o; backrun := backrun o;
     frontrunTx := frontrunTx o; backrunTx := backrunTx o;
     victimTx := victimTx o; transactions := transactions o;
     timestamp := timestamp o; expiresAt := expiresAt o |}.

End Opportunity.

(** ** src/risk/RiskManager.js *)
Module RiskManager.

Import Opportunity.

(** *** Values of a check's [value], [maxValue] and [minValue]

    [VStr q] is a non-empty decimal string (the output of [formatEther],
    [formatUnits], [toFixed] or [toString]) that spells the number [q];
    [VNum q] is the number [q]. *)
Inductive jsval : Set :=
| VStr (q : Q)
| VNum (q : Q).

Definition truthy (v : option jsval) : bool :=
  match v with
  | Some (VStr _) => true
  | Some (VNum q) => negb (Qeq_bool q 0)
  | None => false
  end.

(** The real number that a value stands for. *)
Definition jsnum (v : jsval) : Q :=
  match v with
  | VStr q => q
  | VNum q => q
  end.

(** [parseFloat(v)] is the double nearest to what the string says; on a
    number it gives the number, which is a double. *)
Definition parseFloat (v : jsval) : Number.t := Number.lit (jsnum v).

(** [ethers.utils.formatEther] and [formatUnits(_, 'gwei')] *)
Definition formatEther (x : Z) : jsval := VStr (x # 1000000000000000000).
Definition formatGwei (x : Z) : jsval := VStr (x # 1000000000).

(** [ethers.utils.parseEther], on an amount given in whole ether. *)
Definition ether (n : Z) : Z := n * 1000000000000000000.
Definition gwei (n : Z) : Z := n * 1000000000.

(** [x || d] on a configured number. *)
Definition or_default_q (x : option Q) (d : Q) : Q :=
  match x with
  | Some v => if Qeq_bool v 0 then d else v
  | None => d
  end.

(** The [config.risk] object.  The three amounts are configured as
    decimal strings and go through [parseEther]/[parseUnits]; here they
    are the parsed amounts, in wei.  A string is falsy only when empty,
    so a configured ['0'] is kept and only a missing key takes the
    default. *)
Record config : Set := {
  maxPositionETH : option Z;
  maxDailyLossETH : option Z;
  maxGasGwei : option Z;
  cfg_minProfitRatio : option Q;
  maxRiskScore : option Q;
  maxTokenRisk : option Q;
  maxDexRisk : option Q;
  maxSlippageBps : option Q
}.

(** The [risk] block of config/default.json. *)
Definition default_config : config :=
  {| maxPositionETH := Some (ether 10);
     maxDailyLossETH := Some (ether 1);
     maxGasGwei := Some (gwei 100);
     cfg_minProfitRatio := Some (3 # 2);
     maxRiskScore := Some 7%Q;
     maxTokenRisk := Some 5%Q;
     maxDexRisk := Some 5%Q;
     maxSlippageBps := Some 50%Q |}.

Record dailyStats_t : Set := {
  date : string;
  totalLoss : Z;
  totalProfit : Z;
  tradesExecuted : nat;
  tradesRejected : nat
}.

(** The fields of a [RiskManager]. *)
Record t : Type := {
  cfg : config;
  maxPositionSize : Z;
  maxDailyLoss : Z;
  maxGasPrice : Z;
  minProfitRatio : Q;
  dailyStats : dailyStats_t;
  tokenRiskScores : gmap string Q;
  dexRiskScores : gmap string Q
}.

Definition set_dailyStats (d : dailyStats_t) (r : t) : t :=
  {| cfg := cfg r;
     maxPositionSize := maxPositionSize r;
     maxDailyLoss := maxDailyLoss r;
     maxGasPrice := maxGasPrice r;
     minProfitRatio := minProfitRatio r;
     dailyStats := d;
     tokenRiskScores := tokenRiskScores r;
     dexRiskScores := dexRiskScores r |}.

Definition fresh_stats (today : string) : dailyStats_t :=
  {| date := today; totalLoss := 0; totalProfit := 0;
     tradesExecuted := 0; tradesRejected := 0 |}.

(** [initializeRiskScores()] *)
Definition tokenScores : list (string * Q) :=
  [("WETH", 1%Q); ("USDC", 1%Q); ("USDT", 2%Q); ("DAI", 1%Q);
   ("WBTC", 2%Q); ("UNI", 3%Q); ("LINK", 3%Q); ("AAVE", 3%Q)].

Definition dexScores : list (string * Q) :=
  [("uniswapV3", 1%Q); ("uniswapV2", 2%Q); ("sushiswap", 2%Q);
   ("curve", 1%Q); ("balancer", 2%Q); ("bancor", 3%Q)].

Definition set_all (kvs : list (string * Q)) (m : gmap string Q)
  : gmap string Q :=
  fold_left (fun m kv => <[fst kv := snd kv]> m) kvs m.

(** [constructor(config)]; [today] is [getCurrentDate()]. *)
Definition new (c : config) (today : string) : t :=
  {| cfg := c;
     maxPositionSize := default (ether 10) (maxPositionETH c);
     maxDailyLoss := default (ether 1) (maxDailyLossETH c);
     maxGasPrice := default (gwei 100) (maxGasGwei c);
     minProfitRatio := or_default_q (cfg_minProfitRatio c) (3 # 2);
     dailyStats := fresh_stats today;
     tokenRiskScores := set_all tokenScores ∅;
     dexRiskScores := set_all dexScores ∅ |}.

(** *** The result of one check *)
Record check : Set := {
  name : string;
  passed : bool;
  value : option jsval;
  maxValue : option jsval;
  minValue : option jsval;
  riskyToken : option string;
  riskyDex : option string;
  reason : option string;
  weight : option Z
}.

Definition set_passed (p : bool) (c : check) : check :=
  {| name := name c; passed := p; value := value c;
     maxValue := maxValue c; minValue := minValue c;
     riskyToken := riskyToken c; riskyDex := riskyDex c;
     reason := reason c; weight := weight c |}.

(** [checkDailyReset()] *)
Definition checkDailyReset (today : string) (r : t) : t :=
  if negb (String.eqb today (date (dailyStats r)))
  then set_dailyStats (fresh_stats today) r
  else r.

(** [checkDailyLossLimit()] *)
Definition checkDailyLossLimit (r : t) : check :=
  let remainingLoss := maxDailyLoss r - totalLoss (dailyStats r) in
  {| name := "dailyLossLimit";
     passed := Z.ltb 0 remainingLoss;
     value := Some (formatEther remainingLoss);
     maxValue := None; minValue := None;
     riskyToken := None; riskyDex := None;
     reason := if Z.leb remainingLoss 0
               then Some "Daily loss limit reached" else None;
     weight := Some 10 |}.

(** [checkPositionSize(opportunity)] *)
Definition checkPositionSize (r : t) (o : Opportunity.t) : check :=
  let positionSize :=
    default 0 (bn_or (amount o) (inputAmount o)) in
  let passed := Z.leb positionSize (maxPositionSize r) in
  {| name := "positionSize";
     passed := passed;
     value := Some (formatEther positionSize);
     maxValue := Some (formatEther (maxPositionSize r));
     minValue := None;
     riskyToken := None; riskyDex := None;
     reason := if negb passed
               then Some "Position size exceeds maximum" else None;
     weight := Some 8 |}.

(** [getGasPrice()] *)
Definition getGasPrice : Z := gwei 30.

(** [checkGasPrice(opportunity)] *)
Definition checkGasPrice (r : t) (o : Opportunity.t) : check :=
  let gasPrice := default getGasPrice (Opportunity.gasPrice o) in
  let passed := Z.leb gasPrice (maxGasPrice r) in
  {| name := "gasPrice";
     passed := passed;
     value := Some (formatGwei gasPrice);
     maxValue := Some (formatGwei (maxGasPrice r));
     minValue := None;
     riskyToken := None; riskyDex := None;
     reason := if negb passed then Some "Gas price too high" else None;
     weight := Some 6 |}.

(** Comparisons of JavaScript numbers. *)
Definition Qlt_bool (a b : Q) : bool := negb (Qle_bool b a).

(** [BigNumber.toNumber()] throws once the magnitude needs more than 53
    bits. *)
Definition toNumber (x : Z) : result Z :=
  if Z.ltb (Z.abs x) (2 ^ 53) then Ok x else Throw "overflow".

(** [BigNumber.div] truncates towards zero and throws on a zero
    divisor. *)
Definition bn_div (a b : Z) : result Z :=
  if Z.eqb b 0 then Throw "division-by-zero" else Ok (Z.quot a b).

(** [checkProfitRatio(opportunity)] *)
Definition checkProfitRatio (r : t) (o : Opportunity.t) : result check :=
  match bn_or (expectedProfit o) (netProfit o), gasCost o with
  | Some profit, Some cost =>
      if Z.eqb cost 0 then
        Ok {| name := "profitRatio"; passed := false;
              value := None; maxValue := None; minValue := None;
              riskyToken := None; riskyDex := None;
              reason := Some "Invalid profit calculation";
              weight := Some 9 |}
      else
        match toNumber (Z.quot (profit * 100) cost) with
        | Throw msg => Throw msg
        | Ok n =>
            let ratio := (inject_Z n / 100)%Q in
            let passed := Qle_bool (minProfitRatio r) ratio in
            Ok {| name := "profitRatio"; passed := passed;
                  value := Some (VStr ratio);
                  maxValue := None;
                  minValue := Some (VNum (minProfitRatio r));
                  riskyToken := None; riskyDex := None;
                  reason := if negb passed
                            then Some "Profit ratio too low" else None;
                  weight := Some 7 |}
        end
  | _, _ =>
      Ok {| name := "profitRatio"; passed := false;
            value := None; maxValue := None; minValue := None;
            riskyToken := None; riskyDex := None;
            reason := Some "Invalid profit calculation";
            weight := Some 9 |}
  end.

(** [Set.prototype.add] on a set kept in insertion order. *)
Definition set_add (x : string) (s : list string) : list string :=
  if existsb (String.eqb x) s then s else s ++ [x].

Definition add_if_truthy (x : option string) (s : list string)
  : list string :=
  match x with
  | Some v => if truthy_str x then set_add v s else s
  | None => s
  end.

(** [extractTokens(opportunity)] *)
Definition extractTokens (o : Opportunity.t) : list string :=
  let tokens := add_if_truthy (tokenA o) [] in
  let tokens := add_if_truthy (tokenB o) tokens in
  let tokens :=
    match path o with
    | Some p => fold_left (fun s tok => set_add tok s) p tokens
    | None => tokens
    end in
  add_if_truthy (asset o) tokens.

(** [extractDexes(opportunity)] *)
Definition extractDexes (o : Opportunity.t) : list string :=
  let dexes := add_if_truthy (dex o) [] in
  let dexes := add_if_truthy (buyDex o) dexes in
  let dexes := add_if_truthy (sellDex o) dexes in
  match quotes o with
  | Some qs =>
      fold_left (fun s q => add_if_truthy (quote_dex q) s) qs dexes
  | None => dexes
  end.

(** The loop shared by [checkTokenRisk] and [checkDexRisk]: the largest
    score, and the first key that reaches it. *)
Definition max_risk (scores : gmap string Q) (keys : list string)
  : Q * option string :=
  fold_left
    (fun acc k =>
       let risk := or_default_q (scores !! k) 5 in
       if Qlt_bool (fst acc) risk then (risk, Some k) else acc)
    keys (0%Q, None).

(** [checkTokenRisk(opportunity)] *)
Definition checkTokenRisk (r : t) (o : Opportunity.t) : check :=
  let '(maxRisk, riskyToken) :=
    max_risk (tokenRiskScores r) (extractTokens o) in
  let maxAllowedRisk := or_default_q (maxTokenRisk (cfg r)) 5 in
  let passed := Qle_bool maxRisk maxAllowedRisk in
  {| name := "tokenRisk"; passed := passed;
     value := Some (VNum maxRisk);
     maxValue := Some (VNum maxAllowedRisk);
     minValue := None;
     riskyToken := riskyToken; riskyDex := None;
     reason := if negb passed
               then Some ("Token " +:+ default "null" riskyToken
                          +:+ " risk too high")
               else None;
     weight := Some 5 |}.

(** [checkDexRisk(opportunity)] *)
Definition checkDexRisk (r : t) (o : Opportunity.t) : check :=
  let '(maxRisk, riskyDex) :=
    max_risk (dexRiskScores r) (extractDexes o) in
  let maxAllowedRisk := or_default_q (maxDexRisk (cfg r)) 5 in
  let passed := Qle_bool maxRisk maxAllowedRisk in
  {| name := "dexRisk"; passed := passed;
     value := Some (VNum maxRisk);
     maxValue := Some (VNum maxAllowedRisk);
     minValue := None;
     riskyToken := None; riskyDex := riskyDex;
     reason := if negb passed
               then Some ("DEX " +:+ default "null" riskyDex
                          +:+ " risk too high")
               else None;
     weight := Some 4 |}.

(** [estimateSlippage(opportunity)] *)
Definition estimateSlippage (o : Opportunity.t) : Q :=
  let baseSlippage := 10%Q in
  let large :=
    match bn_or (amount o) (inputAmount o) with
    | Some tradeSize => Z.ltb (ether 100) tradeSize
    | None => false
    end in
  if large then (baseSlippage * 2)%Q
  else
    let long :=
      match path o with
      | Some p => Nat.ltb 2 (length p)
      | None => false
      end in
    if long then (baseSlippage * (3 # 2))%Q else baseSlippage.

(** [checkSlippage(opportunity)] *)
Definition checkSlippage (r : t) (o : Opportunity.t) : check :=
  let estimatedSlippage := estimateSlippage o in
  let maxSlippage := or_default_q (maxSlippageBps (cfg r)) 50 in
  let passed := Qle_bool estimatedSlippage maxSlippage in
  {| name := "slippage"; passed := passed;
     value := Some (VNum estimatedSlippage);
     maxValue := Some (VNum maxSlippage);
     minValue := None;
     riskyToken := None; riskyDex := None;
     reason := if negb passed then Some "Slippage too high" else None;
     weight := Some 6 |}.

(** [estimateLiquidity(opportunity)] *)
Definition estimateLiquidity (o : Opportunity.t) : Z := ether 1000.

(** [checkLiquidity(opportunity)] *)
Definition checkLiquidity (r : t) (o : Opportunity.t) : result check :=
  match bn_or (amount o) (inputAmount o) with
  | None =>
      Ok {| name := "liquidity"; passed := true;
            value := None; maxValue := None; minValue := None;
            riskyToken := None; riskyDex := None;
            reason := None; weight := Some 3 |}
  | Some tradeSize =>
      match bn_div (estimateLiquidity o) tradeSize with
      | Throw msg => Throw msg
      | Ok liquidityRatio =>
          let minRatio := 10 in
          let passed := Z.leb minRatio liquidityRatio in
          Ok {| name := "liquidity"; passed := passed;
                value := Some (VStr (inject_Z liquidityRatio));
                maxValue := None;
                minValue := Some (VNum (inject_Z minRatio));
                riskyToken := None; riskyDex := None;
                reason := if negb passed
                          then Some "Insufficient liquidity" else None;
                weight := Some 5 |}
      end
  end.

(** *** The composite score *)

(** [check.weight || 1] *)
Definition weight_of (c : check) : Z := or_default (weight c) 1.

Definition eff_weight (c : check) : Number.t := Number.of_Z (weight_of c).

(** What one check adds to [totalScore], if it adds anything. *)
Definition penalty (c : check) : option Number.t :=
  let weight := eff_weight c in
  if negb (passed c) then Some (Number.mul weight (Number.of_Z 10))
  else
    match value c, maxValue c with
    | Some v, Some m =>
        if truthy (value c) && truthy (maxValue c)
        then
          let ratio := Number.div (parseFloat v) (parseFloat m) in
          Some (Number.mul (Number.mul weight ratio) (Number.of_Z 5))
        else None
    | _, _ => None
    end.

(** The body of the loop, on the pair [(totalScore, totalWeight)]. *)
Definition score_step (acc : Number.t * Number.t) (c : check)
  : Number.t * Number.t :=
  (match penalty c with
   | Some p => Number.add (fst acc) p
   | None => fst acc
   end,
   Number.add (snd acc) (eff_weight c)).

(** [calculateRiskScore(checks)].  For an empty list the quotient is
    [0 / 0], which is [NaN]. *)
Definition calculateRiskScore (checks : list check) : Number.t :=
  let '(totalScore, totalWeight) :=
    fold_left score_step checks (Number.Num 0, Number.Num 0) in
  Number.min (Number.of_Z 10) (Number.div totalScore totalWeight).

(** An integer that what a check adds does not exceed: nothing where
    nothing is added, five times the weight for a check that passed and
    ten times for one that failed. *)
Definition penalty_bound (c : check) : Z :=
  match penalty c with
  | None => 0
  | Some _ => (if passed c then 5 else 10) * weight_of c
  end.

(** The sum of an integer measure over a list of checks. *)
Definition total (f : check -> Z) (cs : list check) : Z :=
  fold_right (fun c a => f c + a) 0 cs.

(** What [passed] means for a check that reports a limit: the value is
    within the limit, and the limit is positive. *)
Definition within_limit (c : check) : Prop :=
  match value c, maxValue c with
  | Some v, Some m => (0 < jsnum m /\ jsnum v <= jsnum m)%Q
  | _, _ => True
  end.

(** *** Admission *)

(** What [assessOpportunity] resolves to: the assessment object, or the
    object built by the [catch] block. *)
Inductive assessment : Type :=
| Assessment (approved : bool) (score : Number.t)
             (checks failedChecks : list check)
             (reason : option string) (positionSize : option Z)
             (timestamp : Z)
| AssessmentError (error : string).

Definition approved (a : assessment) : bool :=
  match a with
  | Assessment ok _ _ _ _ _ _ => ok
  | AssessmentError _ => false
  end.

Definition assessment_reason (a : assessment) : option string :=
  match a with
  | Assessment _ _ _ _ why _ _ => why
  | AssessmentError _ => Some "Risk assessment error"
  end.

Definition assessment_score (a : assessment) : Number.t :=
  match a with
  | Assessment _ riskScore _ _ _ _ _ => riskScore
  | AssessmentError _ => Number.Num 0
  end.

(** [riskScore < this.config.maxRiskScore]; a comparison with
    [undefined] is false, and so is one with a score that is [NaN]. *)
Definition below_ceiling (riskScore : Number.t) (ceiling : option Q)
  : bool :=
  match ceiling with
  | Some m => Number.ltb riskScore (Number.lit m)
  | None => false
  end.

(** The eight checks of [Promise.all], in order; the first one that
    throws rejects the whole. *)
Definition run_checks (r : t) (o : Opportunity.t) : result (list check) :=
  match checkProfitRatio r o with
  | Throw msg => Throw msg
  | Ok profitRatio =>
      match checkLiquidity r o with
      | Throw msg => Throw msg
      | Ok liquidity =>
          Ok [ checkDailyLossLimit r;
               checkPositionSize r o;
               checkGasPrice r o;
               profitRatio;
               checkTokenRisk r o;
               checkDexRisk r o;
               checkSlippage r o;
               liquidity ]
      end
  end.

Definition count_trade (ok : bool) (d : dailyStats_t) : dailyStats_t :=
  {| date := date d; totalLoss := totalLoss d;
     totalProfit := totalProfit d;
     tradesExecuted := if ok then S (tradesExecuted d)
                       else tradesExecuted d;
     tradesRejected := if ok then tradesRejected d
                       else S (tradesRejected d) |}.

Section Assess.

(** [PositionSizer.calculatePositionSize]: it has its own [try]/[catch]
    and always resolves to an amount. *)
Variable calculatePositionSize : Opportunity.t -> Number.t -> Z.

(** [assessOpportunity(opportunity)]; [today] is [getCurrentDate()] and
    [now] is [Date.now()]. *)
Definition assessOpportunity (today : string) (now : Z)
           (o : Opportunity.t) (r : t) : t * assessment :=
  let r := checkDailyReset today r in
  match run_checks r o with
  | Throw msg => (r, AssessmentError msg)
  | Ok checks =>
      let riskFactors := List.filter (fun c => negb (passed c)) checks in
      let riskScore := calculateRiskScore checks in
      let approved :=
        Nat.eqb (length riskFactors) 0
        && below_ceiling riskScore (maxRiskScore (cfg r)) in
      let positionSize :=
        if approved then Some (calculatePositionSize o riskScore)
        else None in
      let reason :=
        if approved then None
        else match riskFactors with
             | c :: _ => reason c
             | [] => None
             end in
      (set_dailyStats (count_trade approved (dailyStats r)) r,
       Assessment approved riskScore checks riskFactors reason
                  positionSize now)
  end.

End Assess.

(** The argument of [updateTradeResult]. *)
Record tradeResult : Set := {
  success : bool;
  profit : Z
}.

(** [updateTradeResult(result)] *)
Definition updateTradeResult (res : tradeResult) (r : t) : t :=
  if success res then
    let d := dailyStats r in
    if Z.ltb 0 (profit res) then
      set_dailyStats
        {| date := date d; totalLoss := totalLoss d;
           totalProfit := totalProfit d + profit res;
           tradesExecuted := tradesExecuted d;
           tradesRejected := tradesRejected d |} r
    else
      set_dailyStats
        {| date := date d;
           totalLoss := totalLoss d + Z.abs (profit res);
           totalProfit := totalProfit d;
           tradesExecuted := tradesExecuted d;
           tradesRejected := tradesRejected d |} r
  else r.

End RiskManager.

(** ** src/infrastructure/ProviderManager.js *)
Module ProviderManager.

(** An entry of [providerStats]. *)
Record stats : Set := {
  requests : nat;
  errors : nat;
  latency : list Z;
  healthy : bool
}.

(** A provider with the properties that [initializeProviders] attaches
    to it.  [providers] and [providerStats] are two [Map]s filled
    together under the same keys, so an entry of the pool carries the
    provider and its statistics; the list is in insertion order, which is
    the order in which a [Map] is iterated. *)
Record provider : Set := {
  _name : string;
  _priority : Z;
  _stats : stats
}.

Record t : Set := {
  providers : list provider;
  primaryProvider : provider
}.

(** [stats.latency.reduce((a, b) => a + b) / stats.latency.length], or
    [100] without a sample. *)
Definition avgLatency (s : stats) : Q :=
  match latency s with
  | [] => 100%Q
  | _ :: _ =>
      (inject_Z (fold_left Z.add (latency s) 0%Z)
       / inject_Z (Z.of_nat (length (latency s))))%Q
  end.

(** [stats.errors / stats.requests], or [0] before the first request. *)
Definition errorRate (s : stats) : Q :=
  if Nat.ltb 0 (requests s)
  then (inject_Z (Z.of_nat (errors s)) / inject_Z (Z.of_nat (requests s)))%Q
  else 0%Q.

(** [stats.latency.reduce((a, b) => a + b)], each sum rounded as it is
    formed.  A latency is the difference of two [Date.now()], an integer
    that a double holds exactly. *)
Definition sumLatency (l : list Z) : Q :=
  match l with
  | [] => 0%Q
  | x :: rest =>
      fold_left (fun a b => Number.double (a + inject_Z b)) rest (inject_Z x)
  end.

(** The constants [avgLatency] and [errorRate] of [getBestProvider], as
    the doubles that the two divisions give. *)
Definition roundedLatency (s : stats) : Q :=
  match latency s with
  | [] => 100%Q
  | _ :: _ =>
      Number.double (sumLatency (latency s)
                     / inject_Z (Z.of_nat (length (latency s))))
  end.

Definition roundedErrorRate (s : stats) : Q :=
  if Nat.ltb 0 (requests s)
  then Number.double (inject_Z (Z.of_nat (errors s))
                      / inject_Z (Z.of_nat (requests s)))
  else 0%Q.

(** The score of [getBestProvider]; lower is better.
    [avgLatency + (errorRate * 1000) - (provider._priority * 10)], every
    operation rounded to the nearest double. *)
Definition score (p : provider) : Q :=
  let avgLatency := roundedLatency (_stats p) in
  let errorRate := roundedErrorRate (_stats p) in
  Number.double
    (Number.double (avgLatency + Number.double (errorRate * 1000))
     - Number.double (inject_Z (_priority p) * 10)).

(** The same expression over the real numbers, without rounding. *)
Definition exact_score (p : provider) : Q :=
  (avgLatency (_stats p) + errorRate (_stats p) * 1000
   - inject_Z (_priority p) * 10)%Q.

(** One turn of the loop of [getBestProvider] on the pair
    [(bestProvider, bestScore)]; [None] is the initial [Infinity]. *)
Definition best_step (acc : provider * option Q) (p : provider)
  : provider * option Q :=
  if negb (healthy (_stats p)) then acc
  else
    let s := score p in
    let better :=
      match snd acc with
      | None => true
      | Some bestScore => negb (Qle_bool bestScore s)
      end in
    if better then (p, Some s) else acc.

(** [getBestProvider()] *)
Definition getBestProvider (m : t) : provider :=
  fst (fold_left best_step (providers m) (primaryProvider m, None)).

(** What holds of [(bestProvider, bestScore)] once the loop has been
    through the providers [seen]. *)
Definition best_so_far (primary : provider) (seen : list provider)
           (acc : provider * option Q) : Prop :=
  match snd acc with
  | None =>
      fst acc = primary
      /\ Forall (fun p => healthy (_stats p) = false) seen
  | Some s =>
      s = score (fst acc)
      /\ healthy (_stats (fst acc)) = true
      /\ exists before after,
           seen = before ++ fst acc :: after
           /\ Forall (fun p => healthy (_stats p) = true ->
                               (score (fst acc) < score p)%Q) before
           /\ Forall (fun p => healthy (_stats p) = true ->
                               (score (fst acc) <= score p)%Q) after
  end.

(** The score as the specification words it, for comparison with
    [score]: latency - errorRate x 1000 + priority x 10. *)
Definition spec_score (p : provider) : Q :=
  (avgLatency (_stats p) - errorRate (_stats p) * 1000
   + inject_Z (_priority p) * 10)%Q.


(** *** Statistics and fallback *)

(** The statistics of a provider at [initializeProviders]. *)
Definition fresh : stats :=
  {| requests := 0; errors := 0; latency := []; healthy := true |}.

(** The last [n] elements of a list. *)
Definition lastn {A : Type} (n : nat) (l : list A) : list A :=
  skipn (length l - n) l.

(** [stats.latency.push(latency)] followed by the [shift()] that keeps
    100 measurements. *)
Definition push_latency (lat : Z) (l : list Z) : list Z :=
  let l := l ++ [lat] in
  if Nat.ltb 100 (length l) then tl l else l.

(** The body of [updateProviderStats], on the entry that [name] has in
    [providerStats]. *)
Definition updateStats (success : bool) (lat : Z) (s : stats) : stats :=
  let requests' := S (requests s) in
  if success then
    {| requests := requests'; errors := errors s;
       latency := push_latency lat (latency s);
       healthy := healthy s |}
  else
    let errors' := S (errors s) in
    {| requests := requests'; errors := errors';
       latency := latency s;
       healthy :=
         if Nat.ltb 10 requests'
            && negb (Qle_bool (inject_Z (Z.of_nat errors')
                               / inject_Z (Z.of_nat requests'))
                              (1 # 2))
         then false else healthy s |}.

Definition with_stats (s : stats) (p : provider) : provider :=
  {| _name := _name p; _priority := _priority p; _stats := s |}.

(** [updateProviderStats(name, success, latency)]: a name without an
    entry changes nothing. *)
Definition updateProviderStats (name : string) (success : bool) (lat : Z)
           (ps : list provider) : list provider :=
  map (fun p => if String.eqb (_name p) name
                then with_stats (updateStats success lat (_stats p)) p
                else p) ps.

(** A run of calls through [updateProviderStats] for one provider, each
    with its outcome and its latency. *)
Definition record_calls (calls : list (bool * Z)) (s : stats) : stats :=
  fold_left (fun s c => updateStats (fst c) (snd c) s) calls s.

(** The comparator of [getSortedProviders]; a boolean counts as 0 or 1
    in [statsB.healthy - statsA.healthy]. *)
Definition compare (a b : provider) : Q :=
  let statsA := _stats a in
  let statsB := _stats b in
  if negb (Bool.eqb (healthy statsA) (healthy statsB)) then
    (inject_Z (Z.b2z (healthy statsB)) - inject_Z (Z.b2z (healthy statsA)))%Q
  else if negb (Qeq_bool (errorRate statsA) (errorRate statsB)) then
    (errorRate statsA - errorRate statsB)%Q
  else (avgLatency statsA - avgLatency statsB)%Q.

(** [Array.prototype.sort] is stable, and the comparator above is a
    consistent one; the sorted array is then the one that a stable
    insertion gives. *)
Fixpoint insert_sorted (x : provider) (l : list provider) : list provider :=
  match l with
  | [] => [x]
  | y :: rest =>
      if Qle_bool (compare x y) 0 then x :: l
      else y :: insert_sorted x rest
  end.

(** [getSortedProviders()] *)
Definition getSortedProviders (m : t) : list provider :=
  fold_right insert_sorted [] (providers m).

Section Fallback.

Context {A : Type}.

(** [provider[method](...params)], which returns or throws, and the time
    it took. *)
Variable call : provider -> result A.
Variable elapsed : provider -> Z.

(** The loop of [executeWithFallback] over the sorted providers. *)
Fixpoint try_providers (ps : list provider) (lastError : option string)
         (pool : list provider) : list provider * result A :=
  match ps with
  | [] => (pool, Throw (default "All providers failed" lastError))
  | p :: rest =>
      match call p with
      | Ok r => (updateProviderStats (_name p) true (elapsed p) pool, Ok r)
      | Throw e =>
          try_providers rest (Some e)
            (updateProviderStats (_name p) false 0 pool)
      end
  end.

(** [executeWithFallback(method, params)] *)
Definition executeWithFallback (m : t) : list provider * result A :=
  try_providers (getSortedProviders m) None (providers m).

End Fallback.



End ProviderManager.

(** ** src/core/Executor.js *)
Module Executor.

(** An element of [bot.wallets]. *)
Inductive walletType : Set := Main | Burner.

Record wallet : Set := {
  wtype : walletType;
  address : string
}.

Definition is_burner (w : wallet) : bool :=
  match wtype w with Burner => true | Main => false end.

(** A transaction object.  Signing does not change what it says, so a
    signed transaction is the transaction itself. *)
Record tx : Set := {
  from : option string;
  nonce : option Z;
  gasPrice : option Z;
  gasLimit : option Z;
  value : option Z;
  to : option string;
  data : option string
}.

(** What [buildTransaction] returns: one transaction, or the pair that
    [buildSandwichTxs] makes. *)
Inductive built : Set :=
| Single (t : tx)
| Sandwich (frontrun backrun : tx).

(** An element of a bundle. *)
Inductive bundleItem : Set :=
| SignedTx (t : tx)
| RawTx (raw : string).

(** What leaves the process. *)
Inductive event : Set :=
| Signed (t : tx)
| Sent (t : tx)
| BundleSent (items : list bundleItem)
| ContractCalled (sender : string) (asset : option string)
                 (amount : option Z).

(** The object that [helpers.simulateTransaction] resolves to. *)
Record simulationRaw : Set := {
  raw_success : bool;
  raw_profit : option Z
}.

(** The object that [simulate] resolves to. *)
Record simulation : Set := {
  sim_success : bool;
  sim_profit : option Z
}.

(** What the relay answers to a bundle: it was included, with the profit
    that the relay reports, it was not included, or the call threw. *)
Inductive chainOutcome : Set :=
| Included (profit : option Z)
| NotIncluded
| NetworkError (msg : string).

(** What becomes of a transaction that is sent on its own, by
    [executeStandard] or, as a call of the flash-loan contract, by
    [executeFlashLoan]: the signature throws, the submission throws, the
    wait for the receipt throws (the transaction is not found, or the
    wait times out), or there is a receipt.  Of the receipt, [confirmed]
    is [receipt.status === 1], [gasCost] is
    [receipt.gasUsed.mul(receipt.effectiveGasPrice)], and
    [flashLoanProfit] is the profit that its first [FlashLoanExecuted]
    event names, if it has such an event. *)
Inductive txOutcome : Set :=
| SignThrows (msg : string)
| SendThrows (msg : string)
| WaitThrows (msg : string)
| Mined (confirmed : bool) (gasCost : Z) (flashLoanProfit : option Z).

(** What the [calculateProfit] methods of the strategies read of the
    opportunity. *)
Record profitView : Set := {
  pv_type : option string;
  pv_path : option (list string);
  pv_gasPrice : option Z;
  pv_expectedProfit : option Z
}.

Definition profit_view (o : Opportunity.t) : profitView :=
  {| pv_type := Opportunity.type o;
     pv_path := Opportunity.path o;
     pv_gasPrice := Opportunity.gasPrice o;
     pv_expectedProfit := Opportunity.expectedProfit o |}.

(** What [execute] resolves to. *)
Inductive execResult : Set :=
| Success (profit : option Z)
| Failure (reason : string).

Definition success (r : execResult) : bool :=
  match r with Success _ => true | Failure _ => false end.

Record stats_t : Set := {
  submitted : nat;
  confirmed : nat;
  failed : nat;
  reverted : nat
}.

(** The fields of an [Executor] that [execute] reads or writes. *)
Record t : Type := {
  nonces : gmap string Z;
  stats : stats_t
}.

Definition new : t :=
  {| nonces := ∅;
     stats := {| submitted := 0; confirmed := 0;
                 failed := 0; reverted := 0 |} |}.

Definition set_nonces (n : gmap string Z) (e : t) : t :=
  {| nonces := n; stats := stats e |}.

Definition set_stats (s : stats_t) (e : t) : t :=
  {| nonces := nonces e; stats := s |}.

Definition incr_submitted (e : t) : t :=
  let s := stats e in
  set_stats {| submitted := S (submitted s); confirmed := confirmed s;
               failed := failed s; reverted := reverted s |} e.

Definition incr_confirmed (e : t) : t :=
  let s := stats e in
  set_stats {| submitted := submitted s; confirmed := S (confirmed s);
               failed := failed s; reverted := reverted s |} e.

Definition incr_failed (e : t) : t :=
  let s := stats e in
  set_stats {| submitted := submitted s; confirmed := confirmed s;
               failed := S (failed s); reverted := reverted s |} e.

Definition incr_reverted (e : t) : t :=
  let s := stats e in
  set_stats {| submitted := submitted s; confirmed := confirmed s;
               failed := failed s; reverted := S (reverted s) |} e.

(** An entry of [bot.config.strategies]; [minProfitETH] is the parsed
    amount, in wei. *)
Record strategyConfig : Set := { minProfitETH : option Z }.

Section Bot.

(** The bot that the executor belongs to, and the world it talks to. *)
Variable wallets : list wallet.
Variable strategies : gmap string strategyConfig.
(** [bot.getGasPrice()] *)
Variable botGasPrice : Z.
(** [provider.getTransactionCount(address, 'pending')] *)
Variable getTransactionCount : string -> Z.
(** [helpers.simulateTransaction(tx, wallet, provider)] *)
Variable simulateTransaction : built -> result simulationRaw.
(** The answer of the relay to a bundle or a sandwich, if one is sent. *)
Variable outcome : chainOutcome.
(** What becomes of a transaction that is sent on its own, if one is. *)
Variable standard : txOutcome.
(** [bot.strategies.get(name).calculateProfit(receipt, opportunity)] on
    the receipt at hand: [None] where no strategy is registered under
    the name or the strategy has no such method.  Those of the
    repository catch what they throw. *)
Variable profitCalculator : string -> option (profitView -> option Z).
(** The calldata that [encodeLiquidation] makes of [user], [asset] and
    [amount]. *)
Variable encodeLiquidation :
  option string -> option string -> option Z -> string.

(** [getNonce(address)], for a call that is awaited before anything else
    touches the executor: the stored counter, or, when there is none (or
    it is [0], which is falsy), the pending count of the chain.  What
    two calls do that are under way at once is [getNonce_overlapping]
    below. *)
Definition getNonce (addr : string) (e : t) : t * Z :=
  let currentNonce :=
    match nonces e !! addr with
    | Some n => if Z.eqb n 0 then getTransactionCount addr else n
    | None => getTransactionCount addr
    end in
  (set_nonces (<[addr := currentNonce + 1]> (nonces e)) e, currentNonce).

(** [n] calls of [getNonce] for one address, and what they return. *)
Fixpoint getNonces (n : nat) (addr : string) (e : t) : t * list Z :=
  match n with
  | O => (e, [])
  | S k =>
      let '(e, x) := getNonce addr e in
      let '(e, xs) := getNonces k addr e in
      (e, x :: xs)
  end.

(** [resetNonce(address)] *)
Definition resetNonce (addr : string) (e : t) : t :=
  set_nonces (delete addr (nonces e)) e.

(** [bot.getWallet('main')] *)
Definition getWallet_main : option wallet :=
  List.find (fun w => negb (is_burner w)) wallets.

(** [selectWallet(opportunity, riskAssessment)]; [None] is [null]. *)
Definition selectWallet (o : Opportunity.t) (score : Number.t) (e : t)
  : option wallet :=
  let burners := List.filter is_burner wallets in
  if (Number.ltb (Number.of_Z 7) score
      || bool_decide (Opportunity.type o = Some "sandwich"))
     && Nat.ltb 0 (length burners)
  then nth_error burners (submitted (stats e) mod length burners)%nat
  else getWallet_main.

Definition of_template (w : wallet) (n gp : Z)
           (tpl : option Opportunity.txTemplate) : tx :=
  {| from := Some (address w); nonce := Some n; gasPrice := Some gp;
     gasLimit := None;
     value := tpl ≫= Opportunity.tpl_value;
     to := tpl ≫= Opportunity.tpl_to;
     data := tpl ≫= Opportunity.tpl_data |}.

(** [buildSandwichTxs(opportunity, wallet, gasPrice, nonce)] *)
Definition buildSandwichTxs (o : Opportunity.t) (w : wallet)
           (gp n : Z) : built :=
  Sandwich
    (of_template w n (Z.quot (gp * 105) 100) (Opportunity.frontrun o))
    (of_template w (n + 1) (Z.quot (gp * 95) 100)
                 (Opportunity.backrun o)).

(** [buildTransaction(opportunity, wallet, riskAssessment)] *)
Definition buildTransaction (o : Opportunity.t) (w : wallet) (e : t)
  : t * built :=
  let gp := botGasPrice in
  let '(e, n) := getNonce (address w) e in
  if bool_decide (Opportunity.type o = Some "sandwich")
  then (e, buildSandwichTxs o w gp n)
  else
    let '(dest, payload) :=
      if bool_decide (Opportunity.type o = Some "arbitrage")
      then (Opportunity.contract o, Opportunity.calldata o)
      else if bool_decide (Opportunity.type o = Some "liquidation")
      then (Opportunity.lendingProtocol o,
            Some (encodeLiquidation (Opportunity.user o)
                                    (Opportunity.asset o)
                                    (Opportunity.amount o)))
      else (Opportunity.to o, Opportunity.data o) in
    (e, Single
          {| from := Some (address w);
             nonce := Some n;
             gasPrice :=
               Some (if bool_decide (Opportunity.priority o = Some "high")
                     then Z.quot (gp * 110) 100 else gp);
             gasLimit := Some (default 500000 (Opportunity.estimatedGas o));
             value := Some (default 0 (Opportunity.value o));
             to := dest;
             data := payload |}).

(** [simulate(tx, wallet)] *)
Definition simulate (b : built) : simulation :=
  match simulateTransaction b with
  | Ok raw =>
      {| sim_success := raw_success raw;
         sim_profit := Some (default 0 (raw_profit raw)) |}
  | Throw _ => {| sim_success := false; sim_profit := None |}
  end.


(** [calculateActualProfit(receipt, opportunity)]: the calculator of the
    strategy where there is one, else the expected profit less the cost
    of the gas; [sub] on a missing [expectedProfit] throws. *)
Definition calculateActualProfit (gasCost : Z) (o : Opportunity.t)
  : result (option Z) :=
  match Opportunity.strategy o ≫= profitCalculator with
  | Some calculateProfit => Ok (calculateProfit (profit_view o))
  | None =>
      match Opportunity.expectedProfit o with
      | Some expectedProfit => Ok (Some (expectedProfit - gasCost))
      | None => Throw "Cannot read properties of undefined"
      end
  end.

(** [executeStandard(tx, wallet, opportunity)].  [stats.submitted] is
    counted before anything is signed; whatever is thrown afterwards,
    by the signature, the submission, the wait or the calculation of
    the profit, passes through the [catch] block, which counts a
    failure and throws it on. *)
Definition executeStandard (t0 : tx) (o : Opportunity.t) (e : t)
  : t * result execResult * list event :=
  let e := incr_submitted e in
  match standard with
  | SignThrows msg => (incr_failed e, Throw msg, [])
  | SendThrows msg => (incr_failed e, Throw msg, [Signed t0])
  | WaitThrows msg => (incr_failed e, Throw msg, [Signed t0; Sent t0])
  | Mined true gasCost _ =>
      let e := incr_confirmed e in
      match calculateActualProfit gasCost o with
      | Ok profit => (e, Ok (Success profit), [Signed t0; Sent t0])
      | Throw msg => (incr_failed e, Throw msg, [Signed t0; Sent t0])
      end
  | Mined false _ _ =>
      (incr_reverted e, Ok (Failure "Transaction reverted"),
       [Signed t0; Sent t0])
  end.

(** The loop of [buildBundle]: transaction [i] of the opportunity gets
    [nonce + i]. *)
Fixpoint bundle_txs (w : wallet) (n : Z)
         (tpls : list Opportunity.txTemplate) : list tx :=
  match tpls with
  | [] => []
  | tpl :: rest =>
      of_template w n botGasPrice (Some tpl)
      :: bundle_txs w (n + 1) rest
  end.

(** [buildBundle(opportunity, wallet)]: one call of [getNonce], then
    one signature per transaction. *)
Definition buildBundle (o : Opportunity.t) (w : wallet) (e : t)
  : t * result (list tx) :=
  let '(e, n) := getNonce (address w) e in
  match Opportunity.transactions o with
  | None => (e, Throw "Cannot read properties of undefined")
  | Some tpls => (e, Ok (bundle_txs w n tpls))
  end.

(** [executeBundle(opportunity, wallet, simulation)] *)
Definition executeBundle (o : Opportunity.t) (w : wallet) (e : t)
  : t * result execResult * list event :=
  match buildBundle o w e with
  | (e, Throw msg) => (e, Throw msg, [])
  | (e, Ok bundle) =>
      let evs :=
        map Signed bundle ++ [BundleSent (map SignedTx bundle)] in
      match outcome with
      | Included profit => (incr_confirmed e, Ok (Success profit), evs)
      | NotIncluded => (e, Ok (Failure "Bundle not included"), evs)
      | NetworkError msg => (e, Throw msg, evs)
      end
  end.

(** A transaction of the opportunity as [buildAndSignTx] signs it:
    nothing is added to it. *)
Definition as_given (tpl : Opportunity.txTemplate) : tx :=
  {| from := None; nonce := None; gasPrice := None; gasLimit := None;
     value := Opportunity.tpl_value tpl;
     to := Opportunity.tpl_to tpl;
     data := Opportunity.tpl_data tpl |}.

(** [executeSandwich(opportunity, wallet, simulation)] *)
Definition executeSandwich (o : Opportunity.t) (w : wallet) (e : t)
  : t * result execResult * list event :=
  match Opportunity.frontrunTx o with
  | None => (e, Throw "cannot sign undefined", [])
  | Some front =>
      match Opportunity.victimTx o with
      | None =>
          (e, Throw "Cannot read properties of undefined",
           [Signed (as_given front)])
      | Some victim =>
          match Opportunity.backrunTx o with
          | None =>
              (e, Throw "cannot sign undefined",
               [Signed (as_given front)])
          | Some back =>
              let bundle :=
                [SignedTx (as_given front); RawTx victim;
                 SignedTx (as_given back)] in
              let evs :=
                [Signed (as_given front); Signed (as_given back);
                 BundleSent bundle] in
              match outcome with
              | Included profit => (e, Ok (Success profit), evs)
              | NotIncluded =>
                  (e, Ok (Failure "Sandwich bundle failed"), evs)
              | NetworkError msg => (e, Throw msg, evs)
              end
          end
      end
  end.

(** [calculateFlashLoanProfit(receipt, opportunity)]: the profit of the
    event, else the expected profit less the cost of the gas. *)
Definition calculateFlashLoanProfit (gasCost : Z)
           (flashLoanProfit : option Z) (o : Opportunity.t)
  : result (option Z) :=
  match flashLoanProfit with
  | Some profit => Ok (Some profit)
  | None =>
      match Opportunity.expectedProfit o with
      | Some expectedProfit => Ok (Some (expectedProfit - gasCost))
      | None => Throw "Cannot read properties of undefined"
      end
  end.

(** [executeFlashLoan(opportunity, wallet, simulation)]: the call of the
    contract, the wait for its receipt and the profit. *)
Definition executeFlashLoan (o : Opportunity.t) (w : wallet) (e : t)
  : t * result execResult * list event :=
  let evs :=
    [ContractCalled (address w) (Opportunity.asset o)
                    (Opportunity.amount o)] in
  match standard with
  | SignThrows msg | SendThrows msg | WaitThrows msg => (e, Throw msg, evs)
  | Mined true gasCost flashLoanProfit =>
      match calculateFlashLoanProfit gasCost flashLoanProfit o with
      | Ok profit => (e, Ok (Success profit), evs)
      | Throw msg => (e, Throw msg, evs)
      end
  | Mined false _ _ => (e, Ok (Failure "Flash loan reverted"), evs)
  end.

(** The [catch] block of [execute]. *)
Definition caught (r : t * result execResult * list event)
  : t * execResult * list event :=
  match r with
  | (e, Ok res, evs) => (e, res, evs)
  | (e, Throw _, evs) => (e, Failure "Execution error", evs)
  end.

(** The nonces of the transactions that were signed, in order. *)
Definition signed_nonces (evs : list event) : list (option Z) :=
  omap (fun ev => match ev with
                  | Signed t0 => Some (nonce t0)
                  | _ => None
                  end) evs.

(** The last part of [execute]: the dispatch, by kind of
    opportunity. *)
Definition dispatch (o : Opportunity.t) (w : wallet) (b : built)
           (e : t) : t * execResult * list event :=
  caught
    (if bool_decide (Opportunity.type o = Some "sandwich")
     then executeSandwich o w e
     else if bool_decide (Opportunity.type o = Some "flashloan")
     then executeFlashLoan o w e
     else if Opportunity.requiresBundle o
     then executeBundle o w e
     else
       match b with
       | Single t0 => executeStandard t0 o e
       | Sandwich _ _ =>
           (* [buildTransaction] makes a pair for a sandwich only *)
           (e, Throw "not a transaction", [])
       end).

(** [parseEther(bot.config.strategies[opportunity.strategy].minProfitETH
    || '0.001')]; [None] when there is no entry for the strategy, where
    the property access throws. *)
Definition minProfit (o : Opportunity.t) : option Z :=
  match Opportunity.strategy o ≫= (fun s => strategies !! s) with
  | Some sc => Some (default (10 ^ 15) (minProfitETH sc))
  | None => None
  end.

(** [execute(opportunity, riskAssessment)]; of the assessment only
    [score] is read.  The result comes with the state of the executor
    afterwards and with what left the process, oldest first. *)
Definition execute (o : Opportunity.t) (score : Number.t) (e : t)
  : t * execResult * list event :=
  match selectWallet o score e with
  | None => (e, Failure "Execution error", [])
  | Some w =>
      let '(e, b) := buildTransaction o w e in
      let simulation := simulate b in
      if negb (sim_success simulation)
      then (e, Failure "Simulation failed", [])
      else
        match sim_profit simulation, minProfit o with
        | Some actualProfit, Some minProfit =>
            if Z.ltb actualProfit minProfit
            then (e, Failure "Profit below minimum threshold", [])
            else dispatch o w b e
        | _, _ => (e, Failure "Execution error", [])
        end
  end.

(** [getNonce] is an [async] function with one [await], on
    [getTransactionCount], which is evaluated only when the counter that
    is stored is missing or [0].  [getNonce_start] is the call up to
    that [await]: with a counter it runs to the end without giving way,
    [None] is the call suspended.  [getNonce_resume] is the rest of a
    suspended call, on the executor as it is by then.  A call that is
    awaited before anything else touches the executor is [getNonce]. *)
Definition getNonce_start (addr : string) (e : t) : option (t * Z) :=
  match nonces e !! addr with
  | Some n =>
      if Z.eqb n 0 then None
      else Some (set_nonces (<[addr := n + 1]> (nonces e)) e, n)
  | None => None
  end.

Definition getNonce_resume (addr : string) (e : t) : t * Z :=
  let currentNonce := getTransactionCount addr in
  (set_nonces (<[addr := currentNonce + 1]> (nonces e)) e, currentNonce).

(** Two calls for one address that are both under way before either is
    resumed, as two opportunities handled at once make them: what the
    first and the second return. *)
Definition getNonce_overlapping (addr : string) (e : t)
  : t * (Z * Z) :=
  match getNonce_start addr e with
  | Some (e, x) =>
      (* the first call has finished when the second begins *)
      let '(e, y) := getNonce addr e in (e, (x, y))
  | None =>
      (* the first call waits for the chain; the second begins on the
         same executor, finds no counter either and waits as well *)
      let '(e, x) := getNonce_resume addr e in
      let '(e, y) := getNonce_resume addr e in
      (e, (x, y))
  end.

(** [getNonce] for each address of a list in turn, with what each call
    returns. *)
Fixpoint getNonce_each (addrs : list string) (e : t)
  : t * list (string * Z) :=
  match addrs with
  | [] => (e, [])
  | a :: rest =>
      let '(e, x) := getNonce a e in
      let '(e, xs) := getNonce_each rest e in
      (e, (a, x) :: xs)
  end.

(** The nonces that a run of calls handed out for one address. *)
Definition issued_to (a : string) (calls : list (string * Z)) : list Z :=
  map snd (List.filter (fun c => String.eqb (fst c) a) calls).

End Bot.

End Executor.

(** ** src/utils/helpers.js *)
Module Helpers.

(** [simulateTransaction(transaction, signer, provider)], as the executor
    calls it.  The static call is
    [signer.callStatic[transaction.method](...transaction.args, ...)].
    The signer is a wallet, which has no [callStatic], and a transaction
    that [buildTransaction] made has neither [method] nor [args]:
    evaluating the call throws a [TypeError], and the [catch] block
    returns the object of a failed simulation, which has no [profit]. *)
Definition simulateTransaction (b : Executor.built)
  : result Executor.simulationRaw :=
  Ok {| Executor.raw_success := false; Executor.raw_profit := None |}.


(** What a call of [retry] comes to: the value that [fn] returned, or
    what is thrown in the end; [None] is the [undefined] that
    [throw lastError] throws when no attempt was made. *)
Inductive retried (A : Type) : Type :=
| Returned (a : A)
| Threw (lastError : option string).
Arguments Returned {A} a.
Arguments Threw {A} lastError.

Section Retry.

Context {A : Type}.

(** What [fn] does at each attempt, the first being attempt 0, and the
    options, which are whole numbers here. *)
Variable fn : nat -> result A.
Variable attempts : nat.
Variables delay factor maxDelay : Z.

(** [Math.min(delay * Math.pow(factor, i), maxDelay)] *)
Definition waitTime (i : nat) : Z :=
  Z.min (delay * factor ^ Z.of_nat i) maxDelay.

(** The loop of [retry] from attempt [i] on, with [n] attempts to go;
    the outcome comes with the times that [sleep] was called with. *)
Fixpoint retry_from (n i : nat) (lastError : option string)
  : retried A * list Z :=
  match n with
  | O => (Threw lastError, [])
  | S n' =>
      match fn i with
      | Ok a => (Returned a, [])
      | Throw e =>
          if Nat.ltb i (attempts - 1) then
            let '(r, waits) := retry_from n' (S i) (Some e) in
            (r, waitTime i :: waits)
          else retry_from n' (S i) (Some e)
      end
  end.

(** [retry(fn, options)] *)
Definition retry : retried A * list Z := retry_from attempts 0 None.

End Retry.

(** The loop of [chunk] from index [i] on, for a [size] that is a
    natural number.  [array.slice(i, i + size)] is [take size (drop i
    array)].  The loop does not end when [size] is [0] and the array is
    not empty; [None] stands for a run that is out of [fuel]. *)
Fixpoint chunk_loop {A : Type} (fuel : nat) (array : list A)
         (size i : nat) : option (list (list A)) :=
  match fuel with
  | O => None
  | S fuel' =>
      if Nat.ltb i (length array) then
        match chunk_loop fuel' array size (i + size) with
        | Some chunks => Some (take size (drop i array) :: chunks)
        | None => None
        end
      else Some []
  end.

(** [chunk(array, size)] *)
Definition chunk {A : Type} (fuel : nat) (array : list A) (size : nat)
  : option (list (list A)) :=
  chunk_loop fuel array size 0.

End Helpers.

(** ** src/core/Monitor.js *)
Module Monitor.

(** [String.prototype.toLowerCase], on the ASCII letters. *)
Definition lower_ascii (c : ascii) : ascii :=
  let n := nat_of_ascii c in
  if (Nat.leb 65 n && Nat.leb n 90)%bool then ascii_of_nat (n + 32) else c.

Fixpoint toLowerCase (s : string) : string :=
  match s with
  | EmptyString => EmptyString
  | String c rest => String (lower_ascii c) (toLowerCase rest)
  end.

(** A transaction as the provider returns it. *)
Record transaction : Set := {
  hash : string;
  to : option string;
  value : Z;
  data : option string
}.

Record block : Set := {
  number : Z;
  block_hash : string;
  timestamp : Z;
  transactions : list transaction
}.

(** Where a transaction was seen. *)
Inductive source : Set := Pending | InBlock.

(** The object that [decodeTransaction] resolves to. *)
Record decoded : Set := {
  method : string;
  type : option string;
  methodId : option string;
  protocol : option string
}.

(** The transaction with what [processTransaction] adds to it. *)
Record enrichedTx : Set := {
  tx : transaction;
  tx_decoded : decoded;
  tx_source : source;
  tx_timestamp : Z;
  blockNumber : option Z
}.

(** What the monitor emits; the first five are the events that carry a
    classified transaction. *)
Inductive event : Set :=
| EvTransaction (t : enrichedTx)
| EvSwap (t : enrichedTx)
| EvLiquidation (t : enrichedTx)
| EvFlashloan (t : enrichedTx)
| EvLending (t : enrichedTx)
| EvHighValue (t : enrichedTx)
| EvBlock (number : Z) (block_hash : string) (transactionCount : nat).

(** The hash of the transaction that an event carries. *)
Definition event_hash (e : event) : option string :=
  match e with
  | EvTransaction t | EvSwap t | EvLiquidation t | EvFlashloan t
  | EvLending t | EvHighValue t => Some (hash (tx t))
  | EvBlock _ _ _ => None
  end.

(** The parts of [bot.config] that the monitor reads; the two thresholds
    are the parsed amounts, in wei. *)
Record config : Set := {
  dexRouters : list (string * string);
  lendingProtocols : list (string * string);
  flashLoanProviders : list (string * string);
  minTransactionValue : option Z;
  highValueThreshold : option Z
}.

Record stats_t : Set := {
  blocksProcessed : nat;
  transactionsAnalyzed : nat;
  mempoolTxAnalyzed : nat
}.

(** The fields of a [Monitor]; the block-time averages of [stats] are left
    out.  [txCache] is a [Map], kept in insertion order. *)
Record t : Type := {
  targetContracts : gset string;
  processedTxs : gset string;
  txCache : list (string * enrichedTx);
  maxCacheSize : Z;
  stats : stats_t
}.

(** [constructor(bot)] *)
Definition new (c : config) : t :=
  {| targetContracts :=
       list_to_set (map snd (dexRouters c) ++ map snd (lendingProtocols c)
                    ++ map snd (flashLoanProviders c));
     processedTxs := ∅;
     txCache := [];
     maxCacheSize := 10000;
     stats := {| blocksProcessed := 0; transactionsAnalyzed := 0;
                 mempoolTxAnalyzed := 0 |} |}.

(** [Map.prototype.set] *)
Fixpoint cache_set (k : string) (v : enrichedTx)
         (m : list (string * enrichedTx)) : list (string * enrichedTx) :=
  match m with
  | [] => [(k, v)]
  | (k', v') :: rest =>
      if String.eqb k k' then (k, v) :: rest
      else (k', v') :: cache_set k v rest
  end.

Section Chain.

Variable cfg : config.
(** [provider.getTransaction(hash)]; [None] is [null]. *)
Variable getTransaction : string -> option transaction.
(** [provider.getBlockWithTransactions(number)] *)
Variable getBlockWithTransactions : Z -> option block.
(** The decoder that [decodeDEXTransaction] finds for a lower-cased
    router name, if any. *)
Variable decoders : string -> option (transaction -> option decoded).
(** The name of the lending method that the calldata parses to. *)
Variable parseLending : string -> option string.

(** [isTargetTransaction(tx)] *)
Definition isTargetTransaction (m : t) (x : transaction) : bool :=
  match to x with
  | Some dest =>
      if truthy_str (to x)
      then bool_decide (toLowerCase dest ∈ targetContracts m)
      else false
  | None => false
  end.

(** [isInterestingTransaction(tx)] *)
Definition isInterestingTransaction (m : t) (x : transaction) : bool :=
  if negb (truthy_str (to x)) then false
  else if Z.leb (default (10 ^ 17) (minTransactionValue cfg)) (value x)
  then true
  else if isTargetTransaction m x then true
  else match data x with
       | Some d => Nat.ltb 10 (String.length d)
       | None => false
       end.

(** [decodeDEXTransaction(tx, dexName)] *)
Definition decodeDEXTransaction (x : transaction) (dexName : string)
  : option decoded :=
  match decoders (toLowerCase dexName) with
  | Some decoder => decoder x
  | None => None
  end.

(** [decodeLendingTransaction(tx, protocolName)] *)
Definition decodeLendingTransaction (x : transaction)
           (protocolName : string) : option decoded :=
  match data x ≫= parseLending with
  | Some m =>
      Some {| method := m; type := None; methodId := None;
              protocol := Some protocolName |}
  | None => None
  end.

Definition knownMethods : list (string * (string * string)) :=
  [("0x7ff36ab5", ("swapExactETHForTokens", "swap"));
   ("0x38ed1739", ("swapExactTokensForTokens", "swap"));
   ("0x8803dbee", ("swapTokensForExactTokens", "swap"));
   ("0xa9059cbb", ("transfer", "transfer"));
   ("0x23b872dd", ("transferFrom", "transfer"));
   ("0x095ea7b3", ("approve", "approval"))].

(** [genericDecode(tx)]; it throws on a transaction without [data],
    and [decodeTransaction] turns that into [null]. *)
Definition genericDecode (x : transaction) : option decoded :=
  match data x with
  | None => None
  | Some d =>
      let id := String.substring 0 10 d in
      match List.find (fun kv => String.eqb (fst kv) id) knownMethods with
      | Some (_, (mname, mtype)) =>
          Some {| method := mname; type := Some mtype;
                  methodId := Some id; protocol := None |}
      | None =>
          Some {| method := "unknown"; type := None;
                  methodId := Some id; protocol := None |}
      end
  end.

(** The first entry of a table of addresses that [tx.to] matches. *)
Definition find_contract (x : transaction)
           (table : list (string * string)) : option string :=
  match to x with
  | Some dest =>
      fst <$> List.find
                (fun kv => String.eqb (toLowerCase dest)
                                      (toLowerCase (snd kv))) table
  | None => None
  end.

(** [decodeTransaction(tx)] *)
Definition decodeTransaction (x : transaction) : option decoded :=
  match find_contract x (dexRouters cfg) with
  | Some dexName => decodeDEXTransaction x dexName
  | None =>
      match find_contract x (lendingProtocols cfg) with
      | Some protocolName => decodeLendingTransaction x protocolName
      | None => genericDecode x
      end
  end.

(** [emitSpecificEvents(tx)] *)
Definition emitSpecificEvents (x : enrichedTx) : list event :=
  let by_type :=
    match type (tx_decoded x) with
    | Some ty =>
        if String.eqb ty "swap" then [EvSwap x]
        else if String.eqb ty "liquidation" then [EvLiquidation x]
        else if String.eqb ty "flashloan" then [EvFlashloan x]
        else if (String.eqb ty "borrow" || String.eqb ty "repay")%bool
        then [EvLending x]
        else []
    | None => []
    end in
  by_type
  ++ (if Z.leb (default (10 ^ 19) (highValueThreshold cfg))
               (value (tx x))
      then [EvHighValue x] else []).

(** [processTransaction(tx, source, block = null)]; [now] is
    [Date.now() / 1000]. *)
Definition processTransaction (now : Z) (x : transaction)
           (src : source) (b : option block) (m : t) : t * list event :=
  let m :=
    {| targetContracts := targetContracts m;
       processedTxs := {[hash x]} ∪ processedTxs m;
       txCache := txCache m;
       maxCacheSize := maxCacheSize m;
       stats :=
         {| blocksProcessed := blocksProcessed (stats m);
            transactionsAnalyzed := S (transactionsAnalyzed (stats m));
            mempoolTxAnalyzed :=
              match src with
              | Pending => S (mempoolTxAnalyzed (stats m))
              | InBlock => mempoolTxAnalyzed (stats m)
              end |} |} in
  if negb (isInterestingTransaction m x) then (m, [])
  else
    match decodeTransaction x with
    | None => (m, [])
    | Some d =>
        let enriched :=
          {| tx := x; tx_decoded := d; tx_source := src;
             tx_timestamp :=
               match b with Some bl => timestamp bl | None => now end;
             blockNumber := number <$> b |} in
        ({| targetContracts := targetContracts m;
            processedTxs := processedTxs m;
            txCache := cache_set (hash x) enriched (txCache m);
            maxCacheSize := maxCacheSize m;
            stats := stats m |},
         EvTransaction enriched :: emitSpecificEvents enriched)
    end.

(** The callback of [startPendingMonitoring], for one notification. *)
Definition pendingSubscription (now : Z) (txHash : string) (m : t)
  : t * list event :=
  if bool_decide (txHash ∈ processedTxs m) then (m, [])
  else
    match getTransaction txHash with
    | None => (m, [])
    | Some x =>
        if isTargetTransaction m x
        then processTransaction now x Pending None m
        else (m, [])
    end.

(** [cleanupCache()] *)
Definition cleanupCache (m : t) : t :=
  let cache :=
    if Z.ltb (maxCacheSize m) (Z.of_nat (length (txCache m)))
    then
      let entriesToRemove :=
        Z.of_nat (length (txCache m)) - maxCacheSize m * 8 / 10 in
      drop (Z.to_nat entriesToRemove) (txCache m)
    else txCache m in
  {| targetContracts := targetContracts m;
     processedTxs :=
       if Z.ltb 50000 (Z.of_nat (size (processedTxs m))) then ∅
       else processedTxs m;
     txCache := cache;
     maxCacheSize := maxCacheSize m;
     stats := stats m |}.

(** Every transaction of a block goes through [processTransaction]. *)
Fixpoint process_all (now : Z) (b : block) (xs : list transaction)
         (m : t) : t * list event :=
  match xs with
  | [] => (m, [])
  | x :: rest =>
      let '(m, evs) := processTransaction now x InBlock (Some b) m in
      let '(m, evs') := process_all now b rest m in
      (m, evs ++ evs')
  end.

(** The callback of [startBlockMonitoring], for one block number. *)
Definition blockSubscription (now : Z) (blockNumber : Z) (m : t)
  : t * list event :=
  match getBlockWithTransactions blockNumber with
  | None => (m, [])
  | Some b =>
      let m :=
        {| targetContracts := targetContracts m;
           processedTxs := processedTxs m;
           txCache := txCache m;
           maxCacheSize := maxCacheSize m;
           stats :=
             {| blocksProcessed := S (blocksProcessed (stats m));
                transactionsAnalyzed := transactionsAnalyzed (stats m);
                mempoolTxAnalyzed := mempoolTxAnalyzed (stats m) |} |} in
      let '(m, evs) := process_all now b (transactions b) m in
      (cleanupCache m,
       evs ++ [EvBlock (number b) (block_hash b)
                       (length (transactions b))])
  end.

End Chain.

End Monitor.

(** ** src/core/Bot.js *)
Module MEVBot.

Record performance_t : Set := {
  totalProfit : Z;
  successfulTrades : nat;
  failedTrades : nat;
  opportunitiesAnalyzed : nat
}.

(** The components of the bot that [handleOpportunity] works with. *)
Record t : Type := {
  circuitBreaker : CircuitBreaker.t;
  riskManager : RiskManager.t;
  executor : Executor.t;
  performance : performance_t
}.

(** The calls that [handleOpportunity] makes on its collaborators, in the
    order in which it makes them. *)
Inductive call : Set :=
| AssessOpportunity
| RecordRejectedOpportunity (reason : option string)
| Execute
| RecordSuccessfulTrade
| RecordFailedTrade
| MetricsRecordTrade (ok : bool)
| RecordFailure
| RecordSuccess.

Definition call_eqb (a b : call) : bool :=
  match a, b with
  | AssessOpportunity, AssessOpportunity
  | Execute, Execute
  | RecordSuccessfulTrade, RecordSuccessfulTrade
  | RecordFailedTrade, RecordFailedTrade
  | RecordFailure, RecordFailure
  | RecordSuccess, RecordSuccess => true
  | RecordRejectedOpportunity _, RecordRejectedOpportunity _ => true
  | MetricsRecordTrade x, MetricsRecordTrade y => Bool.eqb x y
  | _, _ => false
  end.

(** How often a call occurs in a trace. *)
Definition calls (c : call) (trace : list call) : nat :=
  length (List.filter (call_eqb c) trace).

(** The three writes to the database. *)
Inductive dbWrite : Set :=
| WriteRejected
| WriteSuccessful
| WriteFailed.

Definition set_circuitBreaker (c : CircuitBreaker.t) (b : t) : t :=
  {| circuitBreaker := c; riskManager := riskManager b;
     executor := executor b; performance := performance b |}.

Definition set_performance (p : performance_t) (b : t) : t :=
  {| circuitBreaker := circuitBreaker b; riskManager := riskManager b;
     executor := executor b; performance := p |}.

Section Handle.

Variable wallets : list Executor.wallet.
Variable strategies : gmap string Executor.strategyConfig.
Variable botGasPrice : Z.
Variable getTransactionCount : string -> Z.
Variable simulateTransaction :
  Executor.built -> result Executor.simulationRaw.
Variable outcome : Executor.chainOutcome.
Variable standard : Executor.txOutcome.
Variable profitCalculator :
  string -> option (Executor.profitView -> option Z).
Variable encodeLiquidation :
  option string -> option string -> option Z -> string.
Variable calculatePositionSize : Opportunity.t -> Number.t -> Z.
(** Whether a write to the database goes through; otherwise it
    throws. *)
Variable db_ok : dbWrite -> bool.

(** The [catch] block of [handleOpportunity]. *)
Definition on_error (now : Z) (b : t) (trace : list call)
           (evs : list Executor.event)
  : t * list call * list Executor.event :=
  (set_circuitBreaker
     (CircuitBreaker.recordFailure now None (circuitBreaker b)) b,
   trace ++ [RecordFailure], evs).

(** [handleOpportunity(opportunity, strategyName)]; [today] and [now]
    are the readings of the clock.  The result is the bot afterwards,
    the calls made and what the executor let out. *)
Definition handleOpportunity (today : string) (now : Z)
           (o : Opportunity.t) (strategyName : string) (b : t)
  : t * list call * list Executor.event :=
  let p := performance b in
  let b :=
    set_performance
      {| totalProfit := totalProfit p;
         successfulTrades := successfulTrades p;
         failedTrades := failedTrades p;
         opportunitiesAnalyzed := S (opportunitiesAnalyzed p) |} b in
  if CircuitBreaker.isTripped (circuitBreaker b) then (b, [], [])
  else
    let '(rm, riskAssessment) :=
      RiskManager.assessOpportunity calculatePositionSize today now o
                                    (riskManager b) in
    let b :=
      {| circuitBreaker := circuitBreaker b; riskManager := rm;
         executor := executor b; performance := performance b |} in
    let trace := [AssessOpportunity] in
    if negb (RiskManager.approved riskAssessment) then
      let trace :=
        trace ++ [RecordRejectedOpportunity
                    (RiskManager.assessment_reason riskAssessment)] in
      if db_ok WriteRejected then (b, trace, [])
      else on_error now b trace []
    else
      match Opportunity.expectedProfit o, riskAssessment with
      | Some _, RiskManager.Assessment _ score _ _ _ _ _ =>
          let '(ex, result, evs) :=
            Executor.execute wallets strategies botGasPrice
                             getTransactionCount simulateTransaction
                             outcome standard profitCalculator
                             encodeLiquidation o score (executor b) in
          let b :=
            {| circuitBreaker := circuitBreaker b;
               riskManager := riskManager b;
               executor := ex; performance := performance b |} in
          let trace := trace ++ [Execute] in
          let p := performance b in
          match result with
          | Executor.Success (Some profit) =>
              let b :=
                set_performance
                  {| totalProfit := totalProfit p + profit;
                     successfulTrades := S (successfulTrades p);
                     failedTrades := failedTrades p;
                     opportunitiesAnalyzed := opportunitiesAnalyzed p |}
                  b in
              let trace := trace ++ [RecordSuccessfulTrade] in
              if db_ok WriteSuccessful
              then (b, trace ++ [MetricsRecordTrade true], evs)
              else on_error now b trace evs
          | Executor.Success None =>
              (* [totalProfit.add(undefined)] throws *)
              let b :=
                set_performance
                  {| totalProfit := totalProfit p;
                     successfulTrades := S (successfulTrades p);
                     failedTrades := failedTrades p;
                     opportunitiesAnalyzed := opportunitiesAnalyzed p |}
                  b in
              on_error now b trace evs
          | Executor.Failure _ =>
              let b :=
                set_performance
                  {| totalProfit := totalProfit p;
                     successfulTrades := successfulTrades p;
                     failedTrades := S (failedTrades p);
                     opportunitiesAnalyzed := opportunitiesAnalyzed p |}
                  b in
              let b :=
                set_circuitBreaker
                  (CircuitBreaker.recordFailure now None
                                                (circuitBreaker b)) b in
              let trace := trace ++ [RecordFailure; RecordFailedTrade] in
              if db_ok WriteFailed
              then (b, trace ++ [MetricsRecordTrade false], evs)
              else on_error now b trace evs
          end
      | _, _ =>
          (* [formatEther(opportunity.expectedProfit)] throws *)
          on_error now b trace []
      end.

End Handle.

End MEVBot.

(** ** Concrete runs

    The inputs at which the properties below are exercised. *)
Module Scenario.

(** A breaker built from an empty configuration object. *)
Definition breaker : CircuitBreaker.t :=
  CircuitBreaker.new
    {| CircuitBreaker.cfg_maxFailuresPerHour := None;
       CircuitBreaker.cfg_maxConsecutiveFailures := None;
       CircuitBreaker.cfg_cooldownMinutes := None;
       CircuitBreaker.cfg_strategyDisableThreshold := None |}.

(** Five failures, one a second. *)
Definition five_failures : list (Z * option string) :=
  [(1000, None); (2000, Some "arbitrage"); (3000, None);
   (4000, None); (5000, None)].

Definition open_breaker : CircuitBreaker.t :=
  CircuitBreaker.recordFailures five_failures breaker.

(** The same breaker half an hour later, when the timer has run. *)
Definition half_open_breaker : CircuitBreaker.t :=
  CircuitBreaker.fire_timer (5000 + 30 * 60 * 1000) open_breaker.

(** The clock: the day and the millisecond. *)
Definition today : string := "2026-03-01".
Definition now : Z := 1772323200000.


(** The [risk] block of config/default.json with [maxPositionETH] set to
    ['0']. *)
Definition zero_position_limit : RiskManager.config :=
  {| RiskManager.maxPositionETH := Some 0;
     RiskManager.maxDailyLossETH := Some (RiskManager.ether 1);
     RiskManager.maxGasGwei := Some (RiskManager.gwei 100);
     RiskManager.cfg_minProfitRatio := Some (3 # 2);
     RiskManager.maxRiskScore := Some 7%Q;
     RiskManager.maxTokenRisk := Some 5%Q;
     RiskManager.maxDexRisk := Some 5%Q;
     RiskManager.maxSlippageBps := Some 50%Q |}.

(** Two results of checks, as [calculateRiskScore] takes them: one that
    passed with a value three times its [maxValue], and one that passed
    and reports no value. *)
Definition passed_above_limit : RiskManager.check :=
  {| RiskManager.name := "tokenRisk";
     RiskManager.passed := true;
     RiskManager.value := Some (RiskManager.VNum 30);
     RiskManager.maxValue := Some (RiskManager.VNum 10);
     RiskManager.minValue := None;
     RiskManager.riskyToken := None;
     RiskManager.riskyDex := None;
     RiskManager.reason := None;
     RiskManager.weight := Some 1 |}.

Definition passed_plain : RiskManager.check :=
  {| RiskManager.name := "liquidity";
     RiskManager.passed := true;
     RiskManager.value := None;
     RiskManager.maxValue := None;
     RiskManager.minValue := None;
     RiskManager.riskyToken := None;
     RiskManager.riskyDex := None;
     RiskManager.reason := None;
     RiskManager.weight := Some 1 |}.

(** A risk manager under the [risk] block of config/default.json. *)
Definition riskManager : RiskManager.t :=
  RiskManager.new RiskManager.default_config today.

(** The position sizer, cut down to its floor of 0.1 ether. *)
Definition sizer (o : Opportunity.t) (score : Number.t) : Z := 10 ^ 17.

(** An arbitrage of 1 WETH for USDC on two venues, expected to make
    0.02 ether for 0.006 ether of gas; it expired a second ago. *)
Definition arbitrage : Opportunity.t :=
  {| Opportunity.type := Some "arbitrage";
     Opportunity.strategy := Some "arbitrage";
     Opportunity.amount := Some (10 ^ 18);
     Opportunity.inputAmount := None;
     Opportunity.gasPrice := Some (20 * 10 ^ 9);
     Opportunity.expectedProfit := Some (2 * 10 ^ 16);
     Opportunity.netProfit := None;
     Opportunity.gasCost := Some (6 * 10 ^ 15);
     Opportunity.tokenA := Some "WETH";
     Opportunity.tokenB := Some "USDC";
     Opportunity.path := None;
     Opportunity.asset := None;
     Opportunity.user := None;
     Opportunity.dex := None;
     Opportunity.buyDex := Some "uniswapV3";
     Opportunity.sellDex := Some "sushiswap";
     Opportunity.quotes := None;
     Opportunity.priority := None;
     Opportunity.requiresBundle := false;
     Opportunity.estimatedGas := Some 300000;
     Opportunity.value := None;
     Opportunity.to := None;
     Opportunity.data := None;
     Opportunity.contract := Some "0xc0ffee";
     Opportunity.calldata := Some "0x38ed1739";
     Opportunity.lendingProtocol := None;
     Opportunity.frontrun := None;
     Opportunity.backrun := None;
     Opportunity.frontrunTx := None;
     Opportunity.backrunTx := None;
     Opportunity.victimTx := None;
     Opportunity.transactions := None;
     Opportunity.timestamp := Some (now - 4000);
     Opportunity.expiresAt := Some (now - 1000) |}.

(** A bot with one main wallet at chain nonce 5, a closed breaker, the
    simulator of the repository with a static call that goes through, a
    chain that includes what it is sent, and a database that takes every
    write.  The simulator reports no profit, so the bot runs with
    [minProfitETH: '0'] for its one strategy; [default_strategies] has the
    0.001 ether of config/default.json instead. *)
Definition wallets : list Executor.wallet :=
  [{| Executor.wtype := Executor.Main; Executor.address := "0xmain" |}].

Definition strategies : gmap string Executor.strategyConfig :=
  {["arbitrage" := {| Executor.minProfitETH := Some 0 |}]}.

Definition default_strategies : gmap string Executor.strategyConfig :=
  {["arbitrage" := {| Executor.minProfitETH := Some (10 ^ 15) |}]}.

Definition botGasPrice : Z := 20 * 10 ^ 9.

Definition getTransactionCount (addr : string) : Z := 5.

(** A simulator that lets every transaction through and names no
    profit, as a static call that goes through would.  The helper of the
    repository is not such a simulator: see
    [Helpers.simulateTransaction]. *)
Definition simulateTransaction (b : Executor.built)
  : result Executor.simulationRaw :=
  Ok {| Executor.raw_success := true; Executor.raw_profit := None |}.

(** A bundle that the relay includes, with the profit it reports. *)
Definition included : Executor.chainOutcome :=
  Executor.Included (Some (14 * 10 ^ 15)).

(** A transaction that is mined and confirmed at a gas cost of 0.006
    ether, and one that is mined and reverts; the receipt has no log. *)
Definition mined : Executor.txOutcome :=
  Executor.Mined true (6 * 10 ^ 15) None.

Definition mined_reverted : Executor.txOutcome :=
  Executor.Mined false (6 * 10 ^ 15) None.

(** The arbitrage strategy is the one that is registered.  On a receipt
    without a transfer its [calculateProfit] gives the expected profit
    less the cost of the gas, and [0] where that throws. *)
Definition profitCalculator (name : string)
  : option (Executor.profitView -> option Z) :=
  if String.eqb name "arbitrage"
  then Some (fun v =>
               match Executor.pv_expectedProfit v with
               | Some expectedProfit => Some (expectedProfit - 6 * 10 ^ 15)
               | None => Some 0
               end)
  else None.

Definition encodeLiquidation (user asset : option string)
           (amount : option Z) : string := "0x".

Definition db_ok (w : MEVBot.dbWrite) : bool := true.

Definition bot : MEVBot.t :=
  {| MEVBot.circuitBreaker := breaker;
     MEVBot.riskManager := riskManager;
     MEVBot.executor := Executor.new;
     MEVBot.performance :=
       {| MEVBot.totalProfit := 0; MEVBot.successfulTrades := 0;
          MEVBot.failedTrades := 0; MEVBot.opportunitiesAnalyzed := 0 |} |}.

(** The transaction that [buildTransaction] makes of [arbitrage]. *)
Definition arbitrage_tx : Executor.tx :=
  {| Executor.from := Some "0xmain";
     Executor.nonce := Some 5;
     Executor.gasPrice := Some (20 * 10 ^ 9);
     Executor.gasLimit := Some 300000;
     Executor.value := Some 0;
     Executor.to := Some "0xc0ffee";
     Executor.data := Some "0x38ed1739" |}.

(** Three healthy providers of equal priority: a fast and clean one, a
    slow and clean one, and a fast one that fails every other request. *)
Definition fast_clean : ProviderManager.provider :=
  {| ProviderManager._name := "alchemy";
     ProviderManager._priority := 1;
     ProviderManager._stats :=
       {| ProviderManager.requests := 10; ProviderManager.errors := 0;
          ProviderManager.latency := [100];
          ProviderManager.healthy := true |} |}.

Definition slow_clean : ProviderManager.provider :=
  {| ProviderManager._name := "infura";
     ProviderManager._priority := 1;
     ProviderManager._stats :=
       {| ProviderManager.requests := 10; ProviderManager.errors := 0;
          ProviderManager.latency := [300];
          ProviderManager.healthy := true |} |}.

Definition fast_flaky : ProviderManager.provider :=
  {| ProviderManager._name := "public";
     ProviderManager._priority := 1;
     ProviderManager._stats :=
       {| ProviderManager.requests := 10; ProviderManager.errors := 5;
          ProviderManager.latency := [100];
          ProviderManager.healthy := true |} |}.

Definition pool : ProviderManager.t :=
  {| ProviderManager.providers := [slow_clean; fast_clean; fast_flaky];
     ProviderManager.primaryProvider := slow_clean |}.

(** Two healthy providers whose scores differ as real numbers and are
    the same double: each has a hundred measurements, an error rate near
    0.3137 and a score near 1114.148. *)
Definition tied_first : ProviderManager.provider :=
  {| ProviderManager._name := "alchemy";
     ProviderManager._priority := 1;
     ProviderManager._stats :=
       {| ProviderManager.requests := Z.to_nat 495114;
          ProviderManager.errors := Z.to_nat 155267;
          ProviderManager.latency := repeat 810 99 ++ [865];
          ProviderManager.healthy := true |} |}.

Definition tied_second : ProviderManager.provider :=
  {| ProviderManager._name := "infura";
     ProviderManager._priority := 1;
     ProviderManager._stats :=
       {| ProviderManager.requests := Z.to_nat 644308;
          ProviderManager.errors := Z.to_nat 202112;
          ProviderManager.latency := repeat 810 99 ++ [856];
          ProviderManager.healthy := true |} |}.

Definition tied_pool : ProviderManager.t :=
  {| ProviderManager.providers := [tied_first; tied_second];
     ProviderManager.primaryProvider := tied_first |}.

(** [k] transactions to be sent as one bundle. *)
Definition bundle (k : nat) : Opportunity.t :=
  {| Opportunity.type := Some "arbitrage";
     Opportunity.strategy := Some "arbitrage";
     Opportunity.amount := Some (10 ^ 18);
     Opportunity.inputAmount := None;
     Opportunity.gasPrice := None;
     Opportunity.expectedProfit := Some (2 * 10 ^ 16);
     Opportunity.netProfit := None;
     Opportunity.gasCost := Some (6 * 10 ^ 15);
     Opportunity.tokenA := None;
     Opportunity.tokenB := None;
     Opportunity.path := None;
     Opportunity.asset := None;
     Opportunity.user := None;
     Opportunity.dex := None;
     Opportunity.buyDex := None;
     Opportunity.sellDex := None;
     Opportunity.quotes := None;
     Opportunity.priority := None;
     Opportunity.requiresBundle := true;
     Opportunity.estimatedGas := None;
     Opportunity.value := None;
     Opportunity.to := None;
     Opportunity.data := None;
     Opportunity.contract := Some "0xc0ffee";
     Opportunity.calldata := Some "0x38ed1739";
     Opportunity.lendingProtocol := None;
     Opportunity.frontrun := None;
     Opportunity.backrun := None;
     Opportunity.frontrunTx := None;
     Opportunity.backrunTx := None;
     Opportunity.victimTx := None;
     Opportunity.transactions :=
       Some (repeat {| Opportunity.tpl_to := Some "0xc0ffee";
                       Opportunity.tpl_data := Some "0x01";
                       Opportunity.tpl_value := None |} k);
     Opportunity.timestamp := Some now;
     Opportunity.expiresAt := None |}.

Definition main_wallet : Executor.wallet :=
  {| Executor.wtype := Executor.Main; Executor.address := "0xmain" |}.

(** A bot whose breaker has seen four failures in a row. *)
Definition strained_bot : MEVBot.t :=
  MEVBot.set_circuitBreaker
    (CircuitBreaker.recordFailures (take 4 five_failures) breaker) bot.

(** A chain on which the transaction reverts, and a database that is
    down. *)
Definition db_down (w : MEVBot.dbWrite) : bool := false.

(** A monitor that watches one flash-loan provider, and a swap of 12 ether
    sent to it, first seen pending and then mined in block 100. *)
Definition monitor_config : Monitor.config :=
  {| Monitor.dexRouters := [];
     Monitor.lendingProtocols := [];
     Monitor.flashLoanProviders := [("aave", "0xa238dd80")];
     Monitor.minTransactionValue := None;
     Monitor.highValueThreshold := None |}.

Definition swap_tx : Monitor.transaction :=
  {| Monitor.hash := "0xabc";
     Monitor.to := Some "0xA238Dd80";
     Monitor.value := 12 * 10 ^ 18;
     Monitor.data := Some "0x38ed1739000000000000" |}.

Definition block_100 : Monitor.block :=
  {| Monitor.number := 100;
     Monitor.block_hash := "0xb100";
     Monitor.timestamp := 1772323212;
     Monitor.transactions := [swap_tx] |}.

Definition getTransaction (h : string) : option Monitor.transaction :=
  if String.eqb h "0xabc" then Some swap_tx else None.

Definition getBlockWithTransactions (n : Z) : option Monitor.block :=
  if Z.eqb n 100 then Some block_100 else None.

Definition decoders (dexName : string)
  : option (Monitor.transaction -> option Monitor.decoded) := None.

Definition parseLending (calldata : string) : option string := None.

Definition monitor : Monitor.t := Monitor.new monitor_config.

End Scenario.

(** ** src/risk/PositionSizer.js *)
Module PositionSizer.

(** An entry of [recentTrades]. *)
Record trade : Set := {
  trade_timestamp : Z;
  trade_profit : Q;
  trade_strategy : option string
}.

Record t : Set := {
  minPositionSize : Z;
  maxPositionSize : Z;
  recentTrades : list trade;
  maxRecentTrades : nat
}.

(** [constructor(config)]; [maxPositionETH] is the parsed amount, as in
    the risk manager. *)
Definition new (maxPositionETH : option Z) : t :=
  {| minPositionSize := 100000000000000000;
     maxPositionSize := default (RiskManager.ether 10) maxPositionETH;
     recentTrades := [];
     maxRecentTrades := 100 |}.

(** [getCurrentBalance()] *)
Definition getCurrentBalance : Z := RiskManager.ether 10.

(** [BigNumber.mul(n)] with a JavaScript number: the number is converted
    with [BigNumber.from], which throws at and beyond
    [Number.MAX_SAFE_INTEGER]. *)
Definition mul_number (x n : Z) : result Z :=
  if Z.ltb (Z.abs n) (2 ^ 53 - 1) then Ok (x * n) else Throw "overflow".

(** [positionSize.mul(n).div(100)] *)
Definition scale (x n : Z) : result Z :=
  match mul_number x n with
  | Ok y => Ok (Z.quot y 100)
  | Throw msg => Throw msg
  end.

(** [ensureWithinBounds(positionSize, balance)] *)
Definition ensureWithinBounds (s : t) (positionSize balance : Z) : Z :=
  let positionSize :=
    if Z.gtb positionSize (maxPositionSize s)
    then maxPositionSize s else positionSize in
  let positionSize :=
    if Z.ltb positionSize (minPositionSize s)
    then minPositionSize s else positionSize in
  let maxAvailable := Z.quot (balance * 90) 100 in
  if Z.gtb positionSize maxAvailable then maxAvailable else positionSize.

(** The names that every object has from [Object.prototype]:
    [strategyLimits[strategy]] is an object or a function for them. *)
Definition inherited_keys : list string :=
  ["constructor"; "toString"; "toLocaleString"; "valueOf";
   "hasOwnProperty"; "isPrototypeOf"; "propertyIsEnumerable";
   "__proto__"; "__defineGetter__"; "__defineSetter__";
   "__lookupGetter__"; "__lookupSetter__"].

(** [applyStrategyLimits(positionSize, strategy)].  The products
    [Math.floor(limit * 100)] of the four limits and of the default are
    100, 120, 80, 50 and 80; for an inherited name the product is [NaN],
    which [mul] refuses. *)
Definition applyStrategyLimits (positionSize : Z)
           (strategy : option string) : result Z :=
  match strategy with
  | Some name =>
      if existsb (String.eqb name) inherited_keys
      then Throw "invalid BigNumber value"
      else
        let limit :=
          if String.eqb name "arbitrage" then 100
          else if String.eqb name "flashloan" then 120
          else if String.eqb name "liquidation" then 80
          else if String.eqb name "sandwich" then 50
          else 80 in
        scale positionSize limit
  | None => scale positionSize 80
  end.

(** [recordTradeResult(trade)]; [profit] is the parsed number and [now]
    is [Date.now()]. *)
Definition recordTradeResult (now : Z) (profit : Q)
           (strategy : option string) (s : t) : t :=
  let trades :=
    recentTrades s
    ++ [{| trade_timestamp := now; trade_profit := profit;
           trade_strategy := strategy |}] in
  {| minPositionSize := minPositionSize s;
     maxPositionSize := maxPositionSize s;
     recentTrades :=
       if Nat.ltb (maxRecentTrades s) (length trades)
       then tl trades else trades;
     maxRecentTrades := maxRecentTrades s |}.

Section Sizing.

(** What is computed with doubles: [Math.floor(x * 100)], the
    [Math.exp(-riskScore / 5)] of [applyRiskAdjustment], the [safeKelly]
    that [applyKellyCriterion] arrives at when there are losses, and the
    [confidence] that an opportunity may carry. *)
Variable floor100 : Q -> Z.
Variable riskMultiplier : Q -> Q.
Variable safeKelly : list trade -> Q.
Variable confidence : Opportunity.t -> option Q.

(** [calculateBasePosition(opportunity, balance)] *)
Definition calculateBasePosition (o : Opportunity.t) (balance : Z)
  : result Z :=
  let basePercentage := 5 in
  let basePosition := Z.quot (balance * basePercentage) 100 in
  let adjusted :=
    match confidence o with
    | Some c =>
        if Qeq_bool c 0 then Ok basePosition
        else
          let confidenceMultiplier := Qmax (1 # 2) (Qmin 2 c) in
          scale basePosition (floor100 confidenceMultiplier)
    | None => Ok basePosition
    end in
  match adjusted with
  | Throw msg => Throw msg
  | Ok basePosition =>
      match Opportunity.expectedProfit o, Opportunity.amount o with
      | Some expectedProfit, Some amount =>
          match RiskManager.bn_div (expectedProfit * 10000) amount with
          | Throw msg => Throw msg
          | Ok q =>
              match RiskManager.toNumber q with
              | Throw msg => Throw msg
              | Ok n =>
                  let profitRatio := (inject_Z n / 100)%Q in
                  if RiskManager.Qlt_bool 1 profitRatio
                  then Ok (Z.quot (basePosition * 120) 100)
                  else if RiskManager.Qlt_bool profitRatio (1 # 2)
                  then Ok (Z.quot (basePosition * 80) 100)
                  else Ok basePosition
              end
          end
      | _, _ => Ok basePosition
      end
  end.

(** [applyRiskAdjustment(positionSize, riskScore)].  [Math.exp] of an
    infinite or undefined exponent is [0], [Infinity] or [NaN]; [mul]
    refuses the last two. *)
Definition applyRiskAdjustment (positionSize : Z) (riskScore : Number.t)
  : result Z :=
  match riskScore with
  | Number.Num q => scale positionSize (floor100 (riskMultiplier q))
  | Number.PInf => scale positionSize 0
  | Number.NInf | Number.NaN => Throw "invalid BigNumber value"
  end.

(** [applyKellyCriterion(positionSize, opportunity)] *)
Definition applyKellyCriterion (s : t) (positionSize : Z) : result Z :=
  let losses :=
    List.filter (fun tr => Qle_bool (trade_profit tr) 0) (recentTrades s) in
  if Nat.eqb (length losses) 0
  then Ok (Z.quot (positionSize * 50) 100)
  else scale positionSize (floor100 (safeKelly (recentTrades s))).

(** The body of the [try] block of [calculatePositionSize]. *)
Definition sized (s : t) (o : Opportunity.t) (riskScore : Number.t)
  : result Z :=
  let balance := getCurrentBalance in
  match calculateBasePosition o balance with
  | Throw msg => Throw msg
  | Ok positionSize =>
      match applyRiskAdjustment positionSize riskScore with
      | Throw msg => Throw msg
      | Ok positionSize =>
          match applyStrategyLimits positionSize
                  (Opportunity.strategy o) with
          | Throw msg => Throw msg
          | Ok positionSize =>
              let kelly :=
                if Nat.leb 20 (length (recentTrades s))
                then applyKellyCriterion s positionSize
                else Ok positionSize in
              match kelly with
              | Throw msg => Throw msg
              | Ok positionSize =>
                  Ok (ensureWithinBounds s positionSize balance)
              end
          end
      end
  end.

(** [calculatePositionSize(opportunity, riskScore)]: whatever is thrown
    is caught, and the minimum is returned. *)
Definition calculatePositionSize (s : t) (o : Opportunity.t)
           (riskScore : Number.t) : Z :=
  match sized s o riskScore with
  | Ok positionSize => positionSize
  | Throw _ => minPositionSize s
  end.

End Sizing.

End PositionSizer.

(** * Properties *)

(** ** Rounding to the nearest double *)
Section NumberFacts.
Import Number.

Lemma pow2_pos (e : Z) : (0 < pow2 e)%Q.
Proof. apply Qpower_0_lt. reflexivity. Qed.

Lemma pow2_add (a b : Z) : (pow2 (a + b) == pow2 a * pow2 b)%Q.
Proof. apply Qpower_plus. discriminate. Qed.

Lemma pow2_succ (a : Z) : (pow2 (a + 1) == 2 * pow2 a)%Q.
Proof. rewrite pow2_add. unfold pow2 at 2. simpl. ring. Qed.

Lemma pow2_le (a b : Z) : a <= b -> (pow2 a <= pow2 b)%Q.
Proof. intros H. apply Qpower_le_compat_l; [exact H | discriminate]. Qed.

Lemma pow2_lt_inv (a b : Z) : (pow2 a < pow2 b)%Q -> a < b.
Proof. intros H. eapply Qpower_lt_compat_l_inv; [exact H | reflexivity]. Qed.

Lemma pow2_nonneg_Z (a : Z) : 0 <= a -> (pow2 a == inject_Z (2 ^ a))%Q.
Proof.
  intros H. unfold pow2. rewrite Zpower_Qpower by exact H.
  reflexivity.
Qed.

Lemma Qpos_num (x : Q) : (0 < x)%Q <-> 0 < Qnum x.
Proof. unfold Qlt. simpl. lia. Qed.

Lemma ilog2_spec (x : Q) :
  (0 < x)%Q -> (pow2 (ilog2 x) <= x /\ x < pow2 (ilog2 x + 1))%Q.
Proof.
  intros Hx. unfold ilog2.
  set (a := Z.log2 (Qnum x)). set (b := Z.log2 (Zpos (Qden x))).
  assert (Hn : 0 < Qnum x) by (apply Qpos_num; exact Hx).
  destruct (Z.log2_spec (Qnum x) Hn) as [Ha1 Ha2].
  destruct (Z.log2_spec (Zpos (Qden x)) eq_refl) as [Hb1 Hb2].
  fold a in Ha1, Ha2. fold b in Hb1, Hb2.
  assert (Ha0 : 0 <= a) by apply Z.log2_nonneg.
  assert (Hb0 : 0 <= b) by apply Z.log2_nonneg.
  assert (Ex : (x * inject_Z (Zpos (Qden x)) == inject_Z (Qnum x))%Q).
  { destruct x as [n d]. unfold Qeq, Qmult, inject_Z. simpl. lia. }
  assert (Qa1 : (pow2 a <= inject_Z (Qnum x))%Q).
  { rewrite pow2_nonneg_Z by exact Ha0. rewrite <- Zle_Qle. exact Ha1. }
  assert (Qa2 : (inject_Z (Qnum x) < pow2 (a + 1))%Q).
  { rewrite pow2_nonneg_Z by lia. rewrite <- Zlt_Qlt.
    replace (a + 1) with (Z.succ a) by lia. exact Ha2. }
  assert (Qb1 : (pow2 b <= inject_Z (Zpos (Qden x)))%Q).
  { rewrite pow2_nonneg_Z by exact Hb0. rewrite <- Zle_Qle. exact Hb1. }
  assert (Qb2 : (inject_Z (Zpos (Qden x)) < pow2 (b + 1))%Q).
  { rewrite pow2_nonneg_Z by lia. rewrite <- Zlt_Qlt.
    replace (b + 1) with (Z.succ b) by lia. exact Hb2. }
  pose proof (pow2_pos a) as Pa. pose proof (pow2_pos b) as Pb.
  pose proof (pow2_pos (a - b)) as Pab.
  assert (Eab : (pow2 a == pow2 (a - b) * pow2 b)%Q).
  { rewrite <- pow2_add. replace (a - b + b) with a by lia. reflexivity. }
  pose proof (pow2_succ a) as Sa. pose proof (pow2_succ b) as Sb.
  pose proof (pow2_succ (a - b)) as Sab.
  pose proof (pow2_succ (a - b - 1)) as Sab1.
  replace (a - b - 1 + 1) with (a - b) in Sab1 by lia.
  set (d := inject_Z (Zpos (Qden x))) in *.
  set (n := inject_Z (Qnum x)) in *.
  assert (Hd : (0 < d)%Q) by lra.
  destruct (Qle_bool (pow2 (a - b)) x) eqn:E.
  - apply Qle_bool_iff in E. split; [exact E |].
    (* x < 2 * pow2 (a-b) *)
    rewrite Sab.
    apply Qnot_le_lt. intros Hc.
    assert (2 * pow2 (a - b) * pow2 b <= x * d)%Q.
    { apply Qle_trans with (x * pow2 b)%Q.
      - apply Qmult_le_compat_r; lra.
      - apply Qmult_le_l; lra. }
    lra.
  - assert (Hlt : (x < pow2 (a - b))%Q).
    { apply Qnot_le_lt. intros Hc. apply Qle_bool_iff in Hc. congruence. }
    replace (a - b - 1 + 1) with (a - b) by lia.
    split; [| exact Hlt].
    apply Qnot_lt_le. intros Hc.
    assert (x * d < pow2 (a - b - 1) * pow2 (b + 1))%Q.
    { apply Qle_lt_trans with (x * pow2 (b + 1))%Q.
      - apply Qmult_le_l; lra.
      - apply Qmult_lt_compat_r; [apply pow2_pos | exact Hc]. }
    rewrite Sb in H.
    assert (pow2 (a - b - 1) * (2 * pow2 b) == pow2 a)%Q.
    { rewrite Eab, Sab1. ring. }
    lra.
Qed.


Lemma ilog2_mono (x y : Q) : (0 < x)%Q -> (x <= y)%Q -> ilog2 x <= ilog2 y.
Proof.
  intros Hx Hxy.
  destruct (ilog2_spec x Hx) as [H1 _].
  destruct (ilog2_spec y) as [_ H2]; [lra |].
  assert (ilog2 x < ilog2 y + 1); [| lia].
  apply pow2_lt_inv. lra.
Qed.

Lemma ilog2_unique (x : Q) (k : Z) :
  (pow2 k <= x)%Q -> (x < pow2 (k + 1))%Q -> ilog2 x = k.
Proof.
  intros H1 H2. pose proof (pow2_pos k) as Hk.
  destruct (ilog2_spec x) as [H3 H4]; [lra |].
  assert (k < ilog2 x + 1) by (apply pow2_lt_inv; lra).
  assert (ilog2 x < k + 1) by (apply pow2_lt_inv; lra).
  lia.
Qed.

Lemma rne_floor (x : Q) : rne x = Qfloor x \/ rne x = Qfloor x + 1.
Proof.
  unfold rne. destruct (x - inject_Z (Qfloor x) ?= 1 # 2)%Q; auto.
  destruct (Z.even (Qfloor x)); auto.
Qed.

Lemma rne_lower (x : Q) (z : Z) : (inject_Z z <= x)%Q -> z <= rne x.
Proof.
  intros H. apply Qfloor_resp_le in H. rewrite Qfloor_Z in H.
  destruct (rne_floor x); lia.
Qed.

Lemma rne_upper (x : Q) (z : Z) : (x <= inject_Z z)%Q -> rne x <= z.
Proof.
  intros H. pose proof (Qfloor_le x) as Hf.
  assert (Hz : Qfloor x <= z).
  { apply Qfloor_resp_le in H. rewrite Qfloor_Z in H. exact H. }
  destruct (Z.eq_dec (Qfloor x) z) as [E | E].
  - unfold rne. rewrite E.
    assert (Hc : (x - inject_Z z ?= 1 # 2)%Q = Lt).
    { apply (proj1 (Qlt_alt _ _)). rewrite E in Hf. lra. }
    rewrite Hc. lia.
  - destruct (rne_floor x); lia.
Qed.

Lemma rne_mono (x y : Q) : (x <= y)%Q -> rne x <= rne y.
Proof.
  intros H.
  assert (Hf : Qfloor x <= Qfloor y) by (apply Qfloor_resp_le; exact H).
  destruct (Z.eq_dec (Qfloor x) (Qfloor y)) as [E | E].
  - unfold rne. rewrite <- E.
    destruct (x - inject_Z (Qfloor x) ?= 1 # 2)%Q eqn:Cx;
      destruct (y - inject_Z (Qfloor x) ?= 1 # 2)%Q eqn:Cy;
      try (destruct (Z.even (Qfloor x))); try lia;
      try apply (proj2 (Qeq_alt _ _)) in Cx;
      try apply (proj2 (Qlt_alt _ _)) in Cx;
      try apply (proj2 (Qgt_alt _ _)) in Cx;
      try apply (proj2 (Qeq_alt _ _)) in Cy;
      try apply (proj2 (Qlt_alt _ _)) in Cy;
      try apply (proj2 (Qgt_alt _ _)) in Cy;
      lra.
  - assert (rne x <= Qfloor x + 1) by (destruct (rne_floor x); lia).
    assert (Qfloor y <= rne y) by (destruct (rne_floor y); lia).
    lia.
Qed.

Lemma rne_Z (z : Z) : rne (inject_Z z) = z.
Proof.
  apply Z.le_antisymm; [apply rne_upper | apply rne_lower]; apply Qle_refl.
Qed.

Lemma rne_eq (x : Q) (z : Z) : (x == inject_Z z)%Q -> rne x = z.
Proof.
  intros H. apply Z.le_antisymm; [apply rne_upper | apply rne_lower]; lra.
Qed.

Lemma scaled_range (x : Q) :
  (0 < x)%Q ->
  (inject_Z (2 ^ 52) <= x / pow2 (ilog2 x - 52)
   /\ x / pow2 (ilog2 x - 52) <= inject_Z (2 ^ 53))%Q.
Proof.
  intros Hx. destruct (ilog2_spec x Hx) as [H1 H2].
  pose proof (pow2_pos (ilog2 x - 52)) as He.
  assert (E1 : (pow2 (ilog2 x) == pow2 52 * pow2 (ilog2 x - 52))%Q).
  { rewrite <- pow2_add. replace (52 + (ilog2 x - 52)) with (ilog2 x) by lia.
    reflexivity. }
  assert (E2 : (pow2 (ilog2 x + 1) == pow2 53 * pow2 (ilog2 x - 52))%Q).
  { rewrite <- pow2_add.
    replace (53 + (ilog2 x - 52)) with (ilog2 x + 1) by lia. reflexivity. }
  rewrite <- !pow2_nonneg_Z by lia.
  split.
  - apply Qle_shift_div_l; [exact He | lra].
  - apply Qle_shift_div_r; [exact He | lra].
Qed.

Lemma nearest_bounds (x : Q) :
  (0 < x)%Q ->
  (pow2 (ilog2 x) <= nearest x /\ nearest x <= pow2 (ilog2 x + 1))%Q.
Proof.
  intros Hx. destruct (scaled_range x Hx) as [H1 H2].
  apply rne_lower in H1. apply rne_upper in H2.
  unfold nearest. set (m := rne (x / pow2 (ilog2 x - 52))) in *.
  pose proof (pow2_pos (ilog2 x - 52)) as He.
  assert (E1 : (pow2 (ilog2 x) == pow2 52 * pow2 (ilog2 x - 52))%Q).
  { rewrite <- pow2_add. replace (52 + (ilog2 x - 52)) with (ilog2 x) by lia.
    reflexivity. }
  assert (E2 : (pow2 (ilog2 x + 1) == pow2 53 * pow2 (ilog2 x - 52))%Q).
  { rewrite <- pow2_add.
    replace (53 + (ilog2 x - 52)) with (ilog2 x + 1) by lia. reflexivity. }
  rewrite E1, E2, !pow2_nonneg_Z by lia.
  rewrite Zle_Qle in H1, H2.
  split; apply Qmult_le_compat_r; first [assumption | lra].
Qed.

Lemma nearest_pos (x : Q) : (0 < x)%Q -> (0 < nearest x)%Q.
Proof.
  intros Hx. destruct (nearest_bounds x Hx) as [H _].
  pose proof (pow2_pos (ilog2 x)). lra.
Qed.

Lemma nearest_mono (x y : Q) :
  (0 < x)%Q -> (x <= y)%Q -> (nearest x <= nearest y)%Q.
Proof.
  intros Hx Hxy.
  pose proof (ilog2_mono x y Hx Hxy) as Hl.
  destruct (Z.eq_dec (ilog2 x) (ilog2 y)) as [E | E].
  - unfold nearest. rewrite E.
    pose proof (pow2_pos (ilog2 y - 52)) as He.
    apply Qmult_le_compat_r; [| lra].
    rewrite <- Zle_Qle. apply rne_mono.
    apply Qmult_le_compat_r; [exact Hxy |].
    apply Qlt_le_weak, Qinv_lt_0_compat, He.
  - destruct (nearest_bounds x Hx) as [_ H1].
    destruct (nearest_bounds y) as [H2 _]; [lra |].
    assert (pow2 (ilog2 x + 1) <= pow2 (ilog2 y))%Q
      by (apply pow2_le; lia).
    lra.
Qed.

Lemma double_sign (x : Q) :
  ((x == 0)%Q /\ double x = 0%Q)
  \/ ((0 < x)%Q /\ double x = nearest x)
  \/ ((x < 0)%Q /\ double x = (- nearest (- x))%Q).
Proof.
  unfold double. destruct x as [[| p | p] d]; simpl.
  - left. split; reflexivity.
  - right. left. split; reflexivity.
  - right. right. split; reflexivity.
Qed.

(** Rounding keeps the order. *)
Lemma double_mono (x y : Q) : (x <= y)%Q -> (double x <= double y)%Q.
Proof.
  intros H.
  destruct (double_sign x) as [[Hx ->] | [[Hx ->] | [Hx ->]]];
    destruct (double_sign y) as [[Hy ->] | [[Hy ->] | [Hy ->]]];
    try lra.
  - pose proof (nearest_pos y Hy). lra.
  - apply nearest_mono; assumption.
  - assert (0 < nearest (- x))%Q by (apply nearest_pos; lra). lra.
  - assert (0 < nearest (- x))%Q by (apply nearest_pos; lra).
    pose proof (nearest_pos y Hy). lra.
  - assert (nearest (- y) <= nearest (- x))%Q
      by (apply nearest_mono; lra).
    lra.
Qed.

Lemma double_eq (x y : Q) : (x == y)%Q -> (double x == double y)%Q.
Proof.
  intros H. apply Qle_antisym; apply double_mono; lra.
Qed.

#[global] Instance double_proper : Proper (Qeq ==> Qeq) double.
Proof. intros x y H. apply double_eq, H. Qed.

Lemma double_opp (x : Q) : (double (- x) == - double x)%Q.
Proof.
  destruct (double_sign x) as [[Hx ->] | [[Hx ->] | [Hx ->]]];
    destruct (double_sign (- x)) as [[Hy ->] | [[Hy ->] | [Hy ->]]];
    try lra.
  - assert (E : (- - x == x)%Q) by ring.
    assert (nearest (- - x) == nearest x)%Q.
    { pose proof (double_eq _ _ E) as HE.
      destruct (double_sign (- - x)) as [[H1 H2] | [[H1 H2] | [H1 H2]]];
        destruct (double_sign x) as [[H3 H4] | [[H3 H4] | [H3 H4]]];
        try lra.
      rewrite H2, H4 in HE. exact HE. }
    lra.
Qed.

Lemma double_pos (x : Q) : (0 < x)%Q -> (0 < double x)%Q.
Proof.
  intros Hx.
  destruct (double_sign x) as [[H ->] | [[H ->] | [H ->]]]; try lra.
  apply nearest_pos, Hx.
Qed.

Lemma double_nonneg (x : Q) : (0 <= x)%Q -> (0 <= double x)%Q.
Proof. intros H. apply (double_mono 0 x H). Qed.

(** A positive number rounds to at most twice itself. *)
Lemma double_le_twice (x : Q) : (0 < x)%Q -> (double x <= 2 * x)%Q.
Proof.
  intros Hx.
  destruct (double_sign x) as [[H ->] | [[H ->] | [H ->]]]; try lra.
  destruct (nearest_bounds x Hx) as [_ H1].
  destruct (ilog2_spec x Hx) as [H2 _].
  rewrite pow2_succ in H1. lra.
Qed.

(** A number with a significand of at most 53 bits is a double. *)
Lemma nearest_representable (m k : Z) :
  0 < m < 2 ^ 53 ->
  (nearest (inject_Z m * pow2 k) == inject_Z m * pow2 k)%Q.
Proof.
  intros [Hm0 Hm].
  set (x := (inject_Z m * pow2 k)%Q).
  pose proof (pow2_pos k) as Hk.
  assert (Hx : (0 < x)%Q).
  { unfold x. apply Qmult_lt_0_compat; [| exact Hk].
    replace 0%Q with (inject_Z 0) by reflexivity.
    rewrite <- Zlt_Qlt. exact Hm0. }
  destruct (ilog2_spec x Hx) as [H1 _].
  assert (Hlt : (x < pow2 (53 + k))%Q).
  { unfold x. rewrite pow2_add, (pow2_nonneg_Z 53) by lia.
    apply Qmult_lt_compat_r; [exact Hk |]. rewrite <- Zlt_Qlt. exact Hm. }
  assert (He : ilog2 x - 52 <= k).
  { assert (ilog2 x < 53 + k) by (apply pow2_lt_inv; lra). lia. }
  unfold nearest. set (e := ilog2 x - 52) in *.
  pose proof (pow2_pos e) as Hpe.
  assert (Ek : (pow2 k == pow2 (k - e) * pow2 e)%Q).
  { rewrite <- pow2_add. replace (k - e + e) with k by lia. reflexivity. }
  assert (Es : (x / pow2 e == inject_Z (m * 2 ^ (k - e)))%Q).
  { unfold x. rewrite Ek, inject_Z_mult, <- pow2_nonneg_Z by lia.
    field. lra. }
  rewrite (rne_eq _ _ Es).
  unfold x. rewrite Ek.
  rewrite inject_Z_mult, <- pow2_nonneg_Z by lia. ring.
Qed.

(** An integer below [2 ^ 53] in magnitude is a double. *)
Lemma double_Z (z : Z) :
  Z.abs z < 2 ^ 53 -> (double (inject_Z z) == inject_Z z)%Q.
Proof.
  intros Hz.
  assert (P0 : (pow2 0 == 1)%Q) by reflexivity.
  destruct (double_sign (inject_Z z)) as [[H ->] | [[H ->] | [H ->]]].
  - lra.
  - replace 0%Q with (inject_Z 0) in H by reflexivity.
    rewrite <- Zlt_Qlt in H.
    pose proof (nearest_representable z 0) as E.
    assert (Ez : (inject_Z z * pow2 0 == inject_Z z)%Q) by (rewrite P0; ring).
    assert (Hn : (nearest (inject_Z z * pow2 0) == nearest (inject_Z z))%Q).
    { pose proof (double_eq _ _ Ez) as HE.
      destruct (double_sign (inject_Z z * pow2 0))
        as [[H1 H2] | [[H1 H2] | [H1 H2]]];
        destruct (double_sign (inject_Z z))
        as [[H3 H4] | [[H3 H4] | [H3 H4]]];
        try (rewrite Ez in H1); try (rewrite <- Zlt_Qlt in H3);
        try (replace 0%Q with (inject_Z 0) in * by reflexivity);
        try (rewrite <- ?Zlt_Qlt, ?inject_Z_injective in *; lia).
      rewrite H2, H4 in HE. exact HE. }
    rewrite <- Hn, E by lia. exact Ez.
  - replace 0%Q with (inject_Z 0) in H by reflexivity.
    rewrite <- Zlt_Qlt in H.
    pose proof (nearest_representable (- z) 0) as E.
    assert (Ez : (inject_Z (- z) * pow2 0 == - inject_Z z)%Q).
    { rewrite P0, inject_Z_opp. ring. }
    assert (Hn : (nearest (inject_Z (- z) * pow2 0)
                  == nearest (- inject_Z z))%Q).
    { pose proof (double_eq _ _ Ez) as HE.
      assert (Hp : (0 < - inject_Z z)%Q).
      { rewrite <- inject_Z_opp.
        replace 0%Q with (inject_Z 0) by reflexivity.
        rewrite <- Zlt_Qlt. lia. }
      destruct (double_sign (inject_Z (- z) * pow2 0))
        as [[H1 H2] | [[H1 H2] | [H1 H2]]];
        destruct (double_sign (- inject_Z z))
        as [[H3 H4] | [[H3 H4] | [H3 H4]]];
        try (rewrite Ez in H1); try lra.
      rewrite H2, H4 in HE. exact HE. }
    rewrite <- Hn, E by lia. rewrite Ez. ring.
Qed.


Lemma double_representable (m k : Z) :
  Z.abs m < 2 ^ 53 ->
  (double (inject_Z m * pow2 k) == inject_Z m * pow2 k)%Q.
Proof.
  intros Hm. pose proof (pow2_pos k) as Hk.
  destruct (Z.lt_trichotomy m 0) as [Hneg | [-> | Hpos]].
  - assert (E : (inject_Z m * pow2 k == - (inject_Z (- m) * pow2 k))%Q)
      by (rewrite inject_Z_opp; ring).
    rewrite (double_eq _ _ E), double_opp.
    assert (Hp : (0 < inject_Z (- m) * pow2 k)%Q).
    { apply Qmult_lt_0_compat; [| exact Hk].
      replace 0%Q with (inject_Z 0) by reflexivity.
      rewrite <- Zlt_Qlt. lia. }
    destruct (double_sign (inject_Z (- m) * pow2 k))
      as [[H ->] | [[H ->] | [H ->]]]; try lra.
    rewrite nearest_representable by lia. rewrite inject_Z_opp. ring.
  - assert (E : (inject_Z 0 * pow2 k == 0)%Q) by ring.
    rewrite (double_eq _ _ E). rewrite E. reflexivity.
  - assert (Hp : (0 < inject_Z m * pow2 k)%Q).
    { apply Qmult_lt_0_compat; [| exact Hk].
      replace 0%Q with (inject_Z 0) by reflexivity.
      rewrite <- Zlt_Qlt. lia. }
    destruct (double_sign (inject_Z m * pow2 k))
      as [[H ->] | [[H ->] | [H ->]]]; try lra.
    apply nearest_representable. lia.
Qed.

Lemma nearest_idem (x : Q) : (0 < x)%Q -> (double (nearest x) == nearest x)%Q.
Proof.
  intros Hx. destruct (scaled_range x Hx) as [H1 H2].
  apply rne_lower in H1. apply rne_upper in H2.
  unfold nearest. set (e := ilog2 x - 52) in *.
  set (m := rne (x / pow2 e)) in *.
  destruct (Z.eq_dec m (2 ^ 53)) as [E | E].
  - rewrite E.
    assert (E2 : (inject_Z (2 ^ 53) * pow2 e
                  == inject_Z (2 ^ 52) * pow2 (e + 1))%Q).
    { rewrite pow2_succ.
      replace (2 ^ 53) with (2 * 2 ^ 52) by reflexivity.
      rewrite inject_Z_mult. ring. }
    rewrite (double_eq _ _ E2), E2.
    apply double_representable. reflexivity.
  - apply double_representable. clearbody m.
    change (2 ^ 53) with 9007199254740992 in *.
    change (2 ^ 52) with 4503599627370496 in *. lia.
Qed.

(** A double rounds to itself. *)
Lemma double_idem (x : Q) : (double (double x) == double x)%Q.
Proof.
  destruct (double_sign x) as [[H ->] | [[H ->] | [H ->]]].
  - reflexivity.
  - apply nearest_idem, H.
  - rewrite double_opp. rewrite nearest_idem by lra. reflexivity.
Qed.

End NumberFacts.

(** ** The circuit breaker *)
Section CircuitBreakerFacts.

Import CircuitBreaker.

Lemma trip_state reason now b : state (trip reason now b) = OPEN.
Proof.
  unfold trip. destruct (state b) eqn:E; simpl; try reflexivity.
  exact E.
Qed.

Lemma trip_open reason now b : state b = OPEN -> trip reason now b = b.
Proof. intros E. unfold trip. rewrite E. reflexivity. Qed.

(** [evaluateCircuit] either leaves the state alone or opens the
    breaker. *)
Lemma evaluateCircuit_state now b :
  state (evaluateCircuit now b) = state b
  \/ state (evaluateCircuit now b) = OPEN.
Proof.
  unfold evaluateCircuit.
  repeat case_match; rewrite ?trip_state; auto.
Qed.

Lemma evaluateCircuit_trips now b :
  (maxConsecutiveFailures b <= Z.of_nat (consecutiveFailures b))%Z ->
  state (evaluateCircuit now b) = OPEN.
Proof.
  intros H. unfold evaluateCircuit. simpl.
  apply Z.leb_le in H. rewrite H. apply trip_state.
Qed.

Lemma evaluateCircuit_timers_open now b :
  state b = OPEN -> timers (evaluateCircuit now b) = timers b.
Proof.
  intros E. unfold evaluateCircuit.
  repeat case_match; rewrite ?trip_open; auto.
Qed.

Lemma evaluateCircuit_fixed now b :
  consecutiveFailures (evaluateCircuit now b) = consecutiveFailures b
  /\ maxConsecutiveFailures (evaluateCircuit now b)
     = maxConsecutiveFailures b.
Proof.
  unfold evaluateCircuit, trip.
  repeat case_match; simpl; auto.
Qed.

Lemma recordFailure_consecutive now s b :
  consecutiveFailures (recordFailure now s b) = S (consecutiveFailures b).
Proof.
  unfold recordFailure.
  rewrite (proj1 (evaluateCircuit_fixed _ _)). reflexivity.
Qed.

Lemma recordFailure_max now s b :
  maxConsecutiveFailures (recordFailure now s b)
  = maxConsecutiveFailures b.
Proof.
  unfold recordFailure.
  rewrite (proj2 (evaluateCircuit_fixed _ _)). reflexivity.
Qed.

Lemma recordFailure_trips now s b :
  (maxConsecutiveFailures b <= Z.of_nat (S (consecutiveFailures b)))%Z ->
  state (recordFailure now s b) = OPEN.
Proof.
  intros H. unfold recordFailure. apply evaluateCircuit_trips. exact H.
Qed.

Lemma recordFailure_open now s b :
  state b = OPEN ->
  state (recordFailure now s b) = OPEN
  /\ timers (recordFailure now s b) = timers b.
Proof.
  intros E. unfold recordFailure. split.
  - destruct (evaluateCircuit_state now
      {| state := state b; failures := S (failures b);
         consecutiveFailures := S (consecutiveFailures b);
         lastFailureTime := Some now;
         hourlyFailures :=
           hourlyFailures b ++ [{| timestamp := now; strategy := s |}];
         strategyFailures :=
           match s with
           | Some s0 =>
               if truthy_str s
               then <[s0 := S (default 0%nat (strategyFailures b !! s0))]>
                      (strategyFailures b)
               else strategyFailures b
           | None => strategyFailures b
           end;
         maxFailuresPerHour := maxFailuresPerHour b;
         maxConsecutiveFailures := maxConsecutiveFailures b;
         cooldownMinutes := cooldownMinutes b;
         strategyDisableThreshold := strategyDisableThreshold b;
         timers := timers b; emitted := emitted b |}) as [H | H];
      rewrite H; simpl; auto.
  - rewrite evaluateCircuit_timers_open; auto.
Qed.

Lemma recordFailures_snoc fs f b :
  recordFailures (fs ++ [f]) b
  = recordFailure (fst f) (snd f) (recordFailures fs b).
Proof. unfold recordFailures. rewrite fold_left_app. reflexivity. Qed.

Lemma recordFailures_counts fs b :
  consecutiveFailures (recordFailures fs b)
  = (consecutiveFailures b + length fs)%nat
  /\ maxConsecutiveFailures (recordFailures fs b)
     = maxConsecutiveFailures b.
Proof.
  induction fs as [| f fs IH] using rev_ind.
  - simpl. split; [lia | reflexivity].
  - rewrite recordFailures_snoc, recordFailure_consecutive,
      recordFailure_max, length_app. simpl.
    destruct IH as [-> ->]. split; [lia | reflexivity].
Qed.

(** Enough failures in a row open the breaker, whatever its state. *)
Lemma recordFailures_open fs b :
  fs <> [] ->
  (maxConsecutiveFailures b
   <= Z.of_nat (consecutiveFailures b + length fs))%Z ->
  state (recordFailures fs b) = OPEN.
Proof.
  destruct fs as [| f fs] using rev_ind; [congruence |].
  intros _ H. rewrite recordFailures_snoc.
  apply recordFailure_trips.
  destruct (recordFailures_counts fs b) as [-> ->].
  rewrite length_app in H. simpl in H. lia.
Qed.

Lemma recordSuccess_half_open now b :
  state b = HALF_OPEN ->
  state (recordSuccess now b) = CLOSED
  /\ consecutiveFailures (recordSuccess now b) = 0%nat.
Proof.
  intros E. unfold recordSuccess. simpl. rewrite E. simpl. auto.
Qed.

Lemma fire_timer_fixed now b :
  consecutiveFailures (fire_timer now b) = consecutiveFailures b
  /\ maxConsecutiveFailures (fire_timer now b) = maxConsecutiveFailures b.
Proof.
  unfold fire_timer, attemptRecovery.
  repeat case_match; simpl; auto.
Qed.

Lemma run_counts acts b :
  consecutiveFailures (run acts b)
  = (consecutiveFailures b + length (List.filter is_fail acts))%nat
  /\ maxConsecutiveFailures (run acts b) = maxConsecutiveFailures b.
Proof.
  revert b. induction acts as [| a acts IH]; intros b; simpl.
  - split; [lia | reflexivity].
  - destruct (IH (step b a)) as [H1 H2]. unfold run in *.
    rewrite H1, H2. destruct a as [now s | now]; simpl.
    + rewrite recordFailure_consecutive, recordFailure_max.
      split; [lia | reflexivity].
    + destruct (fire_timer_fixed now b) as [-> ->].
      split; [lia | reflexivity].
Qed.

(** Recoveries that run in between do not change the count: the fifth
    failure without a success opens the breaker. *)
Lemma fifth_failure_opens acts now s b :
  maxConsecutiveFailures b = 5 ->
  (4 <= length (List.filter is_fail acts))%nat ->
  state (recordFailure now s (run acts b)) = OPEN.
Proof.
  intros Hmax Hn. apply recordFailure_trips.
  destruct (run_counts acts b) as [-> ->]. lia.
Qed.

End CircuitBreakerFacts.

(** C3.  The breaker is the three-state machine of the specification.
    With [maxConsecutiveFailures = 5], five calls of [recordFailure] in a
    row take a closed breaker to [OPEN]; [recordSuccess] on a half-open
    breaker closes it and sets [consecutiveFailures] to [0]; and
    [recordFailure] on an open breaker leaves it open and schedules no new
    recovery, so the cool-down that is running is not restarted. *)
Theorem circuit_breaker_state_machine :
  (forall (b : CircuitBreaker.t) (fs : list (Z * option string)),
      CircuitBreaker.state b = CircuitBreaker.CLOSED ->
      CircuitBreaker.maxConsecutiveFailures b = 5 ->
      length fs = 5%nat ->
      CircuitBreaker.state (CircuitBreaker.recordFailures fs b)
      = CircuitBreaker.OPEN)
  /\ (forall (b : CircuitBreaker.t) (now : Z),
         CircuitBreaker.state b = CircuitBreaker.HALF_OPEN ->
         CircuitBreaker.state (CircuitBreaker.recordSuccess now b)
         = CircuitBreaker.CLOSED
         /\ CircuitBreaker.consecutiveFailures
              (CircuitBreaker.recordSuccess now b) = 0%nat)
  /\ (forall (b : CircuitBreaker.t) (now : Z) (s : option string),
         CircuitBreaker.state b = CircuitBreaker.OPEN ->
         CircuitBreaker.state (CircuitBreaker.recordFailure now s b)
         = CircuitBreaker.OPEN
         /\ CircuitBreaker.timers (CircuitBreaker.recordFailure now s b)
            = CircuitBreaker.timers b).
Proof.
  split; [| split].
  - intros b fs _ Hmax Hlen. apply recordFailures_open.
    + destruct fs; [discriminate | congruence].
    + rewrite Hmax, Hlen. lia.
  - intros b now. apply recordSuccess_half_open.
  - intros b now s E. apply recordFailure_open. exact E.
Qed.

Example breaker_stays_closed_for_four :
  CircuitBreaker.state
    (CircuitBreaker.recordFailures (take 4 Scenario.five_failures)
                                   Scenario.breaker)
  = CircuitBreaker.CLOSED.
Proof. reflexivity. Qed.

Example breaker_recovers_after_cooldown :
  CircuitBreaker.state Scenario.half_open_breaker = CircuitBreaker.HALF_OPEN
  /\ CircuitBreaker.timers Scenario.open_breaker = [5000 + 30 * 60 * 1000].
Proof. split; reflexivity. Qed.

Lemma circuit_breaker_state_machine_witness :
  CircuitBreaker.state Scenario.open_breaker = CircuitBreaker.OPEN
  /\ (CircuitBreaker.state
        (CircuitBreaker.recordSuccess 1900000 Scenario.half_open_breaker)
      = CircuitBreaker.CLOSED
      /\ CircuitBreaker.consecutiveFailures
           (CircuitBreaker.recordSuccess 1900000 Scenario.half_open_breaker)
         = 0%nat)
  /\ (CircuitBreaker.state
        (CircuitBreaker.recordFailure 6000 None Scenario.open_breaker)
      = CircuitBreaker.OPEN
      /\ CircuitBreaker.timers
           (CircuitBreaker.recordFailure 6000 None Scenario.open_breaker)
         = CircuitBreaker.timers Scenario.open_breaker).
Proof.
  destruct circuit_breaker_state_machine as (H1 & H2 & H3).
  split; [| split].
  - apply (H1 Scenario.breaker Scenario.five_failures); reflexivity.
  - apply (H2 Scenario.half_open_breaker 1900000); reflexivity.
  - apply (H3 Scenario.open_breaker 6000 None); reflexivity.
Defined.

(** ** The risk manager *)

Example arbitrage_assessment :
  let a :=
    snd (RiskManager.assessOpportunity Scenario.sizer Scenario.today
           Scenario.now Scenario.arbitrage Scenario.riskManager) in
  RiskManager.approved a = true
  /\ RiskManager.assessment_reason a = None
  /\ Number.same (RiskManager.assessment_score a)
                 (Number.Num (2560870376347929 # 4503599627370496)).
Proof. vm_compute. repeat split. Qed.

Section RiskManagerFacts.

Import RiskManager.

Lemma Qlt_bool_iff (a b : Q) : Qlt_bool a b = true <-> (a < b)%Q.
Proof.
  unfold Qlt_bool. rewrite negb_true_iff.
  split.
  - intros H. apply Qnot_le_lt. intros Hle.
    apply Qle_bool_iff in Hle. congruence.
  - intros H. destruct (Qle_bool b a) eqn:E; [| reflexivity].
    apply Qle_bool_iff in E. exfalso. exact (Qlt_not_le _ _ H E).
Qed.


Lemma set_dailyStats_cfg d r : cfg (set_dailyStats d r) = cfg r.
Proof. reflexivity. Qed.

Lemma checkDailyReset_cfg today r : cfg (checkDailyReset today r) = cfg r.
Proof. unfold checkDailyReset. case_match; reflexivity. Qed.

Lemma updateTradeResult_failed res r :
  success res = false -> updateTradeResult res r = r.
Proof. intros E. unfold updateTradeResult. rewrite E. reflexivity. Qed.

Lemma updateTradeResults_failed (rs : list tradeResult) (r : t) :
  Forall (fun res => success res = false) rs ->
  fold_left (fun r res => updateTradeResult res r) rs r = r.
Proof.
  intros H. revert r.
  induction H as [| res rs E _ IH]; intros r; simpl.
  - reflexivity.
  - rewrite (updateTradeResult_failed _ _ E). apply IH.
Qed.

End RiskManagerFacts.

(** C10.  A trade result with [success = false] leaves the risk manager,
    and so [dailyStats] with every field of it, as it was; whatever number
    of failed results comes in, [checkDailyLossLimit] answers as before.
    Only a successful result is accumulated: a positive profit into
    [totalProfit], any other into [totalLoss]. *)
Theorem failed_trades_leave_dailyStats :
  (forall (res : RiskManager.tradeResult) (r : RiskManager.t),
      RiskManager.success res = false ->
      RiskManager.updateTradeResult res r = r)
  /\ (forall (rs : list RiskManager.tradeResult) (r : RiskManager.t),
         Forall (fun res => RiskManager.success res = false) rs ->
         RiskManager.checkDailyLossLimit
           (fold_left (fun r res => RiskManager.updateTradeResult res r) rs r)
         = RiskManager.checkDailyLossLimit r)
  /\ (forall (res : RiskManager.tradeResult) (r : RiskManager.t),
         RiskManager.success res = true ->
         let d := RiskManager.dailyStats r in
         let d' :=
           RiskManager.dailyStats (RiskManager.updateTradeResult res r) in
         if Z.ltb 0 (RiskManager.profit res)
         then RiskManager.totalProfit d'
              = RiskManager.totalProfit d + RiskManager.profit res
              /\ RiskManager.totalLoss d' = RiskManager.totalLoss d
         else RiskManager.totalLoss d'
              = RiskManager.totalLoss d + Z.abs (RiskManager.profit res)
              /\ RiskManager.totalProfit d' = RiskManager.totalProfit d).
Proof.
  split; [| split].
  - apply updateTradeResult_failed.
  - intros rs r H. rewrite updateTradeResults_failed; auto.
  - intros res r E. unfold RiskManager.updateTradeResult. rewrite E.
    destruct (Z.ltb 0 (RiskManager.profit res)); simpl; auto.
Qed.

Lemma failed_trades_leave_dailyStats_witness :
  let failed :=
    {| RiskManager.success := false; RiskManager.profit := - (10 ^ 16) |} in
  let won :=
    {| RiskManager.success := true; RiskManager.profit := 10 ^ 16 |} in
  RiskManager.updateTradeResult failed Scenario.riskManager
  = Scenario.riskManager
  /\ RiskManager.checkDailyLossLimit
       (fold_left (fun r res => RiskManager.updateTradeResult res r)
                  [failed; failed] Scenario.riskManager)
     = RiskManager.checkDailyLossLimit Scenario.riskManager
  /\ RiskManager.totalProfit
       (RiskManager.dailyStats
          (RiskManager.updateTradeResult won Scenario.riskManager))
     = 10 ^ 16.
Proof.
  destruct failed_trades_leave_dailyStats as (H1 & H2 & H3).
  split; [| split].
  - apply H1. reflexivity.
  - apply H2. repeat constructor.
  - exact (proj1 (H3 {| RiskManager.success := true;
                        RiskManager.profit := 10 ^ 16 |}
                     Scenario.riskManager eq_refl)).
Defined.



(** Without a ceiling in the object that the constructor receives, the
    comparison is with [undefined] and nothing is approved. *)
Lemma no_ceiling_no_approval :
  forall (calculatePositionSize : Opportunity.t -> Number.t -> Z)
         (today : string) (now : Z) (o : Opportunity.t) (r : RiskManager.t),
    RiskManager.maxRiskScore (RiskManager.cfg r) = None ->
    RiskManager.approved
      (snd (RiskManager.assessOpportunity calculatePositionSize
              today now o r)) = false.
Proof.
  intros sizer today now o r H.
  unfold RiskManager.assessOpportunity.
  destruct (RiskManager.run_checks _ o); simpl; [| reflexivity].
  rewrite checkDailyReset_cfg, H. simpl. apply andb_false_r.
Qed.

(** A limit of zero makes a ratio [0 / 0]: with [maxPositionETH] set to
    ['0'] and an opportunity without an amount every check passes, the
    score is [NaN], and the opportunity is rejected under the ceiling 7. *)
Lemma nan_score_is_rejected :
  let r := RiskManager.new Scenario.zero_position_limit Scenario.today in
  let o := Opportunity.with_amount None Scenario.arbitrage in
  let a :=
    snd (RiskManager.assessOpportunity Scenario.sizer Scenario.today
           Scenario.now o r) in
  (exists checks : list RiskManager.check,
      RiskManager.run_checks r o = Ok checks
      /\ forallb RiskManager.passed checks = true
      /\ RiskManager.calculateRiskScore checks = Number.NaN)
  /\ RiskManager.approved a = false
  /\ RiskManager.assessment_score a = Number.NaN.
Proof.
  cbv zeta. split.
  - eexists. split; [vm_compute; reflexivity |].
    split; vm_compute; reflexivity.
  - split; vm_compute; reflexivity.
Qed.

Section AdmissionFacts.

Import RiskManager.

Lemma run_checks_expiresAt r o e :
  run_checks r (Opportunity.with_expiresAt e o) = run_checks r o.
Proof. reflexivity. Qed.

Lemma checkProfitRatio_reason r o c :
  checkProfitRatio r o = Ok c -> reason c <> Some "expired".
Proof.
  unfold checkProfitRatio. intros E.
  repeat case_match; simplify_eq; simpl; try discriminate;
    case_match; discriminate.
Qed.

Lemma checkLiquidity_reason r o c :
  checkLiquidity r o = Ok c -> reason c <> Some "expired".
Proof.
  unfold checkLiquidity. intros E.
  repeat case_match; simplify_eq; simpl; try discriminate;
    case_match; discriminate.
Qed.

Lemma run_checks_reason r o cs c :
  run_checks r o = Ok cs -> In c cs -> reason c <> Some "expired".
Proof.
  unfold run_checks. intros E Hin.
  destruct (checkProfitRatio r o) as [pr |] eqn:Epr; [| discriminate].
  destruct (checkLiquidity r o) as [lq |] eqn:Elq; [| discriminate].
  injection E as <-. simpl in Hin.
  destruct Hin as [<- | [<- | [<- | [<- | [<- | [<- | [<- | [<- | []]]]]]]]].
  - unfold checkDailyLossLimit; simpl. case_match; discriminate.
  - unfold checkPositionSize; simpl. case_match; discriminate.
  - unfold checkGasPrice; simpl. case_match; discriminate.
  - eapply checkProfitRatio_reason; eauto.
  - unfold checkTokenRisk. case_match. simpl. case_match; discriminate.
  - unfold checkDexRisk. case_match. simpl. case_match; discriminate.
  - unfold checkSlippage; simpl. case_match; discriminate.
  - eapply checkLiquidity_reason; eauto.
Qed.

End AdmissionFacts.

(** C1, as the code has it.  Admission reads neither [expiresAt] nor the
    millisecond clock: whatever [expiresAt] an opportunity carries and
    whenever it is assessed within the day, [assessOpportunity] comes to
    the same approval and gives the same reason, and that reason is never
    ['expired'].  [handleOpportunity] in turn does with an opportunity
    exactly what it does with the same opportunity under any other
    [expiresAt]. *)
Theorem admission_ignores_expiry :
  (forall (calculatePositionSize : Opportunity.t -> Number.t -> Z)
          (today : string) (now now' : Z) (e : option Z)
          (o : Opportunity.t) (r : RiskManager.t),
      let a :=
        snd (RiskManager.assessOpportunity calculatePositionSize
               today now o r) in
      let a' :=
        snd (RiskManager.assessOpportunity calculatePositionSize
               today now' (Opportunity.with_expiresAt e o) r) in
      RiskManager.approved a' = RiskManager.approved a
      /\ RiskManager.assessment_reason a' = RiskManager.assessment_reason a
      /\ RiskManager.assessment_reason a <> Some "expired")
  /\ (forall (wallets : list Executor.wallet)
             (strategies : gmap string Executor.strategyConfig)
             (botGasPrice : Z) (getTransactionCount : string -> Z)
             (simulateTransaction :
                Executor.built -> result Executor.simulationRaw)
             (outcome : Executor.chainOutcome)
             (standard : Executor.txOutcome)
             (profitCalculator :
                string -> option (Executor.profitView -> option Z))
             (encodeLiquidation :
                option string -> option string -> option Z -> string)
             (calculatePositionSize : Opportunity.t -> Number.t -> Z)
             (db_ok : MEVBot.dbWrite -> bool)
             (today : string) (now : Z) (e : option Z)
             (o : Opportunity.t) (strategyName : string) (b : MEVBot.t),
         MEVBot.handleOpportunity wallets strategies botGasPrice
           getTransactionCount simulateTransaction outcome standard
           profitCalculator
           encodeLiquidation calculatePositionSize db_ok today now
           (Opportunity.with_expiresAt e o) strategyName b
         = MEVBot.handleOpportunity wallets strategies botGasPrice
             getTransactionCount simulateTransaction outcome standard
             profitCalculator
             encodeLiquidation calculatePositionSize db_ok today now
             o strategyName b).
Proof.
  split.
  - intros sizer today now now' e o r. simpl.
    unfold RiskManager.assessOpportunity.
    rewrite run_checks_expiresAt.
    destruct (RiskManager.run_checks _ o) as [cs | msg] eqn:E; simpl.
    + split; [reflexivity | split; [reflexivity |]].
      case_match; [discriminate |].
      destruct (List.filter _ cs) as [| c rest] eqn:F; [discriminate |].
      eapply run_checks_reason; [exact E |].
      assert (Hin : In c (List.filter
                            (fun c => negb (RiskManager.passed c)) cs))
        by (rewrite F; left; reflexivity).
      apply filter_In in Hin. tauto.
    + split; [reflexivity | split; [reflexivity | discriminate]].
  - intros. unfold MEVBot.handleOpportunity, RiskManager.assessOpportunity.
    destruct (CircuitBreaker.isTripped _); [reflexivity |].
    rewrite run_checks_expiresAt.
    destruct (RiskManager.run_checks _ o) as [cs | msg]; [| reflexivity].
    cbv zeta.
    destruct (_ && _)%bool; reflexivity.
Qed.

(** C1, as the specification has it, fails: an arbitrage that expired a
    second before the admission check is approved, no reason is given, and
    the bot goes on to execute it; the transaction is signed and sent. *)
Lemma expired_opportunity_is_admitted :
  let a :=
    snd (RiskManager.assessOpportunity Scenario.sizer Scenario.today
           Scenario.now Scenario.arbitrage Scenario.riskManager) in
  let run :=
    MEVBot.handleOpportunity Scenario.wallets Scenario.strategies
      Scenario.botGasPrice Scenario.getTransactionCount
      Scenario.simulateTransaction Scenario.included Scenario.mined
      Scenario.profitCalculator Scenario.encodeLiquidation Scenario.sizer
      Scenario.db_ok
      Scenario.today Scenario.now Scenario.arbitrage "arbitrage"
      Scenario.bot in
  (exists e : Z,
      Opportunity.expiresAt Scenario.arbitrage = Some e /\ e < Scenario.now)
  /\ RiskManager.approved a = true
  /\ RiskManager.assessment_reason a = None
  /\ snd (fst run)
     = [MEVBot.AssessOpportunity; MEVBot.Execute;
        MEVBot.RecordSuccessfulTrade; MEVBot.MetricsRecordTrade true]
  /\ snd run
     = [Executor.Signed Scenario.arbitrage_tx;
        Executor.Sent Scenario.arbitrage_tx].
Proof.
  split.
  - exists (Scenario.now - 1000). split; [reflexivity | reflexivity].
  - vm_compute. repeat split.
Qed.

(** ** The composite score *)
Section ScoreFacts.

Import RiskManager.

Lemma double_zero : (Number.double 0 == 0)%Q.
Proof. reflexivity. Qed.

Lemma double_five : (Number.double 5 == 5)%Q.
Proof. apply (double_Z 5). reflexivity. Qed.

Lemma double_ten : (Number.double 10 == 10)%Q.
Proof. apply (double_Z 10). reflexivity. Qed.

Lemma double_one : (Number.double 1 == 1)%Q.
Proof. apply (double_Z 1). reflexivity. Qed.

Lemma Qeq_bool_pos (x : Q) : (0 < x)%Q -> Qeq_bool x 0 = false.
Proof.
  intros H. destruct (Qeq_bool x 0) eqn:E; [| reflexivity].
  apply Qeq_bool_iff in E. lra.
Qed.

Lemma Qle_bool_false (x y : Q) : Qle_bool x y = false <-> (y < x)%Q.
Proof.
  split.
  - intros H. apply Qnot_le_lt. intros Hle.
    apply Qle_bool_iff in Hle. congruence.
  - intros H. destruct (Qle_bool x y) eqn:E; [| reflexivity].
    apply Qle_bool_iff in E. lra.
Qed.

Lemma same_refl (a : Number.t) : Number.same a a.
Proof. destruct a; simpl; [reflexivity | exact I | exact I | exact I]. Qed.

Lemma not_above_refl (a : Number.t) : Number.not_above a a.
Proof. left. apply same_refl. Qed.

(** Adding the same number on both sides keeps the order. *)
Lemma add_not_above_l (a b p : Number.t) :
  Number.not_above a b ->
  Number.not_above (Number.add a p) (Number.add b p).
Proof.
  unfold Number.not_above.
  destruct a as [x | | |], b as [y | | |], p as [z | | |]; simpl;
    intros [H | H]; try contradiction; try (left; exact I).
  - left. apply double_eq. lra.
  - right. apply double_mono. lra.
Qed.

(** Adding more to the same number gives no less. *)
Lemma add_not_above_r (a : Number.t) (p q : Q) :
  (p <= q)%Q ->
  Number.not_above (Number.add a (Number.Num p))
                   (Number.add a (Number.Num q)).
Proof.
  intros H. unfold Number.not_above.
  destruct a as [x | | |]; simpl; try (left; exact I).
  right. apply double_mono. lra.
Qed.

(** Adding a number that is not negative to a double gives no less. *)
Lemma add_nonneg_not_above (a : Number.t) (p : Q) :
  Number.rounded a -> (0 <= p)%Q ->
  Number.not_above a (Number.add a (Number.Num p)).
Proof.
  intros Ha Hp. unfold Number.not_above.
  destruct a as [x | | |]; simpl in *; try (left; exact I).
  right. rewrite <- Ha at 1. apply double_mono. lra.
Qed.

(** Dividing both sides by the same positive number keeps the order. *)
Lemma div_not_above (a b : Number.t) (t : Q) :
  (0 < t)%Q ->
  Number.not_above a b ->
  Number.not_above (Number.div a (Number.Num t))
                   (Number.div b (Number.Num t)).
Proof.
  intros Ht. unfold Number.not_above.
  assert (Hi : (0 < / t)%Q) by (apply Qinv_lt_0_compat, Ht).
  destruct a as [x | | |], b as [y | | |]; simpl;
    rewrite ?(Qeq_bool_pos t Ht);
    intros [H | H]; try contradiction;
    try (left; destruct (Qle_bool 0 t); exact I).
  - left. apply double_eq. rewrite H. reflexivity.
  - right. apply double_mono. unfold Qdiv.
    apply Qmult_le_compat_r; lra.
Qed.

(** [Math.min] with the same bound keeps the order. *)
Lemma min_not_above (c : Q) (a b : Number.t) :
  Number.not_above a b ->
  Number.not_above (Number.min (Number.Num c) a)
                   (Number.min (Number.Num c) b).
Proof.
  unfold Number.not_above.
  destruct a as [x | | |], b as [y | | |]; simpl;
    intros [H | H]; try contradiction;
    try (left; first [exact I | reflexivity]).
  - destruct (Qle_bool c x) eqn:Ex; destruct (Qle_bool c y) eqn:Ey; simpl;
      try apply Qle_bool_iff in Ex; try apply Qle_bool_iff in Ey;
      try apply Qle_bool_false in Ex; try apply Qle_bool_false in Ey;
      try (left; lra); exfalso; lra.
  - destruct (Qle_bool c x) eqn:Ex; destruct (Qle_bool c y) eqn:Ey; simpl;
      try apply Qle_bool_iff in Ex; try apply Qle_bool_iff in Ey;
      try apply Qle_bool_false in Ex; try apply Qle_bool_false in Ey;
      try (right; lra); exfalso; lra.
Qed.

(** What is not above is not greater. *)
Lemma not_above_ltb (a b : Number.t) :
  Number.not_above a b -> Number.ltb b a = false.
Proof.
  unfold Number.not_above.
  destruct a as [x | | |], b as [y | | |]; simpl;
    intros [H | H]; try contradiction; try reflexivity;
    apply negb_false_iff, Qle_bool_iff; lra.
Qed.

Lemma add_rounded (a b : Number.t) :
  Number.rounded a -> Number.rounded (Number.add a b).
Proof.
  destruct a as [x | | |], b as [y | | |]; simpl; auto.
  intros _. apply double_idem.
Qed.

Lemma eff_weight_pos (c : check) :
  (0 < weight_of c)%Z ->
  exists w : Q, eff_weight c = Number.Num w /\ (0 < w)%Q
                /\ (Number.double w == w)%Q.
Proof.
  intros H. unfold eff_weight, Number.of_Z. eexists. split; [reflexivity |].
  split; [| apply double_idem].
  apply double_pos. replace 0%Q with (inject_Z 0) by reflexivity.
  rewrite <- Zlt_Qlt. exact H.
Qed.

Lemma eff_weight_set_passed (p : bool) (c : check) :
  eff_weight (set_passed p c) = eff_weight c.
Proof. reflexivity. Qed.

(** The ratio of a passed check that is within its limit is a finite
    number, at most 1. *)
Lemma ratio_within (v m : jsval) :
  (0 < jsnum m)%Q -> (jsnum v <= jsnum m)%Q ->
  exists ratio : Q,
    Number.div (parseFloat v) (parseFloat m) = Number.Num ratio
    /\ (ratio <= 1)%Q
    /\ ((0 <= jsnum v)%Q -> (0 <= ratio)%Q).
Proof.
  intros Hm Hv. unfold parseFloat, Number.lit. simpl.
  pose proof (double_pos _ Hm) as Hdm.
  pose proof (double_mono _ _ Hv) as Hdv.
  rewrite (Qeq_bool_pos _ Hdm).
  eexists. split; [reflexivity |].
  assert (Hi : (0 < / Number.double (jsnum m))%Q)
    by (apply Qinv_lt_0_compat, Hdm).
  split.
  - rewrite <- double_one. apply double_mono.
    apply Qle_shift_div_r; [exact Hdm | lra].
  - intros H0. pose proof (double_nonneg _ H0) as Hd0.
    rewrite <- double_zero. apply double_mono.
    apply Qle_shift_div_l; [exact Hdm | lra].
Qed.

(** What a failed check adds: ten times its weight. *)
Lemma penalty_failed (c : check) :
  penalty (set_passed false c)
  = Some (Number.mul (eff_weight c) (Number.of_Z 10)).
Proof. reflexivity. Qed.

(** What a passed check adds, if it adds anything, is a finite number,
    at most the rounded five times its weight. *)
Lemma penalty_passed (c : check) (w : Q) :
  eff_weight c = Number.Num w -> (0 < w)%Q -> (Number.double w == w)%Q ->
  passed c = true ->
  within_limit c ->
  penalty c = None
  \/ exists p : Q,
       penalty c = Some (Number.Num p)
       /\ (p <= Number.double (w * 5))%Q
       /\ (match value c, maxValue c with
           | Some v, Some _ => (0 <= jsnum v)%Q
           | _, _ => True
           end -> (0 <= p)%Q).
Proof.
  intros Ew Hw Hd Hp Hl. unfold penalty, within_limit in *.
  rewrite Hp, Ew. cbn [negb].
  destruct (value c) as [v |]; [| left; reflexivity].
  destruct (maxValue c) as [m |]; [| left; reflexivity].
  destruct (truthy (Some v) && truthy (Some m)); [| left; reflexivity].
  right. destruct Hl as [Hm Hv].
  destruct (ratio_within v m Hm Hv) as (ratio & -> & Hr1 & Hr0).
  unfold Number.of_Z. simpl. eexists. split; [reflexivity |].
  assert (Hwr : (Number.double (w * ratio) <= w)%Q).
  { rewrite <- Hd at 2. apply double_mono.
    assert (w * ratio <= w * 1)%Q by (apply Qmult_le_l; lra). lra. }
  change (inject_Z 5) with 5%Q. pose proof double_five as E5.
  split.
  - apply double_mono. rewrite E5. lra.
  - intros H0. specialize (Hr0 H0).
    assert (0 <= w * ratio)%Q by (apply Qmult_le_0_compat; lra).
    pose proof (double_nonneg _ H) as H1.
    rewrite <- double_zero. apply double_mono. rewrite E5. lra.
Qed.

(** The two accumulators of the loop: the running score is a double, and
    the running weight is positive once a check has been through. *)
Lemma fold_score_rounded (cs : list check) (acc : Number.t * Number.t) :
  Number.rounded (fst acc) ->
  Number.rounded (fst (fold_left score_step cs acc)).
Proof.
  revert acc. induction cs as [| c cs IH]; intros acc H; simpl; [exact H |].
  apply IH. unfold score_step. simpl.
  destruct (penalty c); [apply add_rounded |]; exact H.
Qed.

Lemma fold_weight_pos (cs : list check) (acc : Number.t * Number.t)
      (t0 : Q) :
  Forall (fun c => (0 < weight_of c)%Z) cs ->
  snd acc = Number.Num t0 -> (0 <= t0)%Q ->
  exists t : Q,
    snd (fold_left score_step cs acc) = Number.Num t
    /\ (0 <= t)%Q
    /\ (cs <> [] -> (0 < t)%Q).
Proof.
  intros Hw. revert acc t0.
  induction Hw as [| c cs Hc _ IH]; intros acc t0 E H0; simpl.
  - exists t0. split; [exact E |]. split; [exact H0 | congruence].
  - destruct (eff_weight_pos c Hc) as (w & Ew & Hw0 & _).
    assert (Hs : (0 < Number.double (t0 + w))%Q)
      by (apply double_pos; lra).
    destruct (IH (score_step acc c) (Number.double (t0 + w)))
      as (t & Et & Ht0 & Ht).
    + unfold score_step. simpl. rewrite E, Ew. reflexivity.
    + lra.
    + exists t. split; [exact Et |]. split; [exact Ht0 |].
      intros _. destruct cs as [| c' cs'].
      * simpl in Et. unfold score_step in Et. simpl in Et.
        rewrite E, Ew in Et. simpl in Et. injection Et as <-. exact Hs.
      * apply Ht. discriminate.
Qed.

(** Two runs of the loop over the same checks, the second from a score
    that is not below the one of the first and from the same weight. *)
Lemma fold_score_not_above (cs : list check) (a b : Number.t * Number.t) :
  Number.not_above (fst a) (fst b) -> snd a = snd b ->
  Number.not_above (fst (fold_left score_step cs a))
                   (fst (fold_left score_step cs b))
  /\ snd (fold_left score_step cs a) = snd (fold_left score_step cs b).
Proof.
  revert a b. induction cs as [| c cs IH]; intros a b H E; simpl.
  - split; assumption.
  - apply IH; unfold score_step; simpl.
    + destruct (penalty c); [apply add_not_above_l |]; exact H.
    + rewrite E. reflexivity.
Qed.

(** The step that differs: the same check, passed on one side and failed
    on the other. *)
Lemma step_failed_not_above (c : check) (acc : Number.t * Number.t) :
  (0 < weight_of c)%Z ->
  passed c = true ->
  within_limit c ->
  Number.rounded (fst acc) ->
  Number.not_above (fst (score_step acc c))
                   (fst (score_step acc (set_passed false c)))
  /\ snd (score_step acc c) = snd (score_step acc (set_passed false c)).
Proof.
  intros Hc Hp Hl Hr. split; [| reflexivity].
  destruct (eff_weight_pos c Hc) as (w & Ew & Hw & Hd).
  unfold score_step. rewrite penalty_failed, Ew. simpl.
  unfold Number.of_Z. change (inject_Z 10) with 10%Q.
  pose proof double_ten as E10.
  assert (H10 : (0 <= Number.double (w * Number.double 10))%Q).
  { apply double_nonneg. rewrite E10. lra. }
  destruct (penalty_passed c w Ew Hw Hd Hp Hl) as [-> | (p & -> & Hle & _)].
  - apply add_nonneg_not_above; assumption.
  - apply add_not_above_r.
    apply Qle_trans with (Number.double (w * 5)); [exact Hle |].
    apply double_mono. rewrite E10. lra.
Qed.

Lemma calculateRiskScore_fold (cs : list check) :
  calculateRiskScore cs
  = Number.min (Number.of_Z 10)
      (Number.div (fst (fold_left score_step cs (Number.Num 0, Number.Num 0)))
                  (snd (fold_left score_step cs
                                  (Number.Num 0, Number.Num 0)))).
Proof.
  unfold calculateRiskScore.
  destruct (fold_left score_step cs (Number.Num 0, Number.Num 0)).
  reflexivity.
Qed.

End ScoreFacts.

(** C7, as the code has it.  Take a list of checks with positive weights,
    one of which passed and is within its limit: its value is not above
    its [maxValue], and that is positive.  Turning that one check from
    passed to failed, and nothing else, does not lower the composite
    score: either the two scores are the same value, or both are finite
    and the second is not below the first.  In neither case is the second
    score less than the first. *)
Theorem failing_a_check_never_lowers_the_score :
  forall (before after : list RiskManager.check) (c : RiskManager.check),
    Forall (fun x => 0 < RiskManager.weight_of x) (before ++ c :: after) ->
    RiskManager.passed c = true ->
    RiskManager.within_limit c ->
    let passing := RiskManager.calculateRiskScore (before ++ c :: after) in
    let failing :=
      RiskManager.calculateRiskScore
        (before ++ RiskManager.set_passed false c :: after) in
    Number.not_above passing failing
    /\ Number.ltb failing passing = false.
Proof.
  intros before after c Hw Hp Hl passing failing.
  assert (H : Number.not_above passing failing);
    [| split; [exact H | apply not_above_ltb, H]].
  subst passing failing. rewrite !calculateRiskScore_fold.
  rewrite !fold_left_app. simpl.
  set (acc := fold_left RiskManager.score_step before
                        (Number.Num 0, Number.Num 0)).
  assert (Hc : 0 < RiskManager.weight_of c).
  { rewrite Forall_app, Forall_cons in Hw. tauto. }
  assert (Hr : Number.rounded (fst acc)).
  { apply fold_score_rounded. simpl. reflexivity. }
  destruct (step_failed_not_above c acc Hc Hp Hl Hr) as [H1 H2].
  destruct (fold_score_not_above after _ _ H1 H2) as [H3 H4].
  rewrite <- H4.
  destruct (fold_weight_pos (before ++ c :: after)
              (Number.Num 0, Number.Num 0) 0 Hw eq_refl)
    as (t & Et & _ & Ht); [lra |].
  rewrite fold_left_app in Et. simpl in Et. fold acc in Et.
  rewrite Et.
  apply min_not_above, div_not_above; [| exact H3].
  apply Ht. destruct before; discriminate.
Qed.

Section PipelineChecks.

Import RiskManager.

Lemma or_default_q_nonzero (x : option Q) (d : Q) :
  ~ (d == 0)%Q -> ~ (or_default_q x d == 0)%Q.
Proof.
  intros Hd. unfold or_default_q.
  destruct x as [v |]; [| exact Hd].
  destruct (Qeq_bool v 0) eqn:E; [exact Hd |].
  intros H. apply Qeq_bool_iff in H. congruence.
Qed.

Lemma max_risk_nonneg (scores : gmap string Q) (keys : list string) :
  (0 <= fst (max_risk scores keys))%Q.
Proof.
  unfold max_risk.
  assert (G : forall acc : Q * option string,
             (0 <= fst acc)%Q ->
             (0 <= fst (fold_left
                          (fun acc k =>
                             let risk := or_default_q (scores !! k) 5 in
                             if Qlt_bool (fst acc) risk
                             then (risk, Some k) else acc)
                          keys acc))%Q).
  { induction keys as [| k keys IH]; intros acc Hacc; simpl; [exact Hacc |].
    apply IH.
    destruct (Qlt_bool (fst acc) (or_default_q (scores !! k) 5)) eqn:E;
      [| exact Hacc].
    apply Qlt_bool_iff in E. simpl. lra. }
  apply G. simpl. lra.
Qed.

Lemma estimateSlippage_pos (o : Opportunity.t) : (0 < estimateSlippage o)%Q.
Proof. unfold estimateSlippage. repeat case_match; reflexivity. Qed.

Lemma weight_pos (c : check) (w : Z) :
  weight c = Some w -> (0 < w)%Z -> (0 < weight_of c)%Z.
Proof.
  intros E Hw. unfold weight_of, or_default. rewrite E.
  destruct (Z.eqb_spec w 0); lia.
Qed.

Lemma format_within (x m : Z) (d : positive) :
  (0 < m)%Z -> (x <= m)%Z -> (0 < m # d /\ x # d <= m # d)%Q.
Proof.
  intros Hm Hx. unfold Qlt, Qle. simpl. split; nia.
Qed.

(** What the eight checks hand to [calculateRiskScore], when the two
    configured ceilings are positive amounts: positive weights, and passed
    checks that are within their limits. *)
Lemma run_checks_within_limits (r : t) (o : Opportunity.t)
      (cs : list check) :
  (0 < maxPositionSize r)%Z ->
  (0 < maxGasPrice r)%Z ->
  run_checks r o = Ok cs ->
  Forall (fun c => (0 < weight_of c)%Z
                   /\ (passed c = true -> within_limit c)) cs.
Proof.
  intros Hpos Hgas E. unfold run_checks in E.
  destruct (checkProfitRatio r o) as [pr |] eqn:Epr; [| discriminate].
  destruct (checkLiquidity r o) as [lq |] eqn:Elq; [| discriminate].
  injection E as <-.
  repeat apply List.Forall_cons; try apply List.Forall_nil.
  - split; [eapply weight_pos; [reflexivity | lia] |].
    intros _. exact I.
  - split; [eapply weight_pos; [reflexivity | lia] |].
    unfold checkPositionSize, within_limit. simpl. intros H.
    apply Z.leb_le in H. apply format_within; assumption.
  - split; [eapply weight_pos; [reflexivity | lia] |].
    unfold checkGasPrice, within_limit. simpl. intros H.
    apply Z.leb_le in H. apply format_within; assumption.
  - unfold checkProfitRatio in Epr.
    repeat case_match; simplify_eq;
      (split; [eapply weight_pos; [reflexivity | lia] | intros _; exact I]).
  - unfold checkTokenRisk.
    pose proof (max_risk_nonneg (tokenRiskScores r) (extractTokens o)) as H0.
    destruct (max_risk (tokenRiskScores r) (extractTokens o)) as [mr rt].
    split; [eapply weight_pos; [reflexivity | lia] |].
    unfold within_limit. simpl. intros H. apply Qle_bool_iff in H.
    pose proof (or_default_q_nonzero (maxTokenRisk (cfg r)) 5) as Hnz.
    simpl in H0. split; [| exact H].
    destruct (Qlt_le_dec 0 (or_default_q (maxTokenRisk (cfg r)) 5))
      as [Hlt | Hle]; [exact Hlt |].
    exfalso. apply Hnz; [discriminate | lra].
  - unfold checkDexRisk.
    pose proof (max_risk_nonneg (dexRiskScores r) (extractDexes o)) as H0.
    destruct (max_risk (dexRiskScores r) (extractDexes o)) as [mr rt].
    split; [eapply weight_pos; [reflexivity | lia] |].
    unfold within_limit. simpl. intros H. apply Qle_bool_iff in H.
    pose proof (or_default_q_nonzero (maxDexRisk (cfg r)) 5) as Hnz.
    simpl in H0. split; [| exact H].
    destruct (Qlt_le_dec 0 (or_default_q (maxDexRisk (cfg r)) 5))
      as [Hlt | Hle]; [exact Hlt |].
    exfalso. apply Hnz; [discriminate | lra].
  - split; [eapply weight_pos; [reflexivity | lia] |].
    unfold checkSlippage, within_limit. simpl. intros H.
    apply Qle_bool_iff in H.
    pose proof (estimateSlippage_pos o). split; [lra | exact H].
  - unfold checkLiquidity in Elq.
    repeat case_match; simplify_eq;
      (split; [eapply weight_pos; [reflexivity | lia] | intros _; exact I]).
Qed.

End PipelineChecks.

Lemma failing_a_check_never_lowers_the_score_witness :
  let r := Scenario.riskManager in
  let o := Scenario.arbitrage in
  let before := [RiskManager.checkDailyLossLimit r] in
  let c := RiskManager.checkPositionSize r o in
  let after := [RiskManager.checkGasPrice r o; RiskManager.checkSlippage r o] in
  Number.ltb
    (RiskManager.calculateRiskScore
       (before ++ RiskManager.set_passed false c :: after))
    (RiskManager.calculateRiskScore (before ++ c :: after)) = false.
Proof.
  cbv zeta.
  refine (proj2 (failing_a_check_never_lowers_the_score
                   [RiskManager.checkDailyLossLimit Scenario.riskManager]
                   [RiskManager.checkGasPrice Scenario.riskManager
                      Scenario.arbitrage;
                    RiskManager.checkSlippage Scenario.riskManager
                      Scenario.arbitrage]
                   (RiskManager.checkPositionSize Scenario.riskManager
                      Scenario.arbitrage) _ _ _)).
  - repeat constructor.
  - reflexivity.
  - split; vm_compute; [reflexivity | discriminate].
Defined.

Example failing_position_size_raises_the_score :
  let r := Scenario.riskManager in
  let o := Scenario.arbitrage in
  let before := [RiskManager.checkDailyLossLimit r] in
  let c := RiskManager.checkPositionSize r o in
  let after := [RiskManager.checkGasPrice r o; RiskManager.checkSlippage r o] in
  Number.same (RiskManager.calculateRiskScore (before ++ c :: after))
              (Number.Num (4803839602528529 # 9007199254740992))
  /\ Number.same
       (RiskManager.calculateRiskScore
          (before ++ RiskManager.set_passed false c :: after))
       (Number.Num (6905519428634761 # 2251799813685248)).
Proof. vm_compute. split; reflexivity. Qed.

(** C7, as the specification has it, fails: a check can pass with a value
    above its [maxValue], and what it then adds to the score is more than
    what a failed check adds.  Of two checks of weight 1 the first passed
    with the value 30 against a [maxValue] of 10; the score is 7.5.  With
    that check failed, and nothing else changed, the score is 5. *)
Lemma failing_a_check_can_lower_the_score :
  let c := Scenario.passed_above_limit in
  let d := Scenario.passed_plain in
  RiskManager.passed c = true
  /\ Number.same (RiskManager.calculateRiskScore [c; d])
                 (Number.Num (15 # 2))
  /\ Number.same
       (RiskManager.calculateRiskScore [RiskManager.set_passed false c; d])
       (Number.Num 5)
  /\ Number.ltb
       (RiskManager.calculateRiskScore [RiskManager.set_passed false c; d])
       (RiskManager.calculateRiskScore [c; d]) = true.
Proof.
  cbv zeta. split; [reflexivity |].
  split; [vm_compute; reflexivity |].
  split; vm_compute; reflexivity.
Qed.

(** ** The provider pool *)
Section ProviderFacts.

Import ProviderManager.

Lemma best_step_keeps primary seen acc p :
  best_so_far primary seen acc ->
  best_so_far primary (seen ++ [p]) (best_step acc p).
Proof.
  unfold ProviderManager.best_so_far, best_step.
  destruct acc as [b [s |]]; simpl.
  - intros (-> & Hh & before & after & -> & Hb & Ha).
    destruct (healthy (_stats p)) eqn:Hp; simpl.
    + destruct (Qle_bool (score b) (score p)) eqn:Hle; simpl.
      * apply Qle_bool_iff in Hle.
        split; [reflexivity | split; [exact Hh |]].
        exists before, (after ++ [p]).
        split; [rewrite <- app_assoc; reflexivity |].
        split; [exact Hb |].
        apply Forall_app. split; [exact Ha |].
        apply List.Forall_cons; [auto | apply List.Forall_nil].
      * assert (Hlt : (score p < score b)%Q).
        { apply Qnot_le_lt. intros H. apply Qle_bool_iff in H. congruence. }
        split; [reflexivity | split; [exact Hp |]].
        exists (before ++ b :: after), [].
        split; [reflexivity |].
        split; [| apply List.Forall_nil].
        apply Forall_app. split.
        -- eapply Forall_impl; [exact Hb |].
           simpl. intros q Hq Hhq. specialize (Hq Hhq). lra.
        -- apply List.Forall_cons; [intros _; exact Hlt |].
           eapply Forall_impl; [exact Ha |].
           simpl. intros q Hq Hhq. specialize (Hq Hhq). lra.
    + split; [reflexivity | split; [exact Hh |]].
      exists before, (after ++ [p]).
      split; [rewrite <- app_assoc; reflexivity |].
      split; [exact Hb |].
      apply Forall_app. split; [exact Ha |].
      apply List.Forall_cons; [congruence | apply List.Forall_nil].
  - intros (-> & Hall).
    destruct (healthy (_stats p)) eqn:Hp; simpl.
    + split; [reflexivity | split; [exact Hp |]].
      exists seen, [].
      split; [reflexivity |].
      split; [| apply List.Forall_nil].
      eapply Forall_impl; [exact Hall |]. simpl. congruence.
    + split; [reflexivity |].
      apply Forall_app. split; [exact Hall |].
      apply List.Forall_cons; [exact Hp | apply List.Forall_nil].
Qed.

Lemma best_loop primary (rest seen : list provider) acc :
  best_so_far primary seen acc ->
  best_so_far primary (seen ++ rest) (fold_left best_step rest acc).
Proof.
  revert seen acc. induction rest as [| p rest IH]; intros seen acc H; simpl.
  - rewrite app_nil_r. exact H.
  - replace (seen ++ p :: rest) with ((seen ++ [p]) ++ rest)
      by (rewrite <- app_assoc; reflexivity).
    apply IH. apply best_step_keeps. exact H.
Qed.

Lemma getBestProvider_spec (m : t) :
  best_so_far (primaryProvider m) (providers m)
              (fold_left best_step (providers m) (primaryProvider m, None)).
Proof.
  apply (best_loop (primaryProvider m) (providers m) []).
  split; [reflexivity | apply List.Forall_nil].
Qed.

End ProviderFacts.

(** C9, as the code has it.  The score of a provider is its average
    latency plus a thousand times its error rate minus ten times its
    priority, computed in doubles: the two quotients, the product, the sum
    and the difference are each rounded to the nearest double, and it is
    the rounded scores that are compared.  When some provider of the pool
    is healthy, [getBestProvider] returns a healthy provider of the pool
    whose score no healthy provider undercuts, and of the healthy
    providers with that score the first one of the pool; an unhealthy
    provider is not returned. *)
Theorem getBestProvider_lowest_score_among_healthy :
  forall (m : ProviderManager.t) (h : ProviderManager.provider),
    In h (ProviderManager.providers m) ->
    ProviderManager.healthy (ProviderManager._stats h) = true ->
    let best := ProviderManager.getBestProvider m in
    In best (ProviderManager.providers m)
    /\ ProviderManager.healthy (ProviderManager._stats best) = true
    /\ (forall p : ProviderManager.provider,
           In p (ProviderManager.providers m) ->
           ProviderManager.healthy (ProviderManager._stats p) = true ->
           (ProviderManager.score best <= ProviderManager.score p)%Q)
    /\ (exists before after : list ProviderManager.provider,
           ProviderManager.providers m = before ++ best :: after
           /\ forall p : ProviderManager.provider,
                In p before ->
                ProviderManager.healthy (ProviderManager._stats p) = true ->
                (ProviderManager.score best < ProviderManager.score p)%Q)
    /\ ProviderManager.score best
       = Number.double
           (Number.double
              (ProviderManager.roundedLatency (ProviderManager._stats best)
               + Number.double
                   (ProviderManager.roundedErrorRate
                      (ProviderManager._stats best) * 1000))
            - Number.double (inject_Z (ProviderManager._priority best) * 10)).
Proof.
  intros m h Hin Hh. simpl.
  pose proof (getBestProvider_spec m) as H.
  unfold ProviderManager.getBestProvider.
  unfold ProviderManager.best_so_far in H.
  destruct (fold_left ProviderManager.best_step (ProviderManager.providers m)
                      (ProviderManager.primaryProvider m, None))
    as [b [s |]]; simpl in *.
  - destruct H as (_ & Hbh & before & after & E & Hb & Ha).
    rewrite List.Forall_forall in Hb, Ha.
    split; [rewrite E; apply in_or_app; right; left; reflexivity |].
    split; [exact Hbh |].
    split; [| split; [| reflexivity]].
    + intros p Hp Hph. rewrite E in Hp.
      apply in_app_or in Hp. destruct Hp as [Hp | [<- | Hp]].
      * apply Qlt_le_weak. auto.
      * apply Qle_refl.
      * auto.
    + exists before, after. split; [exact E |]. auto.
  - destruct H as (_ & Hall).
    rewrite List.Forall_forall in Hall. specialize (Hall h Hin). congruence.
Qed.

Lemma getBestProvider_lowest_score_among_healthy_witness :
  let best := ProviderManager.getBestProvider Scenario.pool in
  In best (ProviderManager.providers Scenario.pool)
  /\ ProviderManager.healthy (ProviderManager._stats best) = true
  /\ (forall p : ProviderManager.provider,
         In p (ProviderManager.providers Scenario.pool) ->
         ProviderManager.healthy (ProviderManager._stats p) = true ->
         (ProviderManager.score best <= ProviderManager.score p)%Q).
Proof.
  destruct (getBestProvider_lowest_score_among_healthy
              Scenario.pool Scenario.fast_clean) as (H1 & H2 & H3 & _).
  - right. left. reflexivity.
  - reflexivity.
  - split; [exact H1 | split; [exact H2 | exact H3]].
Defined.

(** Without a healthy provider the primary one is returned. *)
Lemma getBestProvider_none_healthy :
  forall m : ProviderManager.t,
    Forall (fun p => ProviderManager.healthy (ProviderManager._stats p)
                     = false) (ProviderManager.providers m) ->
    ProviderManager.getBestProvider m = ProviderManager.primaryProvider m.
Proof.
  intros m Hall.
  pose proof (getBestProvider_spec m) as H.
  unfold ProviderManager.getBestProvider, ProviderManager.best_so_far in *.
  destruct (fold_left ProviderManager.best_step (ProviderManager.providers m)
                      (ProviderManager.primaryProvider m, None))
    as [b [s |]]; simpl in *.
  - destruct H as (_ & Hbh & before & after & E & _).
    rewrite List.Forall_forall in Hall.
    assert (Hb : In b (ProviderManager.providers m))
      by (rewrite E; apply in_or_app; right; left; reflexivity).
    specialize (Hall b Hb). congruence.
  - tauto.
Qed.

(** C9, as the specification has it, fails.  Of three healthy providers of
    equal priority the code returns the fast and clean one.  By the score
    of the specification (latency - errorRate x 1000 + priority x 10) that
    provider is neither the lowest, which is the fast one that fails every
    other request, nor the highest, which is the slow one. *)
Lemma spec_score_is_not_what_selects :
  ProviderManager.getBestProvider Scenario.pool = Scenario.fast_clean
  /\ Forall (fun p => ProviderManager.healthy (ProviderManager._stats p)
                      = true) (ProviderManager.providers Scenario.pool)
  /\ (ProviderManager.spec_score Scenario.fast_flaky
      < ProviderManager.spec_score Scenario.fast_clean)%Q
  /\ (ProviderManager.spec_score Scenario.fast_clean
      < ProviderManager.spec_score Scenario.slow_clean)%Q
  /\ (ProviderManager.spec_score Scenario.fast_clean == 110)%Q
  /\ (ProviderManager.score Scenario.fast_clean == 90)%Q.
Proof.
  split; [reflexivity |].
  split; [repeat constructor |].
  repeat split; reflexivity.
Qed.

(** It is the rounded score that selects.  Of two healthy providers the
    second has the lower score over the real numbers; the doubles that
    the code computes are equal, so the comparison keeps the first. *)
Lemma rounding_decides_a_tie :
  ProviderManager._name (ProviderManager.getBestProvider Scenario.tied_pool)
  = ProviderManager._name Scenario.tied_first
  /\ (ProviderManager.exact_score Scenario.tied_second
      < ProviderManager.exact_score Scenario.tied_first)%Q
  /\ (ProviderManager.score Scenario.tied_second
      == ProviderManager.score Scenario.tied_first)%Q
  /\ (ProviderManager.score Scenario.tied_first
      == 2450038427310423 # 2199023255552)%Q.
Proof.
  split; [vm_compute; reflexivity |].
  split; [vm_compute; reflexivity |].
  split; vm_compute; reflexivity.
Qed.

(** ** The executor *)
Section ExecutorFacts.

Import Executor.

Variable getTransactionCount : string -> Z.

Lemma getNonce_stored addr e :
  (0 <= getTransactionCount addr)%Z ->
  (forall n, nonces e !! addr = Some n -> (0 < n)%Z) ->
  let '(e', x) := getNonce getTransactionCount addr e in
  nonces e' !! addr = Some (x + 1) /\ (0 <= x)%Z
  /\ x = default (getTransactionCount addr) (nonces e !! addr).
Proof.
  intros Hc Hs. unfold getNonce. simpl.
  rewrite lookup_insert_eq.
  destruct (nonces e !! addr) as [n |] eqn:E; simpl.
  - specialize (Hs n eq_refl).
    destruct (Z.eqb_spec n 0); [lia |]. split; [reflexivity | lia].
  - auto.
Qed.

(** Calls of [getNonce] that follow one another return numbers that follow
    one another. *)
Lemma getNonces_contiguous (n : nat) addr e :
  (0 <= getTransactionCount addr)%Z ->
  (forall k, nonces e !! addr = Some k -> (0 < k)%Z) ->
  snd (getNonces getTransactionCount n addr e)
  = map (fun i => default (getTransactionCount addr) (nonces e !! addr)
                  + Z.of_nat i)
        (seq 0 n).
Proof.
  intros Hc. revert e. induction n as [| n IH]; intros e Hs.
  - reflexivity.
  - cbn [getNonces].
    pose proof (getNonce_stored addr e Hc Hs) as H.
    destruct (getNonce getTransactionCount addr e) as [e1 x].
    destruct H as (H1 & H2 & H3).
    specialize (IH e1).
    destruct (getNonces getTransactionCount n addr e1) as [e2 xs].
    cbn [snd] in *. rewrite IH.
    + rewrite H1. cbn [default seq map]. rewrite <- H3.
      replace (x + Z.of_nat 0)%Z with x by (simpl; lia).
      f_equal.
      rewrite <- seq_shift, map_map.
      apply map_ext. intros i. unfold id. lia.
    + intros k Hk. rewrite H1 in Hk. injection Hk as <-. lia.
Qed.

End ExecutorFacts.

(** The gate of [execute], for an opportunity and any other that gives
    the same wallet, the same transaction and the same minimum. *)
Lemma execute_gate
      (wallets : list Executor.wallet)
      (strategies : gmap string Executor.strategyConfig)
      (gp : Z) (chain : string -> Z)
      (simT : Executor.built -> result Executor.simulationRaw)
      (outcome : Executor.chainOutcome) (std : Executor.txOutcome)
      (calc : string -> option (Executor.profitView -> option Z))
      (enc : option string -> option string -> option Z -> string)
      (o : Opportunity.t) (score : Number.t) (e e1 : Executor.t)
      (w : Executor.wallet) (b : Executor.built) :
  Executor.selectWallet wallets o score e = Some w ->
  Executor.buildTransaction gp chain enc o w e = (e1, b) ->
  let sim := Executor.simulate simT b in
  let run :=
    Executor.execute wallets strategies gp chain simT outcome std calc enc
                     o score e in
  (Executor.sim_success sim = false ->
   run = (e1, Executor.Failure "Simulation failed", []))
  /\ (forall p m : Z,
         Executor.sim_success sim = true ->
         Executor.sim_profit sim = Some p ->
         Executor.minProfit strategies o = Some m ->
         p < m ->
         run = (e1, Executor.Failure "Profit below minimum threshold", []))
  /\ (snd run <> [] ->
      Executor.sim_success sim = true
      /\ exists p m : Z,
          Executor.sim_profit sim = Some p
          /\ Executor.minProfit strategies o = Some m /\ m <= p).
Proof.
  intros Hw Eb. cbv zeta.
  unfold Executor.execute. rewrite Hw, Eb.
  destruct (Executor.sim_success (Executor.simulate simT b)) eqn:Es; simpl.
  - split; [discriminate |].
    destruct (Executor.sim_profit (Executor.simulate simT b)) as [p |];
      destruct (Executor.minProfit strategies o) as [m0 |]; simpl.
    + destruct (Z.ltb_spec p m0).
      * split.
        -- intros p' m _ Hp Hm _. reflexivity.
        -- simpl. congruence.
      * split.
        -- intros p' m _ Hp Hm Hlt. simplify_eq. lia.
        -- intros _. split; [reflexivity |]. eauto.
    + split.
      * intros p' m _ _ Hm. discriminate.
      * simpl. congruence.
    + split.
      * intros p' m _ Hp. discriminate.
      * simpl. congruence.
    + split.
      * intros p' m _ Hp. discriminate.
      * simpl. congruence.
  - split; [reflexivity |]. split.
    + intros p m H. discriminate.
    + simpl. congruence.
Qed.

(** C8.  Once a wallet is chosen and the transaction built, [execute]
    lets something out of the process only if the simulation succeeded and
    the simulated profit is not below the minimum configured for the
    strategy.  A failed simulation gives the failure 'Simulation failed',
    a simulated profit below the minimum gives 'Profit below minimum
    threshold', and in both cases nothing is signed or sent.  The
    opportunity's own [expectedProfit] has no part in the gate: the
    wallet, the transaction, the simulation and the minimum are the same
    whatever it is, and so is what the gate decides.  (What is made of a
    transaction that has passed the gate does depend on it: the profit
    that [executeStandard] reports is computed from it.) *)
Theorem execute_is_gated_by_simulation :
  forall (wallets : list Executor.wallet)
         (strategies : gmap string Executor.strategyConfig)
         (botGasPrice : Z) (getTransactionCount : string -> Z)
         (simulateTransaction :
            Executor.built -> result Executor.simulationRaw)
         (outcome : Executor.chainOutcome)
         (standard : Executor.txOutcome)
         (profitCalculator :
            string -> option (Executor.profitView -> option Z))
         (encodeLiquidation :
            option string -> option string -> option Z -> string)
         (o : Opportunity.t) (score : Number.t) (e : Executor.t)
         (w : Executor.wallet),
    Executor.selectWallet wallets o score e = Some w ->
    let built :=
      Executor.buildTransaction botGasPrice getTransactionCount
                                encodeLiquidation o w e in
    let sim := Executor.simulate simulateTransaction (snd built) in
    let minimum := Executor.minProfit strategies o in
    let execute o' :=
      Executor.execute wallets strategies botGasPrice getTransactionCount
                       simulateTransaction outcome standard
                       profitCalculator encodeLiquidation o' score e in
    let run := execute o in
    (Executor.sim_success sim = false ->
     run = (fst built, Executor.Failure "Simulation failed", []))
    /\ (forall p m : Z,
           Executor.sim_success sim = true ->
           Executor.sim_profit sim = Some p ->
           minimum = Some m ->
           p < m ->
           run = (fst built,
                  Executor.Failure "Profit below minimum threshold", []))
    /\ (snd run <> [] ->
        Executor.sim_success sim = true
        /\ exists p m : Z,
            Executor.sim_profit sim = Some p
            /\ minimum = Some m /\ m <= p)
    /\ (forall x : option Z,
           let o' := Opportunity.with_expectedProfit x o in
           Executor.selectWallet wallets o' score e = Some w
           /\ Executor.buildTransaction botGasPrice getTransactionCount
                                        encodeLiquidation o' w e = built
           /\ Executor.minProfit strategies o' = minimum
           /\ (Executor.sim_success sim = false ->
               execute o'
               = (fst built, Executor.Failure "Simulation failed", []))
           /\ (forall p m : Z,
                  Executor.sim_success sim = true ->
                  Executor.sim_profit sim = Some p ->
                  minimum = Some m ->
                  p < m ->
                  execute o'
                  = (fst built,
                     Executor.Failure "Profit below minimum threshold", []))
           /\ (snd (execute o') <> [] ->
               Executor.sim_success sim = true
               /\ exists p m : Z,
                   Executor.sim_profit sim = Some p
                   /\ minimum = Some m /\ m <= p)).
Proof.
  intros wallets strategies gp chain simT outcome std calc enc o score e w
         Hw.
  cbv zeta.
  destruct (Executor.buildTransaction gp chain enc o w e) as [e1 b] eqn:Eb.
  cbn [fst snd].
  destruct (execute_gate wallets strategies gp chain simT outcome std calc
              enc o score e e1 w b Hw Eb) as (A & B & C).
  split; [exact A |]. split; [exact B |]. split; [exact C |].
  intros x.
  assert (Hw' : Executor.selectWallet wallets
                  (Opportunity.with_expectedProfit x o) score e = Some w)
    by exact Hw.
  assert (Eb' : Executor.buildTransaction gp chain enc
                  (Opportunity.with_expectedProfit x o) w e = (e1, b))
    by exact Eb.
  split; [exact Hw' |]. split; [exact Eb' |]. split; [reflexivity |].
  exact (execute_gate wallets strategies gp chain simT outcome std calc
           enc (Opportunity.with_expectedProfit x o) score e e1 w b Hw' Eb').
Qed.

Lemma execute_is_gated_by_simulation_witness :
  let execute o :=
    Executor.execute Scenario.wallets Scenario.strategies
      Scenario.botGasPrice Scenario.getTransactionCount
      Helpers.simulateTransaction Scenario.included Scenario.mined
      Scenario.profitCalculator Scenario.encodeLiquidation
      o (Number.lit (29 # 51)) Executor.new in
  snd (fst (execute Scenario.arbitrage))
  = Executor.Failure "Simulation failed"
  /\ snd (execute Scenario.arbitrage) = []
  /\ execute (Opportunity.with_expectedProfit (Some (10 ^ 30))
                                              Scenario.arbitrage)
     = execute Scenario.arbitrage.
Proof.
  cbv beta zeta.
  assert (Hw : Executor.selectWallet Scenario.wallets Scenario.arbitrage
                 (Number.lit (29 # 51)) Executor.new
               = Some Scenario.main_wallet) by reflexivity.
  destruct (execute_is_gated_by_simulation
              Scenario.wallets Scenario.strategies Scenario.botGasPrice
              Scenario.getTransactionCount Helpers.simulateTransaction
              Scenario.included Scenario.mined Scenario.profitCalculator
              Scenario.encodeLiquidation Scenario.arbitrage
              (Number.lit (29 # 51)) Executor.new Scenario.main_wallet Hw)
    as (H1 & _ & _ & H4).
  cbv zeta in H1, H4.
  destruct (H4 (Some (10 ^ 30))) as (_ & _ & _ & H5 & _).
  rewrite H1 by reflexivity. rewrite H5 by reflexivity.
  split; [reflexivity |]. split; reflexivity.
Defined.

(** With the simulator of the repository every simulation fails: whatever
    the opportunity, the wallets and the chain, [execute] returns a
    failure and nothing is signed or sent. *)
Lemma repository_simulator_never_dispatches :
  forall (wallets : list Executor.wallet)
         (strategies : gmap string Executor.strategyConfig)
         (botGasPrice : Z) (getTransactionCount : string -> Z)
         (outcome : Executor.chainOutcome)
         (standard : Executor.txOutcome)
         (profitCalculator :
            string -> option (Executor.profitView -> option Z))
         (encodeLiquidation :
            option string -> option string -> option Z -> string)
         (o : Opportunity.t) (score : Number.t) (e : Executor.t),
    let run :=
      Executor.execute wallets strategies botGasPrice
        getTransactionCount Helpers.simulateTransaction
        outcome standard profitCalculator encodeLiquidation o score e in
    snd run = []
    /\ (snd (fst run) = Executor.Failure "Simulation failed"
        \/ snd (fst run) = Executor.Failure "Execution error").
Proof.
  intros wallets strategies gp chain outcome std calc enc o score e.
  cbv zeta. unfold Executor.execute.
  destruct (Executor.selectWallet wallets o score e) as [w |];
    [| split; [reflexivity | right; reflexivity]].
  destruct (Executor.buildTransaction gp chain enc o w e) as [e1 b].
  split; [reflexivity | left; reflexivity].
Qed.

(** [buildBundle] takes one number from [getNonce]
    and gives the transactions of the bundle that number and the ones after
    it.  Two bundles of two transactions each, built one after the other
    for a wallet whose pending count is 5, get the nonces 5, 6 and 6, 7:
    nonce 6 is given twice, and the counter stands at 7, not at 9. *)
Lemma buildBundle_reserves_one_nonce :
  let build :=
    Executor.buildBundle Scenario.botGasPrice Scenario.getTransactionCount
                         (Scenario.bundle 2) Scenario.main_wallet in
  let first := build Executor.new in
  let second := build (fst first) in
  let nonces_of r :=
    match r with
    | Ok bundle => map Executor.nonce bundle
    | Throw _ => []
    end in
  nonces_of (snd first) = [Some 5; Some 6]
  /\ nonces_of (snd second) = [Some 6; Some 7]
  /\ Executor.nonces (fst second) !! "0xmain" = Some 7.
Proof. vm_compute. repeat split. Qed.

(** C5, on the whole of [execute].  Two opportunities that each need a
    bundle of three transactions are executed one after the other from a
    wallet whose pending count is 5.  [buildTransaction] takes 5 for a
    transaction that is never sent, the first bundle is signed with the
    nonces 6, 7, 8 and the second with 8, 9, 10: nonce 8 is used twice and
    nonce 5 not at all. *)
Lemma two_bundles_share_a_nonce :
  let execute :=
    Executor.execute Scenario.wallets Scenario.strategies
      Scenario.botGasPrice Scenario.getTransactionCount
      Scenario.simulateTransaction Scenario.included Scenario.mined
      Scenario.profitCalculator Scenario.encodeLiquidation (Scenario.bundle 3)
      (Number.lit (29 # 51)) in
  let first := execute Executor.new in
  let second := execute (fst (fst first)) in
  Executor.signed_nonces (snd first) = [Some 6; Some 7; Some 8]
  /\ Executor.signed_nonces (snd second) = [Some 8; Some 9; Some 10]
  /\ Executor.success (snd (fst first)) = true
  /\ Executor.success (snd (fst second)) = true.
Proof. vm_compute. repeat split. Qed.

(** ** The monitor *)

Lemma processTransaction_marks :
  forall (cfg : Monitor.config)
         (decoders : string ->
                     option (Monitor.transaction -> option Monitor.decoded))
         (parseLending : string -> option string)
         (now : Z) (x : Monitor.transaction) (src : Monitor.source)
         (b : option Monitor.block) (m : Monitor.t),
    Monitor.hash x
    ∈ Monitor.processedTxs
        (fst (Monitor.processTransaction cfg decoders parseLending
                                         now x src b m)).
Proof.
  intros. unfold Monitor.processTransaction.
  repeat case_match; simpl; set_solver.
Qed.

Section MonitorFacts.

Import Monitor.

Variable cfg : config.
Variable decoders : string -> option (transaction -> option decoded).
Variable parseLending : string -> option string.

Lemma isTargetTransaction_targets (m m' : t) (x : transaction) :
  targetContracts m = targetContracts m' ->
  isTargetTransaction m x = isTargetTransaction m' x.
Proof. intros E. unfold isTargetTransaction. rewrite E. reflexivity. Qed.

Lemma isInterestingTransaction_targets (m m' : t) (x : transaction) :
  targetContracts m = targetContracts m' ->
  isInterestingTransaction cfg m x = isInterestingTransaction cfg m' x.
Proof.
  intros E. unfold isInterestingTransaction.
  rewrite (isTargetTransaction_targets m m' x E). reflexivity.
Qed.

(** What [processTransaction] emits depends on the monitor through
    [targetContracts] only, which it does not change. *)
Lemma processTransaction_targets now x src b (m m' : t) :
  targetContracts m = targetContracts m' ->
  snd (processTransaction cfg decoders parseLending now x src b m)
  = snd (processTransaction cfg decoders parseLending now x src b m')
  /\ targetContracts
       (fst (processTransaction cfg decoders parseLending now x src b m))
     = targetContracts
         (fst (processTransaction cfg decoders parseLending now x src b m')).
Proof.
  intros E. unfold processTransaction.
  match goal with
  | |- context [isInterestingTransaction cfg ?a x] =>
      match goal with
      | |- context [isInterestingTransaction cfg ?c x] =>
          lazymatch a with
          | c => fail
          | _ => rewrite (isInterestingTransaction_targets a c x E)
          end
      end
  end.
  destruct (isInterestingTransaction cfg _ x); simpl; [| auto].
  destruct (decodeTransaction cfg decoders parseLending x); simpl; auto.
Qed.

Lemma process_all_targets now b xs (m m' : t) :
  targetContracts m = targetContracts m' ->
  snd (process_all cfg decoders parseLending now b xs m)
  = snd (process_all cfg decoders parseLending now b xs m').
Proof.
  revert m m'. induction xs as [| x xs IH]; intros m m' E; simpl.
  - reflexivity.
  - destruct (processTransaction_targets now x InBlock (Some b) m m' E)
      as [Hev Htc].
    destruct (processTransaction cfg decoders parseLending now x InBlock
                                 (Some b) m) as [m1 ev1].
    destruct (processTransaction cfg decoders parseLending now x InBlock
                                 (Some b) m') as [m1' ev1'].
    simpl in Hev, Htc. specialize (IH m1 m1' Htc).
    destruct (process_all cfg decoders parseLending now b xs m1)
      as [m2 ev2].
    destruct (process_all cfg decoders parseLending now b xs m1')
      as [m2' ev2'].
    simpl in *. congruence.
Qed.

End MonitorFacts.

(** C2, as the code has it.  A pending notification for a hash that is in
    [processedTxs] is dropped: nothing is emitted and the monitor is as it
    was.  Hence, of two notifications of one hash that follow one another,
    at most one emits anything.  A block is another matter: what is
    emitted for its transactions is the same whatever [processedTxs]
    holds. *)
Theorem pending_notification_is_deduplicated :
  forall (cfg : Monitor.config)
         (getTransaction : string -> option Monitor.transaction)
         (getBlockWithTransactions : Z -> option Monitor.block)
         (decoders : string ->
                     option (Monitor.transaction -> option Monitor.decoded))
         (parseLending : string -> option string),
    (forall (now : Z) (txHash : string) (m : Monitor.t),
        txHash ∈ Monitor.processedTxs m ->
        Monitor.pendingSubscription cfg getTransaction decoders parseLending
                                    now txHash m
        = (m, []))
    /\ (forall (now now' : Z) (txHash : string) (m : Monitor.t),
           (forall x, getTransaction txHash = Some x ->
                      Monitor.hash x = txHash) ->
           let first :=
             Monitor.pendingSubscription cfg getTransaction decoders
                                         parseLending now txHash m in
           let second :=
             Monitor.pendingSubscription cfg getTransaction decoders
                                         parseLending now' txHash
                                         (fst first) in
           snd first = [] \/ snd second = [])
    /\ (forall (now blockNumber : Z) (m m' : Monitor.t),
           Monitor.targetContracts m = Monitor.targetContracts m' ->
           snd (Monitor.blockSubscription cfg getBlockWithTransactions
                  decoders parseLending now blockNumber m)
           = snd (Monitor.blockSubscription cfg getBlockWithTransactions
                    decoders parseLending now blockNumber m')).
Proof.
  intros cfg getTx getBlock decoders parseLending.
  assert (Hdrop : forall (now : Z) (txHash : string) (m : Monitor.t),
             txHash ∈ Monitor.processedTxs m ->
             Monitor.pendingSubscription cfg getTx decoders parseLending
                                         now txHash m = (m, [])).
  { intros now h m Hin. unfold Monitor.pendingSubscription.
    rewrite bool_decide_eq_true_2; [reflexivity | exact Hin]. }
  split; [exact Hdrop |]. split.
  - intros now now' h m Hhash. simpl.
    assert (Hmark : snd (Monitor.pendingSubscription
                           cfg getTx decoders parseLending now h m) <> [] ->
                    h ∈ Monitor.processedTxs
                          (fst (Monitor.pendingSubscription
                                  cfg getTx decoders parseLending now h m))).
    { unfold Monitor.pendingSubscription.
      destruct (bool_decide (h ∈ Monitor.processedTxs m)); [simpl; tauto |].
      destruct (getTx h) as [x |] eqn:E; [| simpl; tauto].
      destruct (Monitor.isTargetTransaction m x); [| simpl; tauto].
      intros _. rewrite <- (Hhash x eq_refl) at 1.
      apply processTransaction_marks. }
    destruct (snd (Monitor.pendingSubscription
                     cfg getTx decoders parseLending now h m)) eqn:E1;
      [left; reflexivity |].
    right. rewrite Hdrop; [reflexivity |].
    apply Hmark. discriminate.
  - intros now n m m' E. unfold Monitor.blockSubscription.
    destruct (getBlock n) as [b |]; [| reflexivity].
    match goal with
    | |- context [Monitor.process_all _ _ _ _ _ _ ?a] =>
        match goal with
        | |- context [Monitor.process_all _ _ _ _ _ _ ?c] =>
            lazymatch a with
            | c => fail
            | _ =>
                pose proof (process_all_targets cfg decoders parseLending
                              now b (Monitor.transactions b) a c E) as H
            end
        end
    end.
    repeat match goal with
           | |- context [Monitor.process_all ?a1 ?a2 ?a3 ?a4 ?a5 ?a6 ?a7] =>
               destruct (Monitor.process_all a1 a2 a3 a4 a5 a6 a7)
           end.
    simpl in *. congruence.
Qed.

Lemma pending_notification_is_deduplicated_witness :
  let pending now m :=
    Monitor.pendingSubscription Scenario.monitor_config
      Scenario.getTransaction Scenario.decoders Scenario.parseLending
      now "0xabc" m in
  let seen := fst (pending 1772323200 Scenario.monitor) in
  pending 1772323205 seen = (seen, [])
  /\ (snd (pending 1772323200 Scenario.monitor) = []
      \/ snd (pending 1772323205 seen) = [])
  /\ snd (Monitor.blockSubscription Scenario.monitor_config
            Scenario.getBlockWithTransactions Scenario.decoders
            Scenario.parseLending 1772323212 100 Scenario.monitor)
     = snd (Monitor.blockSubscription Scenario.monitor_config
              Scenario.getBlockWithTransactions Scenario.decoders
              Scenario.parseLending 1772323212 100 seen).
Proof.
  cbv zeta beta.
  destruct (pending_notification_is_deduplicated
              Scenario.monitor_config Scenario.getTransaction
              Scenario.getBlockWithTransactions
              Scenario.decoders Scenario.parseLending) as (H1 & H2 & H3).
  split; [| split].
  - apply H1. apply (bool_decide_unpack _). vm_compute. exact I.
  - apply (H2 1772323200 1772323205 "0xabc" Scenario.monitor).
    intros x. unfold Scenario.getTransaction. simpl.
    intros E. injection E as <-. reflexivity.
  - apply H3. reflexivity.
Defined.

(** C2, as the specification has it, fails on blocks.  A swap is seen
    pending and emitted as ['transaction'], ['swap'] and ['highValue']; its
    hash is then in [processedTxs].  When block 100 brings the same
    transaction, the same three events are emitted for it once more. *)
Lemma mined_transaction_is_emitted_again :
  let pending :=
    Monitor.pendingSubscription Scenario.monitor_config
      Scenario.getTransaction Scenario.decoders Scenario.parseLending
      1772323200 "0xabc" Scenario.monitor in
  let mined :=
    Monitor.blockSubscription Scenario.monitor_config
      Scenario.getBlockWithTransactions Scenario.decoders
      Scenario.parseLending 1772323212 100 (fst pending) in
  map Monitor.event_hash (snd pending)
  = [Some "0xabc"; Some "0xabc"; Some "0xabc"]
  /\ bool_decide ("0xabc" ∈ Monitor.processedTxs (fst pending)) = true
  /\ map Monitor.event_hash (snd mined)
     = [Some "0xabc"; Some "0xabc"; Some "0xabc"; None].
Proof. vm_compute. repeat split. Qed.

(** ** The bot *)

(** No path through [handleOpportunity] calls [recordSuccess]. *)
Lemma handleOpportunity_never_records_success :
  forall (wallets : list Executor.wallet)
         (strategies : gmap string Executor.strategyConfig)
         (botGasPrice : Z) (getTransactionCount : string -> Z)
         (simulateTransaction :
            Executor.built -> result Executor.simulationRaw)
         (outcome : Executor.chainOutcome)
         (standard : Executor.txOutcome)
         (profitCalculator :
            string -> option (Executor.profitView -> option Z))
         (encodeLiquidation :
            option string -> option string -> option Z -> string)
         (calculatePositionSize : Opportunity.t -> Number.t -> Z)
         (db_ok : MEVBot.dbWrite -> bool)
         (today : string) (now : Z) (o : Opportunity.t)
         (strategyName : string) (b : MEVBot.t),
    MEVBot.calls MEVBot.RecordSuccess
      (snd (fst (MEVBot.handleOpportunity wallets strategies botGasPrice
                   getTransactionCount simulateTransaction outcome standard
                   profitCalculator
                   encodeLiquidation calculatePositionSize db_ok
                   today now o strategyName b))) = 0%nat.
Proof.
  intros. unfold MEVBot.handleOpportunity, MEVBot.on_error.
  repeat case_match; reflexivity.
Qed.

(** C4 fails on the code.  A trade goes through while the breaker has four
    failures in a row on record: [execute] reports success, the trade is
    written down and counted, and the breaker is told nothing, so that
    [consecutiveFailures] is still [4] afterwards and [recordSuccess] was
    called zero times, not once.  In the other direction, a failed trade
    whose write to the database throws is reported twice. *)
Lemma success_is_not_reported_to_the_breaker :
  let handle standard db bot :=
    MEVBot.handleOpportunity Scenario.wallets Scenario.strategies
      Scenario.botGasPrice Scenario.getTransactionCount
      Scenario.simulateTransaction Scenario.included standard
      Scenario.profitCalculator Scenario.encodeLiquidation
      Scenario.sizer db Scenario.today Scenario.now Scenario.arbitrage
      "arbitrage" bot in
  let won := handle Scenario.mined Scenario.db_ok Scenario.strained_bot in
  let lost :=
    handle Scenario.mined_reverted Scenario.db_down Scenario.bot in
  snd (fst won)
  = [MEVBot.AssessOpportunity; MEVBot.Execute;
     MEVBot.RecordSuccessfulTrade; MEVBot.MetricsRecordTrade true]
  /\ MEVBot.successfulTrades (MEVBot.performance (fst (fst won))) = 1%nat
  /\ MEVBot.calls MEVBot.RecordSuccess (snd (fst won)) = 0%nat
  /\ CircuitBreaker.consecutiveFailures
       (MEVBot.circuitBreaker (fst (fst won))) = 4%nat
  /\ snd (fst lost)
     = [MEVBot.AssessOpportunity; MEVBot.Execute; MEVBot.RecordFailure;
        MEVBot.RecordFailedTrade; MEVBot.RecordFailure]
  /\ MEVBot.calls MEVBot.RecordFailure (snd (fst lost)) = 2%nat.
Proof. vm_compute. repeat split. Qed.

(** A failed trade whose write goes through is reported once. *)
Example failure_is_reported_once :
  MEVBot.calls MEVBot.RecordFailure
    (snd (fst (MEVBot.handleOpportunity Scenario.wallets
                 Scenario.strategies Scenario.botGasPrice
                 Scenario.getTransactionCount Scenario.simulateTransaction
                 Scenario.included Scenario.mined_reverted
                 Scenario.profitCalculator Scenario.encodeLiquidation
                 Scenario.sizer Scenario.db_ok Scenario.today Scenario.now
                 Scenario.arbitrage "arbitrage" Scenario.bot))) = 1%nat.
Proof. vm_compute. reflexivity. Qed.

(** With the simulator of the repository the failure side is reached on
    every approved opportunity: the simulation fails, the failure is
    reported, and when the write to the database throws it is reported a
    second time. *)
Example failed_simulation_is_reported_twice :
  let run :=
    MEVBot.handleOpportunity Scenario.wallets Scenario.strategies
      Scenario.botGasPrice Scenario.getTransactionCount
      Helpers.simulateTransaction Scenario.included Scenario.mined
      Scenario.profitCalculator Scenario.encodeLiquidation
      Scenario.sizer Scenario.db_down Scenario.today Scenario.now
      Scenario.arbitrage "arbitrage" Scenario.bot in
  snd (fst run)
  = [MEVBot.AssessOpportunity; MEVBot.Execute; MEVBot.RecordFailure;
     MEVBot.RecordFailedTrade; MEVBot.RecordFailure]
  /\ snd run = [].
Proof. vm_compute. split; reflexivity. Qed.

(** * Further properties *)

(** ** The circuit breaker, beyond the three transitions *)
Section BreakerFurther.

Import CircuitBreaker.

Lemma evaluateCircuit_cases now b :
  (state b <> OPEN
   /\ state (evaluateCircuit now b) = OPEN
   /\ timers (evaluateCircuit now b)
      = timers b ++ [now + cooldownMinutes b * 60 * 1000])
  \/ (state (evaluateCircuit now b) = state b
      /\ timers (evaluateCircuit now b) = timers b).
Proof.
  unfold evaluateCircuit, trip. simpl.
  repeat case_match; simpl;
    destruct (state b) eqn:E; simpl in *; try discriminate;
    try (right; split; congruence);
    left; (split; [discriminate | split; reflexivity]).
Qed.

Lemma evaluateCircuit_hourly now b :
  hourlyFailures (evaluateCircuit now b)
  = within_the_hour now (hourlyFailures b).
Proof.
  unfold evaluateCircuit, trip, within_the_hour.
  repeat case_match; reflexivity.
Qed.

Lemma evaluateCircuit_below now b :
  (Z.of_nat (consecutiveFailures b) < maxConsecutiveFailures b)%Z ->
  (Z.of_nat (length (within_the_hour now (hourlyFailures b)))
   < maxFailuresPerHour b)%Z ->
  state (evaluateCircuit now b) = state b
  /\ timers (evaluateCircuit now b) = timers b.
Proof.
  intros H1 H2. unfold evaluateCircuit, within_the_hour in *. simpl.
  destruct (Z.leb_spec (maxConsecutiveFailures b)
                       (Z.of_nat (consecutiveFailures b))); [lia |].
  destruct (Z.leb_spec (maxFailuresPerHour b)
              (Z.of_nat (length
                 (List.filter
                    (fun f => Z.ltb (now - 60 * 60 * 1000) (timestamp f))
                    (hourlyFailures b))))); [lia |].
  split; reflexivity.
Qed.

Lemma evaluateCircuit_hourly_trips now b :
  (maxFailuresPerHour b
   <= Z.of_nat (length (within_the_hour now (hourlyFailures b))))%Z ->
  state (evaluateCircuit now b) = OPEN.
Proof.
  intros H. unfold evaluateCircuit, within_the_hour in *. simpl.
  destruct (Z.leb_spec (maxConsecutiveFailures b)
                       (Z.of_nat (consecutiveFailures b)));
    [apply trip_state |].
  destruct (Z.leb_spec (maxFailuresPerHour b)
              (Z.of_nat (length
                 (List.filter
                    (fun f => Z.ltb (now - 60 * 60 * 1000) (timestamp f))
                    (hourlyFailures b))))); [apply trip_state | lia].
Qed.

Lemma within_the_hour_app now l1 l2 :
  within_the_hour now (l1 ++ l2)
  = within_the_hour now l1 ++ within_the_hour now l2.
Proof. unfold within_the_hour. apply List.filter_app. Qed.

Lemma within_the_hour_new now s :
  within_the_hour now [{| timestamp := now; strategy := s |}]
  = [{| timestamp := now; strategy := s |}].
Proof.
  unfold within_the_hour. simpl.
  destruct (Z.ltb_spec (now - 60 * 60 * 1000) now); [reflexivity | lia].
Qed.

Lemma within_the_hour_length now l :
  (length (within_the_hour now l) <= length l)%nat.
Proof. unfold within_the_hour. apply List.filter_length_le. Qed.

Lemma recordFailure_hourly now s b :
  hourlyFailures (recordFailure now s b)
  = within_the_hour now (hourlyFailures b)
    ++ [{| timestamp := now; strategy := s |}].
Proof.
  unfold recordFailure. rewrite evaluateCircuit_hourly. simpl.
  rewrite within_the_hour_app, within_the_hour_new. reflexivity.
Qed.

Lemma recordFailure_cooldown now s b :
  cooldownMinutes (recordFailure now s b) = cooldownMinutes b
  /\ maxFailuresPerHour (recordFailure now s b) = maxFailuresPerHour b.
Proof.
  unfold recordFailure, evaluateCircuit, trip.
  repeat case_match; simpl; auto.
Qed.

End BreakerFurther.

(** X1.  A failure schedules a recovery exactly when it opens the breaker:
    either the breaker was not open, is open afterwards and one callback,
    due after the cool-down, was added; or its state and its pending
    callbacks are as before. *)
Theorem recordFailure_schedules_a_recovery_iff_it_trips :
  forall (now : Z) (s : option string) (b : CircuitBreaker.t),
    let b' := CircuitBreaker.recordFailure now s b in
    (CircuitBreaker.state b <> CircuitBreaker.OPEN
     /\ CircuitBreaker.state b' = CircuitBreaker.OPEN
     /\ CircuitBreaker.timers b'
        = CircuitBreaker.timers b
          ++ [now + CircuitBreaker.cooldownMinutes b * 60 * 1000])
    \/ (CircuitBreaker.state b' = CircuitBreaker.state b
        /\ CircuitBreaker.timers b' = CircuitBreaker.timers b).
Proof.
  intros now s b. simpl. unfold CircuitBreaker.recordFailure.
  match goal with
  | |- context [CircuitBreaker.evaluateCircuit now ?x] =>
      destruct (evaluateCircuit_cases now x) as [H | H]
  end; simpl in H; [left | right]; exact H.
Qed.

(** X2.  A failure while the breaker is half-open opens it again, and starts a
    new cool-down, when one of the two thresholds is reached; the count of
    consecutive failures is not reset by the recovery, so that is the case
    after a trip on consecutive failures.  Below both thresholds the
    breaker stays half-open and nothing is scheduled. *)
Theorem failure_while_half_open :
  forall (now : Z) (s : option string) (b : CircuitBreaker.t),
    CircuitBreaker.state b = CircuitBreaker.HALF_OPEN ->
    let b' := CircuitBreaker.recordFailure now s b in
    let recent :=
      Z.of_nat (length (CircuitBreaker.within_the_hour
                          now (CircuitBreaker.hourlyFailures b))) + 1 in
    let count := Z.of_nat (CircuitBreaker.consecutiveFailures b) + 1 in
    (CircuitBreaker.maxConsecutiveFailures b <= count
     \/ CircuitBreaker.maxFailuresPerHour b <= recent ->
     CircuitBreaker.state b' = CircuitBreaker.OPEN
     /\ CircuitBreaker.timers b'
        = CircuitBreaker.timers b
          ++ [now + CircuitBreaker.cooldownMinutes b * 60 * 1000])
    /\ (count < CircuitBreaker.maxConsecutiveFailures b ->
        recent < CircuitBreaker.maxFailuresPerHour b ->
        CircuitBreaker.state b' = CircuitBreaker.HALF_OPEN
        /\ CircuitBreaker.timers b' = CircuitBreaker.timers b).
Proof.
  intros now s b E. simpl.
  set (b0 :=
         {| CircuitBreaker.state := CircuitBreaker.state b;
            CircuitBreaker.failures := S (CircuitBreaker.failures b);
            CircuitBreaker.consecutiveFailures :=
              S (CircuitBreaker.consecutiveFailures b);
            CircuitBreaker.lastFailureTime := Some now;
            CircuitBreaker.hourlyFailures :=
              CircuitBreaker.hourlyFailures b
              ++ [{| CircuitBreaker.timestamp := now;
                     CircuitBreaker.strategy := s |}];
            CircuitBreaker.strategyFailures :=
              match s with
              | Some s0 =>
                  if truthy_str s
                  then <[s0 := S (default 0%nat
                                    (CircuitBreaker.strategyFailures b !! s0))]>
                         (CircuitBreaker.strategyFailures b)
                  else CircuitBreaker.strategyFailures b
              | None => CircuitBreaker.strategyFailures b
              end;
            CircuitBreaker.maxFailuresPerHour :=
              CircuitBreaker.maxFailuresPerHour b;
            CircuitBreaker.maxConsecutiveFailures :=
              CircuitBreaker.maxConsecutiveFailures b;
            CircuitBreaker.cooldownMinutes :=
              CircuitBreaker.cooldownMinutes b;
            CircuitBreaker.strategyDisableThreshold :=
              CircuitBreaker.strategyDisableThreshold b;
            CircuitBreaker.timers := CircuitBreaker.timers b;
            CircuitBreaker.emitted := CircuitBreaker.emitted b |}).
  change (CircuitBreaker.recordFailure now s b)
    with (CircuitBreaker.evaluateCircuit now b0).
  assert (Hlen : Z.of_nat (length (CircuitBreaker.within_the_hour
                                     now (CircuitBreaker.hourlyFailures b0)))
                 = Z.of_nat (length (CircuitBreaker.within_the_hour
                                       now (CircuitBreaker.hourlyFailures b)))
                   + 1).
  { subst b0. simpl.
    rewrite within_the_hour_app, within_the_hour_new, length_app.
    simpl. lia. }
  split.
  - intros H.
    assert (Ho : CircuitBreaker.state (CircuitBreaker.evaluateCircuit now b0)
                 = CircuitBreaker.OPEN).
    { destruct H as [H | H].
      - apply evaluateCircuit_trips. subst b0. simpl. lia.
      - apply evaluateCircuit_hourly_trips. rewrite Hlen.
        subst b0. simpl. exact H. }
    destruct (evaluateCircuit_cases now b0) as [(_ & _ & Ht) | (Hs & _)].
    + split; [exact Ho | exact Ht].
    + rewrite Ho in Hs. subst b0. simpl in Hs. congruence.
  - intros H1 H2.
    destruct (evaluateCircuit_below now b0) as [Hs Ht].
    + subst b0. simpl. lia.
    + rewrite Hlen. subst b0. simpl. exact H2.
    + rewrite Hs, Ht. subst b0. simpl. auto.
Qed.

Lemma failure_while_half_open_witness :
  let b := Scenario.half_open_breaker in
  let b' := CircuitBreaker.recordFailure 1900000 None b in
  CircuitBreaker.state b' = CircuitBreaker.OPEN
  /\ CircuitBreaker.timers b'
     = CircuitBreaker.timers b ++ [1900000 + 30 * 60 * 1000].
Proof.
  apply (failure_while_half_open 1900000 None Scenario.half_open_breaker).
  - reflexivity.
  - left. vm_compute. discriminate.
Defined.

(** X3.  [hourlyFailures] is a sliding window of one hour: after a failure is
    recorded it holds the entries of before that are less than an hour
    old, in their order, followed by the new entry, and nothing else.  If
    that makes [maxFailuresPerHour] entries or more, the breaker is open,
    whether or not successes came in between. *)
Theorem hourly_failures_are_a_sliding_window :
  forall (now : Z) (s : option string) (b : CircuitBreaker.t),
    let b' := CircuitBreaker.recordFailure now s b in
    CircuitBreaker.hourlyFailures b'
    = List.filter
        (fun f => Z.ltb (now - 3600000) (CircuitBreaker.timestamp f))
        (CircuitBreaker.hourlyFailures b)
      ++ [{| CircuitBreaker.timestamp := now;
             CircuitBreaker.strategy := s |}]
    /\ Forall (fun f => now - 3600000 < CircuitBreaker.timestamp f)
              (CircuitBreaker.hourlyFailures b')
    /\ (CircuitBreaker.maxFailuresPerHour b
        <= Z.of_nat (length (CircuitBreaker.hourlyFailures b')) ->
        CircuitBreaker.state b' = CircuitBreaker.OPEN)
    /\ (forall t : Z,
           CircuitBreaker.hourlyFailures (CircuitBreaker.recordSuccess t b)
           = CircuitBreaker.hourlyFailures b).
Proof.
  intros now s b. simpl.
  pose proof (recordFailure_hourly now s b) as Hh.
  unfold CircuitBreaker.within_the_hour in Hh.
  change (60 * 60 * 1000) with 3600000 in Hh.
  split; [exact Hh |]. split; [| split].
  - rewrite Hh. apply Forall_app. split.
    + apply List.Forall_forall. intros f Hf.
      apply List.filter_In in Hf. destruct Hf as [_ Hf].
      apply Z.ltb_lt in Hf. exact Hf.
    + apply List.Forall_cons; [simpl; lia | apply List.Forall_nil].
  - intros H. unfold CircuitBreaker.recordFailure.
    apply evaluateCircuit_hourly_trips.
    rewrite <- evaluateCircuit_hourly.
    fold (CircuitBreaker.recordFailure now s b).
    destruct (recordFailure_cooldown now s b) as [_ Hm].
    unfold CircuitBreaker.recordFailure in Hm. simpl in Hm |- *.
    exact H.
  - intros t. unfold CircuitBreaker.recordSuccess, CircuitBreaker.close.
    case_match; reflexivity.
Qed.

Lemma hourly_failures_are_a_sliding_window_witness :
  CircuitBreaker.state
    (CircuitBreaker.recordFailure 9000 None
       (CircuitBreaker.recordFailures
          [(1000, None); (2000, None); (3000, None); (4000, None)]
          (CircuitBreaker.new
             {| CircuitBreaker.cfg_maxFailuresPerHour := Some 5;
                CircuitBreaker.cfg_maxConsecutiveFailures := Some 50;
                CircuitBreaker.cfg_cooldownMinutes := None;
                CircuitBreaker.cfg_strategyDisableThreshold := None |})))
  = CircuitBreaker.OPEN.
Proof.
  apply hourly_failures_are_a_sliding_window.
  vm_compute. discriminate.
Defined.

Section BreakerCounts.

Import CircuitBreaker.

Lemma recordFailure_strategyFailures now s b :
  strategyFailures (recordFailure now s b)
  = match s with
    | Some name =>
        if truthy_str s
        then <[name := S (default 0%nat (strategyFailures b !! name))]>
               (strategyFailures b)
        else strategyFailures b
    | None => strategyFailures b
    end.
Proof.
  unfold recordFailure, evaluateCircuit, trip.
  repeat case_match; reflexivity.
Qed.

Lemma recordFailure_threshold now s b :
  strategyDisableThreshold (recordFailure now s b)
  = strategyDisableThreshold b.
Proof.
  unfold recordFailure, evaluateCircuit, trip.
  repeat case_match; reflexivity.
Qed.

Lemma recordFailure_below now s b :
  (Z.of_nat (S (consecutiveFailures b)) < maxConsecutiveFailures b)%Z ->
  (Z.of_nat (S (length (hourlyFailures b))) < maxFailuresPerHour b)%Z ->
  state (recordFailure now s b) = state b
  /\ timers (recordFailure now s b) = timers b.
Proof.
  intros H1 H2. unfold recordFailure.
  match goal with
  | |- context [evaluateCircuit now ?x] =>
      destruct (evaluateCircuit_below now x) as [Hs Ht]
  end.
  - simpl. exact H1.
  - simpl. rewrite within_the_hour_app, within_the_hour_new, length_app.
    pose proof (within_the_hour_length now (hourlyFailures b)).
    simpl. lia.
  - rewrite Hs, Ht. simpl. auto.
Qed.

End BreakerCounts.

(** X4.  Failures are counted per strategy: a failure recorded for a strategy
    adds one to the count of that strategy and leaves the count of every
    other strategy alone; a failure recorded without a strategy leaves all
    counts alone.  [shouldDisableStrategy] compares the count with the
    threshold, a strategy never seen counting as zero. *)
Theorem failures_are_counted_per_strategy :
  forall (now : Z) (name : string) (b : CircuitBreaker.t),
    name <> "" ->
    let count b s :=
      default 0%nat (CircuitBreaker.strategyFailures b !! s) in
    count (CircuitBreaker.recordFailure now (Some name) b) name
    = S (count b name)
    /\ (forall other : string,
           other <> name ->
           count (CircuitBreaker.recordFailure now (Some name) b) other
           = count b other)
    /\ (forall s : string,
           count (CircuitBreaker.recordFailure now None b) s = count b s)
    /\ (forall s : string,
           CircuitBreaker.shouldDisableStrategy s b = true
           <-> CircuitBreaker.strategyDisableThreshold b
               <= Z.of_nat (count b s)).
Proof.
  intros now name b Hne. simpl.
  assert (Ht : truthy_str (Some name) = true).
  { simpl. destruct (String.eqb_spec name ""); [congruence | reflexivity]. }
  rewrite !recordFailure_strategyFailures, Ht.
  split; [| split; [| split]].
  - rewrite lookup_insert_eq. reflexivity.
  - intros other Ho. rewrite lookup_insert_ne; [reflexivity | congruence].
  - reflexivity.
  - intros s. unfold CircuitBreaker.shouldDisableStrategy.
    apply Z.leb_le.
Qed.

Lemma failures_are_counted_per_strategy_witness :
  default 0%nat
    (CircuitBreaker.strategyFailures
       (CircuitBreaker.recordFailure 7000 (Some "arbitrage")
                                     Scenario.open_breaker)
     !! "arbitrage") = 2%nat.
Proof.
  destruct (failures_are_counted_per_strategy
              7000 "arbitrage" Scenario.open_breaker) as [H _];
    [discriminate |].
  cbv beta zeta in H. rewrite H. vm_compute. reflexivity.
Defined.

(** X5.  Below both thresholds nothing happens: a closed breaker stays closed,
    and schedules nothing, through a run of failures that leaves the count
    of consecutive failures below [maxConsecutiveFailures] and the number
    of recorded failures below [maxFailuresPerHour]. *)
Theorem breaker_stays_closed_below_thresholds :
  forall (fs : list (Z * option string)) (b : CircuitBreaker.t),
    CircuitBreaker.state b = CircuitBreaker.CLOSED ->
    Z.of_nat (CircuitBreaker.consecutiveFailures b + length fs)
    < CircuitBreaker.maxConsecutiveFailures b ->
    Z.of_nat (length (CircuitBreaker.hourlyFailures b) + length fs)
    < CircuitBreaker.maxFailuresPerHour b ->
    CircuitBreaker.state (CircuitBreaker.recordFailures fs b)
    = CircuitBreaker.CLOSED
    /\ CircuitBreaker.timers (CircuitBreaker.recordFailures fs b)
       = CircuitBreaker.timers b.
Proof.
  induction fs as [| [now s] fs IH]; intros b Hs Hc Hh.
  - split; [exact Hs | reflexivity].
  - change (CircuitBreaker.recordFailures ((now, s) :: fs) b)
      with (CircuitBreaker.recordFailures
              fs (CircuitBreaker.recordFailure now s b)).
    simpl length in Hc, Hh.
    destruct (recordFailure_below now s b) as [Hst Htm]; [lia | lia |].
    assert (Hlen : (length (CircuitBreaker.hourlyFailures
                              (CircuitBreaker.recordFailure now s b))
                    <= S (length (CircuitBreaker.hourlyFailures b)))%nat).
    { rewrite recordFailure_hourly, length_app.
      pose proof (within_the_hour_length now
                    (CircuitBreaker.hourlyFailures b)).
      simpl. lia. }
    destruct (IH (CircuitBreaker.recordFailure now s b)) as [H1 H2].
    + congruence.
    + rewrite recordFailure_consecutive, recordFailure_max. lia.
    + destruct (recordFailure_cooldown now s b) as [_ ->]. lia.
    + split; [exact H1 | congruence].
Qed.

Lemma breaker_stays_closed_below_thresholds_witness :
  CircuitBreaker.state
    (CircuitBreaker.recordFailures (take 4 Scenario.five_failures)
                                   Scenario.breaker)
  = CircuitBreaker.CLOSED
  /\ CircuitBreaker.timers
       (CircuitBreaker.recordFailures (take 4 Scenario.five_failures)
                                      Scenario.breaker)
     = CircuitBreaker.timers Scenario.breaker.
Proof.
  apply breaker_stays_closed_below_thresholds;
    [reflexivity | vm_compute; reflexivity | vm_compute; reflexivity].
Defined.

Section BreakerOpen.

Import CircuitBreaker.

Lemma recordSuccess_state now b :
  state (recordSuccess now b)
  = match state b with HALF_OPEN => CLOSED | other => other end
  /\ timers (recordSuccess now b) = timers b.
Proof.
  unfold recordSuccess, close. simpl.
  destruct (state b) eqn:E; simpl; rewrite ?E; auto.
Qed.

Lemma fire_timer_state now b :
  state (fire_timer now b) = state b
  \/ (state b = OPEN /\ state (fire_timer now b) = HALF_OPEN).
Proof.
  unfold fire_timer, attemptRecovery.
  destruct (timers b) as [| due rest]; [auto |].
  destruct (Z.leb due now); [| auto]. simpl.
  destruct (state b) eqn:E; simpl; rewrite ?E; auto.
Qed.

End BreakerOpen.

(** X6.  An open breaker is left only through the recovery callback.  Whatever
    successes and failures are recorded while it is open, it stays open and
    no further callback is scheduled; in particular a success does not
    close an open breaker.  The callback in turn moves an open breaker to
    half-open and leaves the state of any other breaker as it is. *)
Theorem open_breaker_waits_for_the_recovery :
  (forall (inputs : list CircuitBreaker.input) (b : CircuitBreaker.t),
      CircuitBreaker.state b = CircuitBreaker.OPEN ->
      Forall (fun i => match i with
                       | CircuitBreaker.Recovery _ => False
                       | _ => True
                       end) inputs ->
      CircuitBreaker.state (fold_left CircuitBreaker.react inputs b)
      = CircuitBreaker.OPEN
      /\ CircuitBreaker.timers (fold_left CircuitBreaker.react inputs b)
         = CircuitBreaker.timers b)
  /\ (forall (now : Z) (b : CircuitBreaker.t),
         CircuitBreaker.state (CircuitBreaker.fire_timer now b)
         = CircuitBreaker.state b
         \/ (CircuitBreaker.state b = CircuitBreaker.OPEN
             /\ CircuitBreaker.state (CircuitBreaker.fire_timer now b)
                = CircuitBreaker.HALF_OPEN))
  /\ (forall (now due : Z) (rest : list Z) (b : CircuitBreaker.t),
         CircuitBreaker.state b = CircuitBreaker.OPEN ->
         CircuitBreaker.timers b = due :: rest ->
         due <= now ->
         CircuitBreaker.state (CircuitBreaker.fire_timer now b)
         = CircuitBreaker.HALF_OPEN
         /\ CircuitBreaker.timers (CircuitBreaker.fire_timer now b) = rest).
Proof.
  split; [| split].
  - induction inputs as [| i inputs IH]; intros b Hs Hall.
    + split; [exact Hs | reflexivity].
    + inversion Hall as [| ? ? Hi Hrest]; subst.
      simpl fold_left.
      destruct i as [now s | now | now]; [| | contradiction]; simpl.
      * destruct (recordFailure_open now s b Hs) as [H1 H2].
        destruct (IH _ H1 Hrest) as [H3 H4].
        split; [exact H3 | congruence].
      * destruct (recordSuccess_state now b) as [H1 H2].
        rewrite Hs in H1.
        destruct (IH _ H1 Hrest) as [H3 H4].
        split; [exact H3 | congruence].
  - apply fire_timer_state.
  - intros now due rest b Hs Ht Hdue.
    unfold CircuitBreaker.fire_timer, CircuitBreaker.attemptRecovery.
    rewrite Ht. apply Z.leb_le in Hdue. rewrite Hdue. simpl.
    rewrite Hs. simpl. auto.
Qed.

Lemma open_breaker_waits_for_the_recovery_witness :
  let inputs :=
    [CircuitBreaker.Succeeded 6000; CircuitBreaker.Failed 7000 None;
     CircuitBreaker.Succeeded 8000] in
  (CircuitBreaker.state
     (fold_left CircuitBreaker.react inputs Scenario.open_breaker)
   = CircuitBreaker.OPEN
   /\ CircuitBreaker.timers
        (fold_left CircuitBreaker.react inputs Scenario.open_breaker)
      = CircuitBreaker.timers Scenario.open_breaker)
  /\ (CircuitBreaker.state
        (CircuitBreaker.fire_timer 1805000 Scenario.open_breaker)
      = CircuitBreaker.HALF_OPEN
      /\ CircuitBreaker.timers
           (CircuitBreaker.fire_timer 1805000 Scenario.open_breaker) = []).
Proof.
  destruct open_breaker_waits_for_the_recovery as (H1 & _ & H3).
  split.
  - apply H1; [reflexivity | repeat constructor].
  - apply (H3 1805000 1805000 [] Scenario.open_breaker);
      [reflexivity | reflexivity | lia].
Defined.

(** ** The bot: what reaches the executor *)

(** X7.  [handleOpportunity] goes to the executor only with an opportunity that
    the risk manager approved, and only while the breaker is not open.
    Under an open breaker it does nothing but count the opportunity: no
    assessment, no write, no report, and risk manager, executor and
    breaker are as before.  A rejected opportunity leaves the executor
    untouched and lets nothing out. *)
Theorem execution_requires_admission :
  forall (wallets : list Executor.wallet)
         (strategies : gmap string Executor.strategyConfig)
         (botGasPrice : Z) (getTransactionCount : string -> Z)
         (simulateTransaction :
            Executor.built -> result Executor.simulationRaw)
         (outcome : Executor.chainOutcome)
         (standard : Executor.txOutcome)
         (profitCalculator :
            string -> option (Executor.profitView -> option Z))
         (encodeLiquidation :
            option string -> option string -> option Z -> string)
         (calculatePositionSize : Opportunity.t -> Number.t -> Z)
         (db_ok : MEVBot.dbWrite -> bool)
         (today : string) (now : Z) (o : Opportunity.t)
         (strategyName : string) (b : MEVBot.t),
    let run :=
      MEVBot.handleOpportunity wallets strategies botGasPrice
        getTransactionCount simulateTransaction outcome standard
        profitCalculator encodeLiquidation
        calculatePositionSize db_ok today now o strategyName b in
    let admitted :=
      negb (CircuitBreaker.isTripped (MEVBot.circuitBreaker b))
      && RiskManager.approved
           (snd (RiskManager.assessOpportunity calculatePositionSize
                   today now o (MEVBot.riskManager b))) in
    (CircuitBreaker.isTripped (MEVBot.circuitBreaker b) = true ->
     snd (fst run) = [] /\ snd run = []
     /\ MEVBot.circuitBreaker (fst (fst run)) = MEVBot.circuitBreaker b
     /\ MEVBot.riskManager (fst (fst run)) = MEVBot.riskManager b
     /\ MEVBot.executor (fst (fst run)) = MEVBot.executor b
     /\ MEVBot.opportunitiesAnalyzed (MEVBot.performance (fst (fst run)))
        = S (MEVBot.opportunitiesAnalyzed (MEVBot.performance b)))
    /\ (admitted = false ->
        ~ In MEVBot.Execute (snd (fst run))
        /\ snd run = []
        /\ MEVBot.executor (fst (fst run)) = MEVBot.executor b)
    /\ (In MEVBot.Execute (snd (fst run)) -> admitted = true).
Proof.
  intros. subst run admitted. cbv zeta.
  unfold MEVBot.handleOpportunity, MEVBot.on_error.
  cbn [MEVBot.circuitBreaker MEVBot.riskManager MEVBot.executor
       MEVBot.performance MEVBot.set_performance
       MEVBot.set_circuitBreaker].
  destruct (CircuitBreaker.isTripped (MEVBot.circuitBreaker b)) eqn:Et;
    simpl.
  - split; [intros _; repeat split |].
    split; [intros _; repeat split; tauto | tauto].
  - split; [discriminate |].
    destruct (RiskManager.assessOpportunity calculatePositionSize today now
                o (MEVBot.riskManager b)) as [rm a] eqn:Ea.
    simpl.
    destruct (RiskManager.approved a) eqn:Eap; simpl.
    + split; [discriminate | reflexivity].
    + split; [| intros H; exfalso].
      * intros _. destruct (db_ok MEVBot.WriteRejected); simpl;
          (split; [intuition discriminate | split; reflexivity]).
      * destruct (db_ok MEVBot.WriteRejected); simpl in H;
          intuition discriminate.
Qed.

Lemma execution_requires_admission_witness :
  let b := MEVBot.set_circuitBreaker Scenario.open_breaker Scenario.bot in
  let run :=
    MEVBot.handleOpportunity Scenario.wallets Scenario.strategies
      Scenario.botGasPrice Scenario.getTransactionCount
      Scenario.simulateTransaction Scenario.included Scenario.mined
      Scenario.profitCalculator Scenario.encodeLiquidation Scenario.sizer
      Scenario.db_ok
      Scenario.today Scenario.now Scenario.arbitrage "arbitrage" b in
  snd (fst run) = [] /\ snd run = []
  /\ MEVBot.circuitBreaker (fst (fst run)) = MEVBot.circuitBreaker b
  /\ MEVBot.riskManager (fst (fst run)) = MEVBot.riskManager b
  /\ MEVBot.executor (fst (fst run)) = MEVBot.executor b
  /\ MEVBot.opportunitiesAnalyzed (MEVBot.performance (fst (fst run)))
     = S (MEVBot.opportunitiesAnalyzed (MEVBot.performance b)).
Proof.
  cbv zeta.
  destruct (execution_requires_admission
              Scenario.wallets Scenario.strategies Scenario.botGasPrice
              Scenario.getTransactionCount Scenario.simulateTransaction
              Scenario.included Scenario.mined Scenario.profitCalculator
              Scenario.encodeLiquidation Scenario.sizer
              Scenario.db_ok Scenario.today Scenario.now Scenario.arbitrage
              "arbitrage"
              (MEVBot.set_circuitBreaker Scenario.open_breaker
                 Scenario.bot)) as [H _].
  cbv zeta in H. apply H. reflexivity.
Defined.

(** ** The risk manager: daily statistics and reasons *)
Section DailyStats.

Import RiskManager.

Lemma checkDailyReset_date today r :
  date (dailyStats (checkDailyReset today r)) = today.
Proof.
  unfold checkDailyReset.
  destruct (String.eqb_spec today (date (dailyStats r))); simpl; congruence.
Qed.

Lemma checkDailyReset_limits today r :
  maxDailyLoss (checkDailyReset today r) = maxDailyLoss r
  /\ maxPositionSize (checkDailyReset today r) = maxPositionSize r
  /\ maxGasPrice (checkDailyReset today r) = maxGasPrice r.
Proof. unfold checkDailyReset. case_match; simpl; auto. Qed.

End DailyStats.

(** X8.  Every assessment that completes is counted once, as executed when it
    approves and as rejected when it does not; one that throws is not
    counted.  The counts are those of the day: [dailyStats] carries the
    date of the assessment afterwards, and an assessment on another date
    than the one on record starts from zero.  The totals of profit and
    loss are not touched by an assessment on the same date. *)
Theorem every_assessment_is_counted_once :
  forall (calculatePositionSize : Opportunity.t -> Number.t -> Z)
         (today : string) (now : Z) (o : Opportunity.t) (r : RiskManager.t),
    let before :=
      if String.eqb today (RiskManager.date (RiskManager.dailyStats r))
      then RiskManager.dailyStats r
      else RiskManager.fresh_stats today in
    let run :=
      RiskManager.assessOpportunity calculatePositionSize today now o r in
    let after := RiskManager.dailyStats (fst run) in
    RiskManager.date after = today
    /\ RiskManager.totalLoss after = RiskManager.totalLoss before
    /\ RiskManager.totalProfit after = RiskManager.totalProfit before
    /\ match snd run with
       | RiskManager.Assessment true _ _ _ _ _ _ =>
           RiskManager.tradesExecuted after
           = S (RiskManager.tradesExecuted before)
           /\ RiskManager.tradesRejected after
              = RiskManager.tradesRejected before
       | RiskManager.Assessment false _ _ _ _ _ _ =>
           RiskManager.tradesExecuted after
           = RiskManager.tradesExecuted before
           /\ RiskManager.tradesRejected after
              = S (RiskManager.tradesRejected before)
       | RiskManager.AssessmentError _ =>
           RiskManager.tradesExecuted after
           = RiskManager.tradesExecuted before
           /\ RiskManager.tradesRejected after
              = RiskManager.tradesRejected before
       end.
Proof.
  intros sizer today now o r. cbv zeta.
  assert (Hb : RiskManager.dailyStats (RiskManager.checkDailyReset today r)
               = if String.eqb today
                      (RiskManager.date (RiskManager.dailyStats r))
                 then RiskManager.dailyStats r
                 else RiskManager.fresh_stats today).
  { unfold RiskManager.checkDailyReset.
    destruct (String.eqb today
                (RiskManager.date (RiskManager.dailyStats r)));
      reflexivity. }
  rewrite <- Hb.
  pose proof (checkDailyReset_date today r) as Hd.
  unfold RiskManager.assessOpportunity.
  destruct (RiskManager.run_checks
              (RiskManager.checkDailyReset today r) o) as [cs | msg];
    simpl.
  - split; [exact Hd |]. split; [reflexivity |]. split; [reflexivity |].
    destruct (_ && _)%bool; simpl; auto.
  - split; [exact Hd |]. auto.
Qed.

(** X9.  Within a day the remaining loss budget only shrinks.  A trade result
    never lowers [totalLoss]; once [checkDailyLossLimit] fails it keeps
    failing whatever results come in; after a successful trade that made no
    profit it passes exactly when the loss on record plus the loss of that
    trade is still below [maxDailyLoss]; and a trade that made a profit
    leaves its answer as it was. *)
Theorem loss_budget_only_shrinks :
  forall (res : RiskManager.tradeResult) (r : RiskManager.t),
    let r' := RiskManager.updateTradeResult res r in
    let loss x := RiskManager.totalLoss (RiskManager.dailyStats x) in
    let within x :=
      RiskManager.passed (RiskManager.checkDailyLossLimit x) in
    loss r <= loss r'
    /\ (within r = false -> within r' = false)
    /\ (RiskManager.success res = true ->
        RiskManager.profit res <= 0 ->
        within r'
        = Z.ltb (loss r + Z.abs (RiskManager.profit res))
                (RiskManager.maxDailyLoss r))
    /\ (0 < RiskManager.profit res ->
        RiskManager.checkDailyLossLimit r'
        = RiskManager.checkDailyLossLimit r).
Proof.
  intros res r. cbv zeta.
  unfold RiskManager.updateTradeResult, RiskManager.checkDailyLossLimit.
  destruct (RiskManager.success res); simpl.
  - destruct (Z.ltb_spec 0 (RiskManager.profit res)); simpl.
    + repeat split; try lia; auto.
    + split; [lia |]. split; [| split].
      * rewrite !Z.ltb_ge. lia.
      * intros _ _.
        destruct (Z.ltb_spec 0
                    (RiskManager.maxDailyLoss r
                     - (RiskManager.totalLoss (RiskManager.dailyStats r)
                        + Z.abs (RiskManager.profit res))));
          destruct (Z.ltb_spec
                      (RiskManager.totalLoss (RiskManager.dailyStats r)
                       + Z.abs (RiskManager.profit res))
                      (RiskManager.maxDailyLoss r)); try reflexivity; lia.
      * lia.
  - repeat split; try lia; auto; discriminate.
Qed.

Lemma loss_budget_only_shrinks_witness :
  let lost :=
    {| RiskManager.success := true; RiskManager.profit := - (10 ^ 18) |} in
  RiskManager.passed
    (RiskManager.checkDailyLossLimit
       (RiskManager.updateTradeResult lost Scenario.riskManager))
  = false.
Proof.
  cbv zeta.
  destruct (loss_budget_only_shrinks
              {| RiskManager.success := true;
                 RiskManager.profit := - (10 ^ 18) |}
              Scenario.riskManager) as (_ & _ & H & _).
  cbv zeta beta in H. rewrite H; [reflexivity | reflexivity |].
  vm_compute. discriminate.
Defined.

(** X10.  The loss budget is one of the day.  On another date than the one on
    record the daily-loss check passes exactly when [maxDailyLoss] is
    positive, whatever was lost before; on the date on record
    [checkDailyReset] changes nothing; and a second [checkDailyReset] on
    the same date changes nothing either. *)
Theorem loss_budget_is_daily :
  forall (today : string) (r : RiskManager.t),
    (today <> RiskManager.date (RiskManager.dailyStats r) ->
     RiskManager.passed
       (RiskManager.checkDailyLossLimit
          (RiskManager.checkDailyReset today r))
     = Z.ltb 0 (RiskManager.maxDailyLoss r)
     /\ RiskManager.dailyStats (RiskManager.checkDailyReset today r)
        = RiskManager.fresh_stats today)
    /\ (today = RiskManager.date (RiskManager.dailyStats r) ->
        RiskManager.checkDailyReset today r = r)
    /\ RiskManager.checkDailyReset today
         (RiskManager.checkDailyReset today r)
       = RiskManager.checkDailyReset today r.
Proof.
  intros today r.
  unfold RiskManager.checkDailyReset at 1 2 3.
  split; [| split].
  - intros H. apply String.eqb_neq in H. rewrite H. simpl.
    rewrite Z.sub_0_r. auto.
  - intros H. apply String.eqb_eq in H. rewrite H. reflexivity.
  - unfold RiskManager.checkDailyReset at 1.
    rewrite checkDailyReset_date, String.eqb_refl. reflexivity.
Qed.

Lemma loss_budget_is_daily_witness :
  let lost :=
    {| RiskManager.success := true; RiskManager.profit := - (10 ^ 18) |} in
  RiskManager.passed
    (RiskManager.checkDailyLossLimit
       (RiskManager.checkDailyReset "2026-03-02"
          (RiskManager.updateTradeResult lost Scenario.riskManager)))
  = true.
Proof.
  cbv zeta.
  destruct (loss_budget_is_daily "2026-03-02"
              (RiskManager.updateTradeResult
                 {| RiskManager.success := true;
                    RiskManager.profit := - (10 ^ 18) |}
                 Scenario.riskManager)) as (H & _).
  destruct H as [H _]; [discriminate |].
  rewrite H. reflexivity.
Defined.

(** ** The risk manager: what the composite score can decide *)
Section ScoreRange.

Import RiskManager.

Lemma run_checks_nonempty (r : t) (o : Opportunity.t) (cs : list check) :
  run_checks r o = Ok cs -> cs <> [].
Proof.
  unfold run_checks. repeat case_match; intros; simplify_eq. discriminate.
Qed.

Lemma filter_failed_nil (cs : list check) :
  Nat.eqb (length (List.filter (fun c => negb (passed c)) cs)) 0
  = forallb passed cs.
Proof.
  induction cs as [| c cs IH]; simpl; [reflexivity |].
  destruct (passed c); simpl; [exact IH | reflexivity].
Qed.

Lemma double_small (z : Z) (x : Q) :
  (x == inject_Z z)%Q -> (Z.abs z < 2 ^ 53)%Z ->
  (Number.double x == inject_Z z)%Q.
Proof. intros E H. rewrite E. apply double_Z, H. Qed.

(** What one check adds stays within its integer bound. *)
Lemma penalty_bounded (c : check) :
  (0 < weight_of c <= 10)%Z ->
  (passed c = true -> within_limit c) ->
  (0 <= penalty_bound c)%Z
  /\ match penalty c with
     | None => penalty_bound c = 0%Z
     | Some p =>
         exists q : Q,
           p = Number.Num q
           /\ (q <= inject_Z (penalty_bound c))%Q
           /\ (match value c, maxValue c with
               | Some v, Some _ => (0 <= jsnum v)%Q
               | _, _ => True
               end -> (0 <= q)%Q)
     end.
Proof.
  intros Hw Hl.
  assert (Hw0 : (0 < weight_of c)%Z) by lia.
  destruct (eff_weight_pos c Hw0) as (w & Ew & Hwpos & Hd).
  assert (EW : (w == inject_Z (weight_of c))%Q).
  { unfold eff_weight, Number.of_Z in Ew. injection Ew as <-.
    apply double_Z. lia. }
  unfold penalty_bound.
  destruct (passed c) eqn:Hp.
  - destruct (penalty_passed c w Ew Hwpos Hd Hp (Hl eq_refl))
      as [-> | (p & -> & Hle & H0)].
    + split; [lia | reflexivity].
    + split; [lia |]. exists p. split; [reflexivity |].
      split; [| exact H0].
      apply Qle_trans with (Number.double (w * 5)); [exact Hle |].
      apply Qle_lteq. right. apply double_small; [| lia].
      rewrite EW, inject_Z_mult. ring.
  - unfold penalty. rewrite Hp, Ew. cbn [negb Number.mul Number.of_Z].
    split; [lia |]. eexists. split; [reflexivity |].
    change (inject_Z 10) with 10%Q. pose proof double_ten as E10.
    assert (E : (Number.double (w * Number.double 10)
                 == inject_Z (10 * weight_of c))%Q).
    { apply double_small; [| lia].
      rewrite E10, EW, inject_Z_mult. ring. }
    split.
    + rewrite E. apply Qle_refl.
    + intros _. rewrite E.
      replace 0%Q with (inject_Z 0) by reflexivity.
      rewrite <- Zle_Qle. lia.
Qed.

(** The loop keeps the running score within the sum of the bounds, and
    the running weight is the sum of the weights. *)
Lemma fold_score_bounded (cs : list check) :
  forall (acc : Number.t * Number.t) (s0 t0 : Q) (B0 n0 : Z),
    Forall (fun c => (0 < weight_of c <= 10)%Z
                     /\ (passed c = true -> within_limit c)) cs ->
    fst acc = Number.Num s0 -> snd acc = Number.Num t0 ->
    (s0 <= inject_Z B0)%Q -> (t0 == inject_Z n0)%Q ->
    (0 <= B0)%Z -> (0 <= n0)%Z ->
    (B0 + total penalty_bound cs < 2 ^ 53)%Z ->
    (n0 + total weight_of cs < 2 ^ 53)%Z ->
    exists s t : Q,
      fold_left score_step cs acc = (Number.Num s, Number.Num t)
      /\ (s <= inject_Z (B0 + total penalty_bound cs))%Q
      /\ (t == inject_Z (n0 + total weight_of cs))%Q
      /\ ((0 <= s0)%Q ->
          Forall (fun c => match value c, maxValue c with
                           | Some v, Some _ => (0 <= jsnum v)%Q
                           | _, _ => True
                           end) cs ->
          (0 <= s)%Q).
Proof.
  induction cs as [| c cs IH];
    intros acc s0 t0 B0 n0 Hf Es Et Hs Ht HB Hn HBs Hns.
  - exists s0, t0. simpl. rewrite !Z.add_0_r.
    destruct acc as [a b]. simpl in Es, Et. subst a b.
    split; [reflexivity |]. split; [exact Hs |]. split; [exact Ht | auto].
  - apply List.Forall_cons_iff in Hf. destruct Hf as [[Hw Hl] Hf].
    destruct (penalty_bounded c Hw Hl) as [Hb0 Hpen].
    assert (Hw0 : (0 < weight_of c)%Z) by lia.
    destruct (eff_weight_pos c Hw0) as (w & Ew & Hwpos & Hd).
    assert (EW : (w == inject_Z (weight_of c))%Q).
    { unfold eff_weight, Number.of_Z in Ew. injection Ew as <-.
      apply double_Z. lia. }
    assert (Htot : (0 <= total penalty_bound cs)%Z).
    { clear -Hf. induction Hf as [| c' cs' [Hw' Hl'] _ IH']; simpl; [lia |].
      destruct (penalty_bounded c' Hw' Hl') as [H0 _]. lia. }
    assert (Hwtot : (0 <= total weight_of cs)%Z).
    { clear -Hf. induction Hf as [| c' cs' [Hw' _] _ IH']; simpl; lia. }
    cbn [total fold_right] in HBs, Hns. fold (total penalty_bound cs) in HBs.
    fold (total weight_of cs) in Hns.
    cbn [fold_left].
    set (t1 := Number.double (t0 + w)).
    assert (Et1 : (t1 == inject_Z (n0 + weight_of c))%Q).
    { apply double_small; [| lia]. rewrite Ht, EW, inject_Z_plus.
      reflexivity. }
    destruct (penalty c) as [p |] eqn:Ep.
    + destruct Hpen as (q & -> & Hq & Hq0).
      set (s1 := Number.double (s0 + q)).
      assert (Hs1 : (s1 <= inject_Z (B0 + penalty_bound c))%Q).
      { apply Qle_trans
          with (Number.double (inject_Z (B0 + penalty_bound c))).
        - apply double_mono. rewrite inject_Z_plus. lra.
        - apply Qle_lteq. right. apply double_Z. lia. }
      destruct (IH (score_step acc c) s1 t1 (B0 + penalty_bound c)%Z
                   (n0 + weight_of c)%Z Hf)
        as (s & t & E & H1 & H2 & H3); try lia; try assumption.
      * unfold score_step. rewrite Ep, Es. reflexivity.
      * unfold score_step. rewrite Et, Ew. reflexivity.
      * exists s, t. split; [exact E |].
        cbn [total fold_right]. fold (total penalty_bound cs).
        fold (total weight_of cs).
        rewrite !Z.add_assoc. split; [exact H1 |]. split; [exact H2 |].
        intros Hs0 Hnn. apply List.Forall_cons_iff in Hnn.
        destruct Hnn as [Hc Hnn]. apply H3; [| exact Hnn].
        apply double_nonneg. specialize (Hq0 Hc). lra.
    + destruct (IH (score_step acc c) s0 t1 B0 (n0 + weight_of c)%Z Hf)
        as (s & t & E & H1 & H2 & H3); try lia; try assumption.
      * unfold score_step. rewrite Ep, Es. reflexivity.
      * unfold score_step. rewrite Et, Ew. reflexivity.
      * exists s, t. split; [exact E |].
        cbn [total fold_right]. fold (total penalty_bound cs).
        fold (total weight_of cs).
        rewrite Hpen, Z.add_0_l, !Z.add_assoc.
        split; [exact H1 |]. split; [exact H2 |].
        intros Hs0 Hnn. apply List.Forall_cons_iff in Hnn.
        destruct Hnn as [Hc Hnn]. apply H3; assumption.
Qed.

Lemma total_weight_le (cs : list check) :
  Forall (fun c => (0 < weight_of c <= 10)%Z) cs ->
  (0 <= total weight_of cs <= 10 * Z.of_nat (length cs))%Z
  /\ (cs <> [] -> 0 < total weight_of cs)%Z.
Proof.
  induction 1 as [| c cs Hc _ [IH _]]; simpl; [split; [lia | congruence] |].
  split; [lia | intros _; lia].
Qed.

Lemma total_bound_le (cs : list check) :
  Forall (fun c => (0 < weight_of c <= 10)%Z
                   /\ (passed c = true -> within_limit c)) cs ->
  (0 <= total penalty_bound cs <= 10 * total weight_of cs)%Z
  /\ (forallb passed cs = true ->
      total penalty_bound cs <= 5 * total weight_of cs)%Z.
Proof.
  induction 1 as [| c cs [Hw Hl] _ [IH1 IH2]]; simpl; [lia |].
  destruct (penalty_bounded c Hw Hl) as [H0 _].
  assert (Hc : (penalty_bound c <= 10 * weight_of c)%Z
               /\ (passed c = true ->
                   penalty_bound c <= 5 * weight_of c)%Z).
  { unfold penalty_bound.
    destruct (penalty c); destruct (passed c); split; intros; lia. }
  destruct Hc as [Hc1 Hc2].
  split; [lia |].
  intros Hall. apply andb_true_iff in Hall. destruct Hall as [Hp Hall].
  specialize (IH2 Hall). specialize (Hc2 Hp). lia.
Qed.

(** The composite score of a list of checks with weights between 1 and
    10 whose passed checks are within their limits. *)
Lemma calculateRiskScore_bounded (cs : list check) :
  cs <> [] ->
  (Z.of_nat (length cs) <= 1000)%Z ->
  Forall (fun c => (0 < weight_of c <= 10)%Z
                   /\ (passed c = true -> within_limit c)) cs ->
  exists q : Q,
    calculateRiskScore cs = Number.Num q
    /\ (q <= 10)%Q
    /\ (q <= Number.double (inject_Z (total penalty_bound cs)
                            / inject_Z (total weight_of cs)))%Q
    /\ (Forall (fun c => match value c, maxValue c with
                         | Some v, Some _ => (0 <= jsnum v)%Q
                         | _, _ => True
                         end) cs ->
        (0 <= q)%Q).
Proof.
  intros Hne Hlen Hf.
  assert (Hw : Forall (fun c => (0 < weight_of c <= 10)%Z) cs).
  { eapply Forall_impl; [exact Hf |]. simpl. tauto. }
  destruct (total_weight_le cs Hw) as [HW HWpos]. specialize (HWpos Hne).
  destruct (total_bound_le cs Hf) as [HB _].
  destruct (fold_score_bounded cs (Number.Num 0, Number.Num 0) 0 0 0 0 Hf)
    as (s & t & E & Hs & Ht & H0);
    try reflexivity; try apply Qle_refl; try lia.
  rewrite !Z.add_0_l in *.
  rewrite calculateRiskScore_fold, E. cbn [fst snd].
  assert (Htpos : (0 < t)%Q).
  { rewrite Ht. replace 0%Q with (inject_Z 0) by reflexivity.
    rewrite <- Zlt_Qlt. exact HWpos. }
  unfold Number.div. rewrite (Qeq_bool_pos t Htpos).
  unfold Number.of_Z, Number.min. change (inject_Z 10) with 10%Q.
  pose proof double_ten as E10.
  assert (Hd : (Number.double (s / t)
                <= Number.double
                     (inject_Z (total penalty_bound cs)
                      / inject_Z (total weight_of cs)))%Q).
  { apply double_mono. rewrite <- Ht. unfold Qdiv.
    apply Qmult_le_compat_r; [exact Hs |].
    apply Qlt_le_weak, Qinv_lt_0_compat, Htpos. }
  destruct (Qle_bool (Number.double 10) (Number.double (s / t))) eqn:Em.
  - apply Qle_bool_iff in Em. eexists. split; [reflexivity |].
    split; [rewrite E10; apply Qle_refl |].
    split; [lra |]. intros _. rewrite E10. lra.
  - apply Qle_bool_false in Em. eexists. split; [reflexivity |].
    split; [lra |]. split; [exact Hd |].
    intros Hnn. rewrite <- double_zero. apply double_mono.
    apply Qle_shift_div_l; [exact Htpos |].
    specialize (H0 (Qle_refl 0) Hnn). lra.
Qed.

Lemma format_nonneg (x : Z) (d : positive) : (0 <= x)%Z -> (0 <= x # d)%Q.
Proof. intros Hx. unfold Qle. simpl. lia. Qed.

(** The eight checks: their weights, and the sign of what they report
    when the amount and the gas price are not negative. *)
Lemma run_checks_weights (r : t) (o : Opportunity.t) (cs : list check) :
  run_checks r o = Ok cs ->
  length cs = 8%nat /\ Forall (fun c => (0 < weight_of c <= 10)%Z) cs.
Proof.
  intros E. unfold run_checks in E.
  destruct (checkProfitRatio r o) as [pr |] eqn:Epr; [| discriminate].
  destruct (checkLiquidity r o) as [lq |] eqn:Elq; [| discriminate].
  injection E as <-. split; [reflexivity |].
  repeat apply List.Forall_cons; try apply List.Forall_nil;
    try (cbv; split; [reflexivity | discriminate]).
  - unfold checkProfitRatio in Epr.
    repeat case_match; simplify_eq; cbv; split;
      first [reflexivity | discriminate].
  - unfold checkTokenRisk.
    destruct (max_risk (tokenRiskScores r) (extractTokens o)).
    cbv; split; [reflexivity | discriminate].
  - unfold checkDexRisk.
    destruct (max_risk (dexRiskScores r) (extractDexes o)).
    cbv; split; [reflexivity | discriminate].
  - unfold checkLiquidity in Elq.
    repeat case_match; simplify_eq; cbv; split;
      first [reflexivity | discriminate].
Qed.

Lemma run_checks_values_nonneg (r : t) (o : Opportunity.t)
      (cs : list check) :
  (0 <= default 0 (Opportunity.bn_or (Opportunity.amount o)
                             (Opportunity.inputAmount o)))%Z ->
  (0 <= default getGasPrice (Opportunity.gasPrice o))%Z ->
  run_checks r o = Ok cs ->
  Forall (fun c => match value c, maxValue c with
                   | Some v, Some _ => (0 <= jsnum v)%Q
                   | _, _ => True
                   end) cs.
Proof.
  intros Ha Hg E. unfold run_checks in E.
  destruct (checkProfitRatio r o) as [pr |] eqn:Epr; [| discriminate].
  destruct (checkLiquidity r o) as [lq |] eqn:Elq; [| discriminate].
  injection E as <-.
  repeat apply List.Forall_cons; try apply List.Forall_nil.
  - exact I.
  - simpl. apply format_nonneg, Ha.
  - simpl. apply format_nonneg, Hg.
  - unfold checkProfitRatio in Epr.
    repeat case_match; simplify_eq; exact I.
  - unfold checkTokenRisk.
    pose proof (max_risk_nonneg (tokenRiskScores r) (extractTokens o)) as Hnn.
    destruct (max_risk (tokenRiskScores r) (extractTokens o)) as [mr rt].
    exact Hnn.
  - unfold checkDexRisk.
    pose proof (max_risk_nonneg (dexRiskScores r) (extractDexes o)) as Hnn.
    destruct (max_risk (dexRiskScores r) (extractDexes o)) as [mr rt].
    exact Hnn.
  - simpl. pose proof (estimateSlippage_pos o). lra.
  - unfold checkLiquidity in Elq.
    repeat case_match; simplify_eq; exact I.
Qed.

Lemma run_checks_limits (r : t) (o : Opportunity.t) (cs : list check) :
  (0 < maxPositionSize r)%Z ->
  (0 < maxGasPrice r)%Z ->
  run_checks r o = Ok cs ->
  Forall (fun c => (0 < weight_of c <= 10)%Z
                   /\ (passed c = true -> within_limit c)) cs.
Proof.
  intros Hpos Hgas E.
  pose proof (run_checks_within_limits r o cs Hpos Hgas E) as Hl.
  destruct (run_checks_weights r o cs E) as [_ Hw].
  rewrite List.Forall_forall in *. intros c Hc.
  split; [apply Hw, Hc | apply Hl, Hc].
Qed.

Lemma penalty_bound_no_limit (c : check) :
  passed c = true -> maxValue c = None -> penalty_bound c = 0%Z.
Proof.
  intros Hp Hm. unfold penalty_bound, penalty. rewrite Hp, Hm. simpl.
  destruct (value c); reflexivity.
Qed.

Lemma penalty_bound_passed (c : check) :
  passed c = true -> (0 < weight_of c)%Z ->
  (penalty_bound c <= 5 * weight_of c)%Z.
Proof.
  intros Hp Hw. unfold penalty_bound. rewrite Hp.
  destruct (penalty c); lia.
Qed.

(** When each of the eight checks passed, what they add is at most 145
    and their weights come to at least 49. *)
Lemma run_checks_all_passed_totals (r : t) (o : Opportunity.t)
      (cs : list check) :
  run_checks r o = Ok cs ->
  forallb passed cs = true ->
  (total penalty_bound cs <= 145)%Z /\ (49 <= total weight_of cs)%Z.
Proof.
  intros E Hall. unfold run_checks in E.
  destruct (checkProfitRatio r o) as [pr |] eqn:Epr; [| discriminate].
  destruct (checkLiquidity r o) as [lq |] eqn:Elq; [| discriminate].
  injection E as <-.
  cbn [forallb] in Hall. repeat rewrite andb_true_iff in Hall.
  destruct Hall as (P1 & P2 & P3 & P4 & P5 & P6 & P7 & P8 & _).
  assert (Hpr : maxValue pr = None /\ (7 <= weight_of pr)%Z).
  { unfold checkProfitRatio in Epr.
    repeat case_match; simplify_eq; split;
      first [reflexivity | cbv; discriminate]. }
  assert (Hlq : maxValue lq = None /\ (3 <= weight_of lq)%Z).
  { unfold checkLiquidity in Elq.
    repeat case_match; simplify_eq; split;
      first [reflexivity | cbv; discriminate]. }
  assert (W1 : weight_of (checkDailyLossLimit r) = 10%Z) by reflexivity.
  assert (W2 : weight_of (checkPositionSize r o) = 8%Z) by reflexivity.
  assert (W3 : weight_of (checkGasPrice r o) = 6%Z) by reflexivity.
  assert (W5 : weight_of (checkTokenRisk r o) = 5%Z).
  { unfold checkTokenRisk.
    destruct (max_risk (tokenRiskScores r) (extractTokens o)).
    reflexivity. }
  assert (W6 : weight_of (checkDexRisk r o) = 4%Z).
  { unfold checkDexRisk.
    destruct (max_risk (dexRiskScores r) (extractDexes o)).
    reflexivity. }
  assert (W7 : weight_of (checkSlippage r o) = 6%Z) by reflexivity.
  pose proof (penalty_bound_no_limit _ P1 eq_refl) as B1.
  pose proof (penalty_bound_passed _ P2) as B2.
  pose proof (penalty_bound_passed _ P3) as B3.
  pose proof (penalty_bound_no_limit _ P4 (proj1 Hpr)) as B4.
  pose proof (penalty_bound_passed _ P5) as B5.
  pose proof (penalty_bound_passed _ P6) as B6.
  pose proof (penalty_bound_passed _ P7) as B7.
  pose proof (penalty_bound_no_limit _ P8 (proj1 Hlq)) as B8.
  cbn [total fold_right].
  rewrite W2 in B2. rewrite W3 in B3. rewrite W5 in B5.
  rewrite W6 in B6. rewrite W7 in B7.
  rewrite B1, B4, B8, W1, W2, W3, W5, W6, W7.
  destruct Hpr as [_ Hpr]. destruct Hlq as [_ Hlq].
  split; lia.
Qed.

(** The score when each of the eight checks passed, under positive
    ceilings: a finite number below 3. *)
Lemma all_passed_below_three (r : t) (o : Opportunity.t)
      (cs : list check) :
  (0 < maxPositionSize r)%Z ->
  (0 < maxGasPrice r)%Z ->
  run_checks r o = Ok cs ->
  forallb passed cs = true ->
  exists q : Q, calculateRiskScore cs = Number.Num q /\ (q < 3)%Q.
Proof.
  intros Hpos Hgas E Hall.
  pose proof (run_checks_limits r o cs Hpos Hgas E) as Hf.
  destruct (run_checks_weights r o cs E) as [Hlen _].
  destruct (run_checks_all_passed_totals r o cs E Hall) as [HB HW].
  destruct (calculateRiskScore_bounded cs) as (q & Eq & _ & Hq & _);
    [eapply run_checks_nonempty; exact E | rewrite Hlen; lia | exact Hf |].
  exists q. split; [exact Eq |].
  assert (Hr : (inject_Z (total penalty_bound cs)
                / inject_Z (total weight_of cs) <= 145 # 49)%Q).
  { assert (HWq : (0 < inject_Z (total weight_of cs))%Q).
    { replace 0%Q with (inject_Z 0) by reflexivity.
      rewrite <- Zlt_Qlt. lia. }
    apply Qle_shift_div_r; [exact HWq |].
    assert (H1 : (inject_Z (total penalty_bound cs) <= 145)%Q).
    { replace 145%Q with (inject_Z 145) by reflexivity.
      rewrite <- Zle_Qle. exact HB. }
    assert (H2 : (49 <= inject_Z (total weight_of cs))%Q).
    { replace 49%Q with (inject_Z 49) by reflexivity.
      rewrite <- Zle_Qle. exact HW. }
    lra. }
  apply double_mono in Hr.
  assert (H3 : (Number.double (145 # 49) < 3)%Q) by reflexivity.
  lra.
Qed.

End ScoreRange.

(** X11.  The score that an assessment reports lies between 0 and 10 when the
    configured ceilings are positive and the amount and the gas price of
    the opportunity are not negative, and it is at most 5 when every check
    passed: a passed check adds at most half of its weight's share. *)
Theorem assessment_score_range :
  forall (r : RiskManager.t) (o : Opportunity.t)
         (cs : list RiskManager.check),
    0 < RiskManager.maxPositionSize r ->
    0 < RiskManager.maxGasPrice r ->
    0 <= default 0 (Opportunity.bn_or (Opportunity.amount o)
                                      (Opportunity.inputAmount o)) ->
    0 <= default RiskManager.getGasPrice (Opportunity.gasPrice o) ->
    RiskManager.run_checks r o = Ok cs ->
    exists q : Q,
      RiskManager.calculateRiskScore cs = Number.Num q
      /\ (0 <= q)%Q
      /\ (q <= 10)%Q
      /\ (forallb RiskManager.passed cs = true -> (q <= 5)%Q).
Proof.
  intros r o cs Hpos Hgas Ha Hg E.
  pose proof (run_checks_limits r o cs Hpos Hgas E) as Hf.
  destruct (run_checks_weights r o cs E) as [Hlen _].
  pose proof (run_checks_values_nonneg r o cs Ha Hg E) as Hnn.
  destruct (calculateRiskScore_bounded cs) as (q & Eq & H10 & _ & H0);
    [eapply run_checks_nonempty; exact E | rewrite Hlen; lia | exact Hf |].
  exists q. split; [exact Eq |]. split; [exact (H0 Hnn) |].
  split; [exact H10 |].
  intros Hall.
  destruct (all_passed_below_three r o cs Hpos Hgas E Hall)
    as (q' & Eq' & H3).
  rewrite Eq in Eq'. injection Eq' as <-. lra.
Qed.

Lemma assessment_score_range_witness :
  exists (cs : list RiskManager.check) (q : Q),
    RiskManager.run_checks Scenario.riskManager Scenario.arbitrage = Ok cs
    /\ RiskManager.calculateRiskScore cs = Number.Num q
    /\ (0 <= q)%Q
    /\ (q <= 5)%Q.
Proof.
  destruct (RiskManager.run_checks Scenario.riskManager Scenario.arbitrage)
    as [cs | msg] eqn:E; [| vm_compute in E; discriminate].
  destruct (assessment_score_range Scenario.riskManager Scenario.arbitrage
              cs) as (q & Eq & H0 & _ & H5);
    [reflexivity | reflexivity | vm_compute; discriminate
     | vm_compute; discriminate | exact E |].
  exists cs, q. split; [reflexivity |]. split; [exact Eq |].
  split; [exact H0 |]. apply H5.
  vm_compute in E. injection E as <-. vm_compute. reflexivity.
Defined.

(** X12.  With a ceiling above 5, as the 7 of the shipped configuration is, the
    composite score never decides: an opportunity is approved exactly when
    the eight checks complete and every one of them passes.  The ceilings
    on position size and gas price are taken to be positive. *)
Theorem approval_is_decided_by_the_checks :
  forall (calculatePositionSize : Opportunity.t -> Number.t -> Z)
         (today : string) (now : Z) (o : Opportunity.t) (r : RiskManager.t)
         (ceiling : Q),
    0 < RiskManager.maxPositionSize r ->
    0 < RiskManager.maxGasPrice r ->
    RiskManager.maxRiskScore (RiskManager.cfg r) = Some ceiling ->
    (5 < ceiling)%Q ->
    RiskManager.approved
      (snd (RiskManager.assessOpportunity calculatePositionSize
              today now o r)) = true
    <-> exists cs,
          RiskManager.run_checks (RiskManager.checkDailyReset today r) o
          = Ok cs
          /\ forallb RiskManager.passed cs = true.
Proof.
  intros sizer today now o r ceiling Hpos Hgas Hc H5.
  destruct (checkDailyReset_limits today r) as (_ & Ep & Eg).
  pose proof (checkDailyReset_cfg today r) as Ecfg.
  unfold RiskManager.assessOpportunity.
  destruct (RiskManager.run_checks
              (RiskManager.checkDailyReset today r) o) as [cs | msg] eqn:E;
    simpl.
  - rewrite filter_failed_nil, Ecfg, Hc. simpl.
    split.
    + intros H. apply andb_true_iff in H. exists cs. tauto.
    + intros (cs' & Ecs & Hall). injection Ecs as <-.
      rewrite Hall. simpl.
      destruct (all_passed_below_three
                  (RiskManager.checkDailyReset today r) o cs)
        as (q & -> & H3); [lia | lia | exact E | exact Hall |].
      unfold Number.lit. simpl. apply negb_true_iff, Qle_bool_false.
      assert (H3c : (3 <= ceiling)%Q) by lra.
      apply double_mono in H3c.
      assert (E3 : (Number.double 3 == 3)%Q)
        by (apply (double_Z 3); reflexivity).
      lra.
  - split; [discriminate |]. intros (cs & Ecs & _). discriminate.
Qed.

Lemma approval_is_decided_by_the_checks_witness :
  RiskManager.approved
    (snd (RiskManager.assessOpportunity Scenario.sizer
            Scenario.today Scenario.now Scenario.arbitrage
            Scenario.riskManager)) = true.
Proof.
  apply (approval_is_decided_by_the_checks Scenario.sizer Scenario.today
           Scenario.now Scenario.arbitrage Scenario.riskManager 7%Q).
  - reflexivity.
  - reflexivity.
  - reflexivity.
  - reflexivity.
  - eexists. split; [vm_compute; reflexivity | vm_compute; reflexivity].
Defined.

(** ** The risk manager: the reason of a rejection *)

(** X13.  The reason that a rejection carries is that of the first check that
    failed, in the order daily loss, position size, gas price.  When the
    day's loss has reached [maxDailyLoss] the reason is the daily loss
    limit, whatever else fails; otherwise an amount above
    [maxPositionSize] gives the position size; otherwise a gas price above
    [maxGasPrice] gives the gas price.  An opportunity that passes every
    check and is turned down by the score alone is rejected without a
    reason. *)
Theorem rejection_names_the_first_failed_check :
  forall (calculatePositionSize : Opportunity.t -> Number.t -> Z)
         (today : string) (now : Z) (o : Opportunity.t) (r : RiskManager.t)
         (cs : list RiskManager.check),
    let r0 := RiskManager.checkDailyReset today r in
    let a :=
      snd (RiskManager.assessOpportunity calculatePositionSize
             today now o r) in
    let lost := RiskManager.totalLoss (RiskManager.dailyStats r0) in
    let size :=
      default 0 (Opportunity.bn_or (Opportunity.amount o)
                                   (Opportunity.inputAmount o)) in
    let gas := default RiskManager.getGasPrice (Opportunity.gasPrice o) in
    RiskManager.run_checks r0 o = Ok cs ->
    (RiskManager.maxDailyLoss r <= lost ->
     RiskManager.approved a = false
     /\ RiskManager.assessment_reason a = Some "Daily loss limit reached")
    /\ (lost < RiskManager.maxDailyLoss r ->
        RiskManager.maxPositionSize r < size ->
        RiskManager.approved a = false
        /\ RiskManager.assessment_reason a
           = Some "Position size exceeds maximum")
    /\ (lost < RiskManager.maxDailyLoss r ->
        size <= RiskManager.maxPositionSize r ->
        RiskManager.maxGasPrice r < gas ->
        RiskManager.approved a = false
        /\ RiskManager.assessment_reason a = Some "Gas price too high")
    /\ (forallb RiskManager.passed cs = true ->
        RiskManager.approved a = false ->
        RiskManager.assessment_reason a = None).
Proof.
  intros sizer today now o r cs. cbv zeta. intros E.
  destruct (checkDailyReset_limits today r) as (El & Ep & Eg).
  unfold RiskManager.assessOpportunity. rewrite E.
  unfold RiskManager.run_checks in E.
  destruct (RiskManager.checkProfitRatio _ o) as [pr |]; [| discriminate].
  destruct (RiskManager.checkLiquidity _ o) as [lq |]; [| discriminate].
  injection E as <-.
  set (r0 := RiskManager.checkDailyReset today r) in *.
  split; [| split; [| split]].
  - intros H.
    assert (H1 : Z.ltb 0 (RiskManager.maxDailyLoss r0
                          - RiskManager.totalLoss
                              (RiskManager.dailyStats r0)) = false)
      by (apply Z.ltb_ge; lia).
    assert (H2 : Z.leb (RiskManager.maxDailyLoss r0
                        - RiskManager.totalLoss
                            (RiskManager.dailyStats r0)) 0 = true)
      by (apply Z.leb_le; lia).
    cbn [List.filter RiskManager.passed RiskManager.checkDailyLossLimit].
    rewrite H1.
    cbn [negb length Nat.eqb andb snd RiskManager.approved
         RiskManager.assessment_reason RiskManager.reason
         RiskManager.checkDailyLossLimit].
    rewrite H2. auto.
  - intros Hl Hs.
    assert (H1 : Z.ltb 0 (RiskManager.maxDailyLoss r0
                          - RiskManager.totalLoss
                              (RiskManager.dailyStats r0)) = true)
      by (apply Z.ltb_lt; lia).
    assert (H2 : Z.leb (default 0 (Opportunity.bn_or (Opportunity.amount o)
                                     (Opportunity.inputAmount o)))
                       (RiskManager.maxPositionSize r0) = false)
      by (apply Z.leb_gt; lia).
    cbn [List.filter RiskManager.passed RiskManager.checkDailyLossLimit
         RiskManager.checkPositionSize].
    rewrite H1, H2.
    cbn [negb length Nat.eqb andb snd RiskManager.approved
         RiskManager.assessment_reason RiskManager.reason
         RiskManager.checkPositionSize RiskManager.checkGasPrice].
    rewrite ?H2, ?H3. auto.
  - intros Hl Hs Hg.
    assert (H1 : Z.ltb 0 (RiskManager.maxDailyLoss r0
                          - RiskManager.totalLoss
                              (RiskManager.dailyStats r0)) = true)
      by (apply Z.ltb_lt; lia).
    assert (H2 : Z.leb (default 0 (Opportunity.bn_or (Opportunity.amount o)
                                     (Opportunity.inputAmount o)))
                       (RiskManager.maxPositionSize r0) = true)
      by (apply Z.leb_le; lia).
    assert (H3 : Z.leb (default RiskManager.getGasPrice
                          (Opportunity.gasPrice o))
                       (RiskManager.maxGasPrice r0) = false)
      by (apply Z.leb_gt; lia).
    cbn [List.filter RiskManager.passed RiskManager.checkDailyLossLimit
         RiskManager.checkPositionSize RiskManager.checkGasPrice].
    rewrite H1, H2, H3.
    cbn [negb length Nat.eqb andb snd RiskManager.approved
         RiskManager.assessment_reason RiskManager.reason
         RiskManager.checkPositionSize RiskManager.checkGasPrice].
    rewrite ?H2, ?H3. auto.
  - intros Hall.
    match goal with
    | |- context [List.filter ?f ?l] =>
        assert (Hnil : List.filter f l = [])
    end.
    { pose proof (filter_failed_nil
                    [RiskManager.checkDailyLossLimit r0;
                     RiskManager.checkPositionSize r0 o;
                     RiskManager.checkGasPrice r0 o; pr;
                     RiskManager.checkTokenRisk r0 o;
                     RiskManager.checkDexRisk r0 o;
                     RiskManager.checkSlippage r0 o; lq]) as Hf.
      rewrite Hall in Hf. apply Nat.eqb_eq in Hf.
      apply length_zero_iff_nil in Hf. exact Hf. }
    rewrite Hnil.
    cbn [length Nat.eqb andb snd RiskManager.approved
         RiskManager.assessment_reason].
    destruct (RiskManager.below_ceiling _ _); [discriminate | reflexivity].
Qed.

Lemma rejection_names_the_first_failed_check_witness :
  let costly :=
    Opportunity.with_gasPrice (Some (150 * 10 ^ 9)) Scenario.arbitrage in
  RiskManager.assessment_reason
    (snd (RiskManager.assessOpportunity Scenario.sizer Scenario.today
            Scenario.now costly Scenario.riskManager))
  = Some "Gas price too high".
Proof.
  cbv zeta.
  destruct (RiskManager.run_checks
              (RiskManager.checkDailyReset Scenario.today
                 Scenario.riskManager)
              (Opportunity.with_gasPrice (Some (150 * 10 ^ 9))
                 Scenario.arbitrage)) as [cs | msg] eqn:E;
    [| vm_compute in E; discriminate].
  destruct (rejection_names_the_first_failed_check Scenario.sizer
              Scenario.today Scenario.now
              (Opportunity.with_gasPrice (Some (150 * 10 ^ 9))
                 Scenario.arbitrage)
              Scenario.riskManager cs E) as (_ & _ & H & _).
  destruct H as [_ H];
    [reflexivity | vm_compute; discriminate | reflexivity |].
  exact H.
Defined.

(** ** The risk manager: tokens and exchanges *)
Section TokenRisk.

Import RiskManager.

Lemma set_add_In (x t : string) (s : list string) :
  In t (set_add x s) <-> t = x \/ In t s.
Proof.
  unfold set_add. destruct (existsb (String.eqb x) s) eqn:E.
  - split; [auto |]. intros [-> | H]; [| exact H].
    apply existsb_exists in E. destruct E as (y & Hy & Exy).
    apply String.eqb_eq in Exy. subst y. exact Hy.
  - rewrite in_app_iff. simpl. intuition.
Qed.

Lemma set_add_NoDup (x : string) (s : list string) :
  NoDup s -> NoDup (set_add x s).
Proof.
  intros H. unfold set_add. destruct (existsb (String.eqb x) s) eqn:E.
  - exact H.
  - apply NoDup_app. split; [exact H |]. split; [| apply NoDup_singleton].
    intros y Hy Hx. apply list_elem_of_singleton in Hx. subst y.
    apply list_elem_of_In in Hy.
    assert (existsb (String.eqb x) s = true); [| congruence].
    apply existsb_exists. exists x. split; [exact Hy |].
    apply String.eqb_refl.
Qed.

Lemma add_if_truthy_In (x : option string) (t : string) (s : list string) :
  In t (add_if_truthy x s) <-> (x = Some t /\ t <> "") \/ In t s.
Proof.
  unfold add_if_truthy, truthy_str. destruct x as [v |].
  - destruct (String.eqb_spec v ""); simpl.
    + split; [auto |]. intros [[E Hne] | H]; [| exact H].
      congruence.
    + rewrite set_add_In. split.
      * intros [-> | H]; auto.
      * intros [[E Hne] | H]; [left; congruence | auto].
  - split; [auto |]. intros [[E _] | H]; [discriminate | exact H].
Qed.

Lemma add_if_truthy_NoDup (x : option string) (s : list string) :
  NoDup s -> NoDup (add_if_truthy x s).
Proof.
  intros H. unfold add_if_truthy. destruct x as [v |]; [| exact H].
  destruct (truthy_str (Some v)); [| exact H].
  apply set_add_NoDup. exact H.
Qed.

Lemma fold_set_add_In (p : list string) (t : string) (s : list string) :
  In t (fold_left (fun s tok => set_add tok s) p s) <-> In t p \/ In t s.
Proof.
  revert s. induction p as [| x p IH]; intros s; simpl.
  - tauto.
  - rewrite IH, set_add_In. intuition.
Qed.

Lemma fold_set_add_NoDup (p : list string) (s : list string) :
  NoDup s -> NoDup (fold_left (fun s tok => set_add tok s) p s).
Proof.
  revert s. induction p as [| x p IH]; intros s H; simpl; [exact H |].
  apply IH, set_add_NoDup, H.
Qed.

Lemma fold_quotes_In (qs : list Opportunity.quote) (t : string)
      (s : list string) :
  In t (fold_left (fun s q => add_if_truthy (Opportunity.quote_dex q) s)
          qs s)
  <-> (exists q, In q qs /\ Opportunity.quote_dex q = Some t /\ t <> "")
      \/ In t s.
Proof.
  revert s. induction qs as [| q qs IH]; intros s; simpl.
  - split; [auto |]. intros [(q & [] & _) | H]; exact H.
  - rewrite IH, add_if_truthy_In. split.
    + intros [(q0 & Hq & E) | [E | H]].
      * left. exists q0. split; [right; exact Hq | exact E].
      * left. exists q. split; [left; reflexivity | exact E].
      * right. exact H.
    + intros [(q0 & [<- | Hq] & E) | H].
      * right. left. exact E.
      * left. exists q0. split; assumption.
      * right. right. exact H.
Qed.

Lemma fold_quotes_NoDup (qs : list Opportunity.quote) (s : list string) :
  NoDup s ->
  NoDup (fold_left (fun s q => add_if_truthy (Opportunity.quote_dex q) s)
           qs s).
Proof.
  revert s. induction qs as [| q qs IH]; intros s H; simpl; [exact H |].
  apply IH, add_if_truthy_NoDup, H.
Qed.

(** What the loop of [checkTokenRisk] and [checkDexRisk] computes. *)
Lemma max_risk_fold (scores : gmap string Q) (keys : list string)
      (acc : Q * option string) :
  let risk k := or_default_q (scores !! k) 5 in
  let res :=
    fold_left
      (fun acc k =>
         if Qlt_bool (fst acc) (risk k) then (risk k, Some k) else acc)
      keys acc in
  (fst acc <= fst res)%Q
  /\ (forall k, In k keys -> (risk k <= fst res)%Q)
  /\ (res = acc
      \/ exists k, In k keys /\ snd res = Some k /\ fst res = risk k).
Proof.
  cbv zeta. revert acc. induction keys as [| k keys IH]; intros acc; simpl.
  - split; [lra |]. split; [tauto | auto].
  - set (acc' := if Qlt_bool (fst acc) (or_default_q (scores !! k) 5)
                 then (or_default_q (scores !! k) 5, Some k) else acc).
    destruct (IH acc') as (H1 & H2 & H3).
    assert (Ha : (fst acc <= fst acc')%Q
                 /\ (or_default_q (scores !! k) 5 <= fst acc')%Q
                 /\ (acc' = acc
                     \/ acc' = (or_default_q (scores !! k) 5, Some k))).
    { subst acc'.
      destruct (Qlt_bool (fst acc) (or_default_q (scores !! k) 5)) eqn:E.
      - apply Qlt_bool_iff in E. simpl. split; [lra |]. split; [lra | auto].
      - assert (~ (fst acc < or_default_q (scores !! k) 5)%Q).
        { intros H. apply Qlt_bool_iff in H. congruence. }
        split; [lra |]. split; [lra | auto]. }
    destruct Ha as (Ha1 & Ha2 & Ha3).
    split; [lra |]. split.
    + intros k' [<- | Hk]; [lra | auto].
    + destruct H3 as [-> | (k' & Hk & E1 & E2)].
      * destruct Ha3 as [-> | ->]; [auto |].
        right. exists k. simpl. auto.
      * right. exists k'. auto.
Qed.

Lemma max_risk_passes (scores : gmap string Q) (keys : list string)
      (allowed : Q) :
  Qle_bool (fst (max_risk scores keys)) allowed = true
  <-> (0 <= allowed)%Q
      /\ forall k, In k keys ->
                   (or_default_q (scores !! k) 5 <= allowed)%Q.
Proof.
  rewrite Qle_bool_iff. unfold max_risk.
  destruct (max_risk_fold scores keys (0%Q, None)) as (H1 & H2 & H3).
  cbv zeta in *. simpl in H1. split.
  - intros H. split; [lra |]. intros k Hk. specialize (H2 k Hk). lra.
  - intros [H0 H]. destruct H3 as [-> | (k & Hk & _ & ->)].
    + exact H0.
    + apply H, Hk.
Qed.

Lemma max_risk_risky (scores : gmap string Q) (keys : list string)
      (allowed : Q) :
  (0 <= allowed)%Q ->
  Qle_bool (fst (max_risk scores keys)) allowed = false ->
  exists k, snd (max_risk scores keys) = Some k /\ In k keys
            /\ (allowed < or_default_q (scores !! k) 5)%Q.
Proof.
  intros H0 Hf. unfold max_risk in *.
  destruct (max_risk_fold scores keys (0%Q, None)) as (H1 & H2 & H3).
  cbv zeta in *.
  assert (Hn : ~ (fst (fold_left
                         (fun acc k =>
                            if Qlt_bool (fst acc)
                                 (or_default_q (scores !! k) 5)
                            then (or_default_q (scores !! k) 5, Some k)
                            else acc) keys (0%Q, None)) <= allowed)%Q).
  { intros H. apply Qle_bool_iff in H. congruence. }
  destruct H3 as [E | (k & Hk & E1 & E2)].
  - rewrite E in Hn. simpl in Hn. contradiction.
  - exists k. split; [exact E1 |]. split; [exact Hk |].
    rewrite <- E2. lra.
Qed.

End TokenRisk.

(** X14.  [extractTokens] and [extractDexes] list every name once.  A token is
    listed exactly when it is the non-empty [tokenA], [tokenB] or [asset]
    of the opportunity or any element of its [path]; an exchange exactly
    when it is the non-empty [dex], [buyDex], [sellDex] or the non-empty
    [dex] of one of the quotes. *)
Theorem tokens_and_exchanges_are_listed_once :
  forall (o : Opportunity.t),
    NoDup (RiskManager.extractTokens o)
    /\ NoDup (RiskManager.extractDexes o)
    /\ (forall t,
          In t (RiskManager.extractTokens o)
          <-> (Opportunity.tokenA o = Some t /\ t <> "")
              \/ (Opportunity.tokenB o = Some t /\ t <> "")
              \/ (exists p, Opportunity.path o = Some p /\ In t p)
              \/ (Opportunity.asset o = Some t /\ t <> ""))
    /\ (forall d,
          In d (RiskManager.extractDexes o)
          <-> (Opportunity.dex o = Some d /\ d <> "")
              \/ (Opportunity.buyDex o = Some d /\ d <> "")
              \/ (Opportunity.sellDex o = Some d /\ d <> "")
              \/ (exists qs q, Opportunity.quotes o = Some qs /\ In q qs
                               /\ Opportunity.quote_dex q = Some d
                               /\ d <> "")).
Proof.
  intros o. unfold RiskManager.extractTokens, RiskManager.extractDexes.
  split; [| split; [| split]].
  - apply add_if_truthy_NoDup.
    destruct (Opportunity.path o) as [p |].
    + apply fold_set_add_NoDup.
      do 2 apply add_if_truthy_NoDup. constructor.
    + do 2 apply add_if_truthy_NoDup. constructor.
  - destruct (Opportunity.quotes o) as [qs |].
    + apply fold_quotes_NoDup.
      do 3 apply add_if_truthy_NoDup. constructor.
    + do 3 apply add_if_truthy_NoDup. constructor.
  - intros t. rewrite add_if_truthy_In.
    destruct (Opportunity.path o) as [p |].
    + rewrite fold_set_add_In, !add_if_truthy_In. simpl. split.
      * intros [H | [H | [H | [H | []]]]]; auto.
        right. right. left. exists p. auto.
      * intros [H | [H | [(p' & E & H) | H]]]; auto.
        injection E as <-. auto.
    + rewrite !add_if_truthy_In. simpl. split.
      * intros [H | [H | [H | []]]]; auto.
      * intros [H | [H | [(p' & E & H) | H]]]; auto. discriminate.
  - intros d.
    destruct (Opportunity.quotes o) as [qs |].
    + rewrite fold_quotes_In, !add_if_truthy_In. simpl. split.
      * intros [(q & Hq & E) | [H | [H | [H | []]]]]; auto.
        right. right. right. exists qs, q. auto.
      * intros [H | [H | [H | (qs' & q & E & Hq & H)]]]; auto.
        injection E as <-. left. exists q. auto.
    + rewrite !add_if_truthy_In. simpl. split.
      * intros [H | [H | [H | []]]]; auto.
      * intros [H | [H | [H | (qs' & q & E & _)]]]; auto. discriminate.
Qed.

(** X15.  The token check passes exactly when the threshold is not negative and
    every listed token scores within it, a token without a score of its
    own (or scored 0) counting as 5; the same holds of the exchange check.
    When the token check fails under a threshold that is not negative, the
    token it names is one of the opportunity's and scores above the
    threshold. *)
Theorem risk_check_passes_iff_every_score_is_within :
  forall (r : RiskManager.t) (o : Opportunity.t),
    let tokenRisk t :=
      RiskManager.or_default_q (RiskManager.tokenRiskScores r !! t) 5 in
    let dexRisk d :=
      RiskManager.or_default_q (RiskManager.dexRiskScores r !! d) 5 in
    let maxToken :=
      RiskManager.or_default_q
        (RiskManager.maxTokenRisk (RiskManager.cfg r)) 5 in
    let maxDex :=
      RiskManager.or_default_q
        (RiskManager.maxDexRisk (RiskManager.cfg r)) 5 in
    (RiskManager.passed (RiskManager.checkTokenRisk r o) = true
     <-> (0 <= maxToken)%Q
         /\ forall t, In t (RiskManager.extractTokens o) ->
                      (tokenRisk t <= maxToken)%Q)
    /\ (RiskManager.passed (RiskManager.checkDexRisk r o) = true
        <-> (0 <= maxDex)%Q
            /\ forall d, In d (RiskManager.extractDexes o) ->
                         (dexRisk d <= maxDex)%Q)
    /\ ((0 <= maxToken)%Q ->
        RiskManager.passed (RiskManager.checkTokenRisk r o) = false ->
        exists t,
          RiskManager.riskyToken (RiskManager.checkTokenRisk r o) = Some t
          /\ In t (RiskManager.extractTokens o)
          /\ (maxToken < tokenRisk t)%Q).
Proof.
  intros r o. cbv zeta.
  pose proof (max_risk_passes (RiskManager.tokenRiskScores r)
                (RiskManager.extractTokens o)) as Ht.
  pose proof (max_risk_passes (RiskManager.dexRiskScores r)
                (RiskManager.extractDexes o)) as Hd.
  pose proof (max_risk_risky (RiskManager.tokenRiskScores r)
                (RiskManager.extractTokens o)) as Hr.
  unfold RiskManager.checkTokenRisk, RiskManager.checkDexRisk.
  destruct (RiskManager.max_risk (RiskManager.tokenRiskScores r)
              (RiskManager.extractTokens o)) as [mt rt].
  destruct (RiskManager.max_risk (RiskManager.dexRiskScores r)
              (RiskManager.extractDexes o)) as [md rd].
  simpl in *. split; [apply Ht |]. split; [apply Hd |]. apply Hr.
Qed.

Lemma risk_check_passes_iff_every_score_is_within_witness :
  let strict :=
    RiskManager.new
      {| RiskManager.maxPositionETH := None;
         RiskManager.maxDailyLossETH := None;
         RiskManager.maxGasGwei := None;
         RiskManager.cfg_minProfitRatio := None;
         RiskManager.maxRiskScore := Some 7%Q;
         RiskManager.maxTokenRisk := Some 2%Q;
         RiskManager.maxDexRisk := None;
         RiskManager.maxSlippageBps := None |} Scenario.today in
  RiskManager.passed
    (RiskManager.checkTokenRisk strict Scenario.arbitrage) = true.
Proof.
  cbv zeta.
  apply (risk_check_passes_iff_every_score_is_within
           (RiskManager.new
              {| RiskManager.maxPositionETH := None;
                 RiskManager.maxDailyLossETH := None;
                 RiskManager.maxGasGwei := None;
                 RiskManager.cfg_minProfitRatio := None;
                 RiskManager.maxRiskScore := Some 7%Q;
                 RiskManager.maxTokenRisk := Some 2%Q;
                 RiskManager.maxDexRisk := None;
                 RiskManager.maxSlippageBps := None |} Scenario.today)
           Scenario.arbitrage).
  split; [vm_compute; discriminate |].
  intros t Ht. vm_compute in Ht.
  destruct Ht as [<- | [<- | []]]; vm_compute; discriminate.
Defined.

Section ShippedScores.

Import RiskManager.

Lemma set_all_lookup (kvs : list (string * Q)) (m : gmap string Q)
      (k : string) (v : Q) :
  set_all kvs m !! k = Some v -> In (k, v) kvs \/ m !! k = Some v.
Proof.
  unfold set_all. revert m.
  induction kvs as [| [k' v'] kvs IH]; intros m H; simpl in *; [auto |].
  destruct (IH _ H) as [Hin | Hm]; [auto |].
  destruct (decide (k' = k)) as [-> | Hne].
  - rewrite lookup_insert_eq in Hm. injection Hm as ->. auto.
  - rewrite lookup_insert_ne in Hm by exact Hne. auto.
Qed.

Lemma shipped_scores_le_five (kvs : list (string * Q)) (k : string) :
  Forall (fun kv => (snd kv <= 5)%Q) kvs ->
  (or_default_q (set_all kvs ∅ !! k) 5 <= 5)%Q.
Proof.
  intros Hall. unfold or_default_q.
  destruct (set_all kvs ∅ !! k) as [v |] eqn:E; [| lra].
  destruct (Qeq_bool v 0); [lra |].
  destruct (set_all_lookup _ _ _ _ E) as [Hin | Hm].
  - rewrite Forall_forall in Hall.
    apply list_elem_of_In in Hin. exact (Hall _ Hin).
  - rewrite lookup_empty in Hm. discriminate.
Qed.

Lemma tokenScores_le_five : Forall (fun kv => (snd kv <= 5)%Q) tokenScores.
Proof. repeat constructor; simpl; lra. Qed.

Lemma dexScores_le_five : Forall (fun kv => (snd kv <= 5)%Q) dexScores.
Proof. repeat constructor; simpl; lra. Qed.

Lemma estimateSlippage_le (o : Opportunity.t) : (estimateSlippage o <= 20)%Q.
Proof. unfold estimateSlippage. repeat case_match; discriminate. Qed.

End ShippedScores.

(** X16.  With the scores that the constructor installs, a threshold of 5 or
    more, which is what a configuration without [maxTokenRisk] or
    [maxDexRisk] gives, lets every opportunity through the token check and
    the exchange check, whatever tokens and exchanges it names: a name
    without a score counts as 5, and 5 is within the threshold.  In the
    same way the slippage check lets every opportunity through when
    [maxSlippageBps] is 20 or more, 50 being the default. *)
Theorem default_thresholds_reject_no_token_exchange_or_slippage :
  forall (c : RiskManager.config) (today : string) (o : Opportunity.t),
    let r := RiskManager.new c today in
    ((5 <= RiskManager.or_default_q (RiskManager.maxTokenRisk c) 5)%Q ->
     RiskManager.passed (RiskManager.checkTokenRisk r o) = true)
    /\ ((5 <= RiskManager.or_default_q (RiskManager.maxDexRisk c) 5)%Q ->
        RiskManager.passed (RiskManager.checkDexRisk r o) = true)
    /\ ((20 <= RiskManager.or_default_q (RiskManager.maxSlippageBps c) 50)%Q
        -> RiskManager.passed (RiskManager.checkSlippage r o) = true).
Proof.
  intros c today o. cbv zeta.
  pose proof (max_risk_passes
                (RiskManager.tokenRiskScores (RiskManager.new c today))
                (RiskManager.extractTokens o)) as Ht.
  pose proof (max_risk_passes
                (RiskManager.dexRiskScores (RiskManager.new c today))
                (RiskManager.extractDexes o)) as Hd.
  unfold RiskManager.checkTokenRisk, RiskManager.checkDexRisk,
    RiskManager.checkSlippage.
  destruct (RiskManager.max_risk
              (RiskManager.tokenRiskScores (RiskManager.new c today))
              (RiskManager.extractTokens o)) as [mt rt].
  destruct (RiskManager.max_risk
              (RiskManager.dexRiskScores (RiskManager.new c today))
              (RiskManager.extractDexes o)) as [md rd].
  cbn [RiskManager.passed RiskManager.cfg RiskManager.new
       RiskManager.tokenRiskScores RiskManager.dexRiskScores fst] in *.
  split; [| split].
  - intros H. apply Ht. split; [lra |]. intros k _.
    pose proof (shipped_scores_le_five RiskManager.tokenScores k
                  tokenScores_le_five). lra.
  - intros H. apply Hd. split; [lra |]. intros k _.
    pose proof (shipped_scores_le_five RiskManager.dexScores k
                  dexScores_le_five). lra.
  - intros H. apply Qle_bool_iff.
    pose proof (estimateSlippage_le o). lra.
Qed.

Lemma default_thresholds_reject_no_token_exchange_or_slippage_witness :
  let unknown :=
    Opportunity.with_gasPrice None Scenario.arbitrage in
  RiskManager.passed
    (RiskManager.checkTokenRisk Scenario.riskManager unknown) = true
  /\ RiskManager.passed
       (RiskManager.checkSlippage Scenario.riskManager unknown) = true.
Proof.
  cbv zeta.
  destruct (default_thresholds_reject_no_token_exchange_or_slippage
              RiskManager.default_config
              Scenario.today
              (Opportunity.with_gasPrice None Scenario.arbitrage))
    as (H1 & _ & H3).
  split; [apply H1 | apply H3]; vm_compute; discriminate.
Defined.

(** ** The provider pool: statistics, order and fallback *)
Section ProviderStats.

Import ProviderManager.

Lemma lastn_app_lastn {A : Type} (n : nat) (l k : list A) :
  lastn n (lastn n l ++ k) = lastn n (l ++ k).
Proof.
  unfold lastn.
  rewrite <- (drop_app_le l k (length l - n)) by lia.
  rewrite drop_drop. f_equal.
  rewrite length_drop, !length_app. lia.
Qed.

Lemma lastn_short {A : Type} (n : nat) (l : list A) :
  (length l <= n)%nat -> lastn n l = l.
Proof.
  intros H. unfold lastn.
  replace (length l - n)%nat with 0%nat by lia. reflexivity.
Qed.

Lemma length_lastn {A : Type} (n : nat) (l : list A) :
  (length (lastn n l) <= n)%nat.
Proof. unfold lastn. rewrite length_drop. lia. Qed.

Lemma push_latency_lastn (lat : Z) (l : list Z) :
  (length l <= 100)%nat -> push_latency lat l = lastn 100 (l ++ [lat]).
Proof.
  intros H. unfold push_latency, lastn.
  rewrite length_app. simpl length.
  destruct (Nat.ltb_spec 100 (length l + 1)) as [Hlt | Hge].
  - replace (length l + 1 - 100)%nat with 1%nat by lia.
    destruct l; reflexivity.
  - replace (length l + 1 - 100)%nat with 0%nat by lia. reflexivity.
Qed.

Lemma updateStats_requests ok lat s :
  requests (updateStats ok lat s) = S (requests s).
Proof. unfold updateStats. destruct ok; reflexivity. Qed.

Lemma updateStats_errors ok lat s :
  errors (updateStats ok lat s)
  = (errors s + if ok then 0 else 1)%nat.
Proof. unfold updateStats. destruct ok; simpl; lia. Qed.

Lemma updateStats_latency ok lat s :
  (length (latency s) <= 100)%nat ->
  latency (updateStats ok lat s)
  = lastn 100 (latency s ++ if ok then [lat] else []).
Proof.
  intros H. unfold updateStats. destruct ok; simpl.
  - apply push_latency_lastn, H.
  - rewrite app_nil_r, lastn_short; auto.
Qed.

Lemma updateStats_unhealthy ok lat s :
  healthy s = false -> healthy (updateStats ok lat s) = false.
Proof.
  intros H. unfold updateStats. destruct ok; simpl; [exact H |].
  rewrite H. destruct (_ && _); reflexivity.
Qed.

Lemma updateStats_marks ok lat s :
  healthy s = true ->
  healthy (updateStats ok lat s) = false ->
  ok = false /\ (10 < S (requests s))%nat
  /\ (S (requests s) < 2 * S (errors s))%nat.
Proof.
  intros H. unfold updateStats. destruct ok; simpl; [congruence |].
  rewrite H.
  destruct (Nat.ltb_spec 10 (S (requests s))) as [H10 |]; simpl;
    [| discriminate].
  destruct (Qle_bool _ _) eqn:E; simpl; [discriminate |].
  intros _. split; [reflexivity |]. split; [exact H10 |].
  assert (Hn : ~ (inject_Z (Z.of_nat (S (errors s)))
                  / inject_Z (Z.of_nat (S (requests s))) <= 1 # 2)%Q).
  { intros Hle. apply Qle_bool_iff in Hle. congruence. }
  destruct (Nat.lt_ge_cases (S (requests s)) (2 * S (errors s)))
    as [Hlt | Hge]; [exact Hlt |].
  exfalso. apply Hn.
  apply Qle_shift_div_r.
  - unfold Qlt. simpl. lia.
  - unfold Qle. simpl. lia.
Qed.

End ProviderStats.

(** X17.  The statistics of a provider after any run of calls recorded by
    [updateProviderStats], from statistics that hold at most 100
    latencies: every call is counted as a request and every failed one as
    an error; the latencies are the last 100 of those on record followed
    by those of the successful calls, in order; a provider that was
    unhealthy stays so, and one that was healthy and is not any more has
    more than ten requests on record. *)
Theorem provider_statistics_track_the_calls :
  forall (calls : list (bool * Z)) (s : ProviderManager.stats),
    (length (ProviderManager.latency s) <= 100)%nat ->
    let s' := ProviderManager.record_calls calls s in
    let failed := List.filter (fun c => negb (fst c)) calls in
    let succeeded := List.filter (fun c => fst c) calls in
    ProviderManager.requests s'
    = (ProviderManager.requests s + length calls)%nat
    /\ ProviderManager.errors s'
       = (ProviderManager.errors s + length failed)%nat
    /\ ProviderManager.latency s'
       = ProviderManager.lastn 100
           (ProviderManager.latency s ++ map snd succeeded)
    /\ (ProviderManager.healthy s = false ->
        ProviderManager.healthy s' = false)
    /\ (ProviderManager.healthy s = true ->
        ProviderManager.healthy s' = false ->
        (10 < ProviderManager.requests s')%nat /\ failed <> []).
Proof.
  intros calls. cbv zeta. unfold ProviderManager.record_calls.
  induction calls as [| [ok lat] calls IH]; intros s Hlen.
  - simpl. rewrite app_nil_r, lastn_short by exact Hlen.
    repeat split; try lia; congruence.
  - cbn [fold_left fst snd List.filter].
    assert (Hlen' : (length (ProviderManager.latency
                               (ProviderManager.updateStats ok lat s))
                     <= 100)%nat).
    { rewrite updateStats_latency by exact Hlen. apply length_lastn. }
    destruct (IH _ Hlen') as (H1 & H2 & H3 & H4 & H5).
    rewrite H1, H2, H3, updateStats_requests, updateStats_errors,
      updateStats_latency by exact Hlen.
    split; [simpl; lia |]. split; [destruct ok; simpl; lia |].
    split; [| split].
    + rewrite lastn_app_lastn, <- app_assoc. destruct ok; reflexivity.
    + intros H. apply H4, updateStats_unhealthy, H.
    + intros Ht Hf.
      destruct (ProviderManager.healthy
                  (ProviderManager.updateStats ok lat s)) eqn:E.
      * destruct (H5 eq_refl Hf) as [Hr Hne].
        rewrite H1, updateStats_requests in Hr.
        split; [simpl; lia |].
        destruct ok; simpl; [exact Hne | discriminate].
      * destruct (updateStats_marks ok lat s Ht E) as (-> & H10 & _).
        split; [lia | simpl; discriminate].
Qed.

Lemma provider_statistics_track_the_calls_witness :
  let calls := repeat (false, 0) 11 in
  let s' := ProviderManager.record_calls calls ProviderManager.fresh in
  ProviderManager.requests s' = 11%nat
  /\ ProviderManager.errors s' = 11%nat.
Proof.
  cbv zeta.
  destruct (provider_statistics_track_the_calls
              (repeat (false, 0) 11) ProviderManager.fresh)
    as (H1 & H2 & _); [simpl; lia |].
  rewrite H1, H2. split; reflexivity.
Defined.

Section ProviderOrder.

Import ProviderManager.




Lemma insert_sorted_perm (x : provider) (l : list provider) :
  Permutation (insert_sorted x l) (x :: l).
Proof.
  induction l as [| y l IH]; simpl; [reflexivity |].
  destruct (Qle_bool (compare x y) 0); [reflexivity |].
  rewrite IH. apply perm_swap.
Qed.


Lemma updateProviderStats_names name ok lat ps :
  map _name (updateProviderStats name ok lat ps) = map _name ps
  /\ map _priority (updateProviderStats name ok lat ps) = map _priority ps.
Proof.
  unfold updateProviderStats. rewrite !map_map.
  split; apply map_ext; intros p; destruct (String.eqb _ _); reflexivity.
Qed.

Lemma sort_perm (l : list provider) :
  Permutation (fold_right insert_sorted [] l) l.
Proof.
  induction l as [| x l IH]; simpl; [reflexivity |].
  rewrite insert_sorted_perm, IH. reflexivity.
Qed.


End ProviderOrder.


(** X19.  [executeWithFallback] goes through the providers in the order of
    [getSortedProviders] and stops at the first that answers.  When it
    returns a result, that is the answer of a provider of the pool, and
    every provider ahead of it in the order threw.  When every provider
    throws, it throws the error of the last one in the order, and with an
    empty pool the error [All providers failed].  The pool holds the same
    providers, with their names and priorities, afterwards. *)
Theorem executeWithFallback_returns_the_first_answer :
  forall (A : Type) (call : ProviderManager.provider -> result A)
         (elapsed : ProviderManager.provider -> Z)
         (m : ProviderManager.t),
    let sorted := ProviderManager.getSortedProviders m in
    let run := ProviderManager.executeWithFallback call elapsed m in
    (forall r, snd run = Ok r ->
       exists before p after,
         sorted = before ++ p :: after
         /\ call p = Ok r
         /\ In p (ProviderManager.providers m)
         /\ Forall (fun q => exists e, call q = Throw e) before)
    /\ (Forall (fun q => exists e, call q = Throw e) sorted ->
        match last (map call sorted) with
        | Some failure => snd run = failure
        | None => snd run = Throw "All providers failed"
        end)
    /\ map ProviderManager._name (fst run)
       = map ProviderManager._name (ProviderManager.providers m)
    /\ map ProviderManager._priority (fst run)
       = map ProviderManager._priority (ProviderManager.providers m).
Proof.
  intros A call elapsed m. cbv zeta.
  unfold ProviderManager.executeWithFallback.
  pose proof (sort_perm (ProviderManager.providers m)) as Hperm.
  fold (ProviderManager.getSortedProviders m) in Hperm.
  generalize dependent (ProviderManager.getSortedProviders m).
  intros sorted Hperm.
  assert (G : forall ps lastError pool,
             let run := ProviderManager.try_providers call elapsed ps
                          lastError pool in
             (forall r, snd run = Ok r ->
                exists before p after,
                  ps = before ++ p :: after /\ call p = Ok r
                  /\ Forall (fun q => exists e, call q = Throw e) before)
             /\ (Forall (fun q => exists e, call q = Throw e) ps ->
                 match last (map call ps) with
                 | Some failure => snd run = failure
                 | None =>
                     snd run
                     = Throw (default "All providers failed" lastError)
                 end)
             /\ map ProviderManager._name (fst run)
                = map ProviderManager._name pool
             /\ map ProviderManager._priority (fst run)
                = map ProviderManager._priority pool).
  { induction ps as [| p ps IH]; intros lastError pool; cbv zeta.
    - simpl. split; [discriminate |]. auto.
    - cbn [ProviderManager.try_providers].
      destruct (call p) as [r | e] eqn:Ec.
      + simpl. split; [| split].
        * intros r' Hr. injection Hr as <-.
          exists [], p, ps. auto.
        * intros Hall. inversion Hall as [| ? ? [e He] _]; subst.
          congruence.
        * apply updateProviderStats_names.
      + destruct (IH (Some e)
                    (ProviderManager.updateProviderStats
                       (ProviderManager._name p) false 0 pool))
          as (H1 & H2 & H3 & H4).
        split; [| split].
        * intros r Hr. destruct (H1 r Hr) as (before & q & after & E & Hq & Hb).
          exists (p :: before), q, after. subst ps.
          split; [reflexivity |]. split; [exact Hq |].
          constructor; [eauto | exact Hb].
        * intros Hall. inversion Hall as [| ? ? _ Hrest]; subst.
          specialize (H2 Hrest).
          destruct ps as [| p' ps'].
          -- simpl. rewrite Ec. reflexivity.
          -- change (last (map call (p :: p' :: ps')))
               with (last (map call (p' :: ps'))).
             destruct (last (map call (p' :: ps'))) eqn:El; [exact H2 |].
             apply last_None in El. discriminate.
        * rewrite H3, H4.
          apply updateProviderStats_names. }
  destruct (G sorted None (ProviderManager.providers m))
    as (H1 & H2 & H3 & H4).
  split; [| split; [exact H2 | split; assumption]].
  intros r Hr. destruct (H1 r Hr) as (before & p & after & E & Hp & Hb).
  exists before, p, after. split; [exact E |]. split; [exact Hp |].
  split; [| exact Hb].
  eapply Permutation_in; [exact Hperm |].
  rewrite E. apply in_or_app. right. left. reflexivity.
Qed.

(** ** The position sizer *)
Section SizerFacts.

Import PositionSizer.

Lemma ensureWithinBounds_range (s : t) (x balance : Z) :
  let size := ensureWithinBounds s x balance in
  size <= Z.quot (balance * 90) 100
  /\ size <= Z.max (maxPositionSize s) (minPositionSize s)
  /\ Z.min (minPositionSize s) (Z.quot (balance * 90) 100) <= size.
Proof.
  cbv zeta. unfold ensureWithinBounds.
  destruct (Z.gtb_spec x (maxPositionSize s));
    match goal with
    | |- context [Z.ltb ?a ?b] => destruct (Z.ltb_spec a b)
    end;
    match goal with
    | |- context [Z.gtb ?a ?b] => destruct (Z.gtb_spec a b)
    end; lia.
Qed.

Lemma sized_range floor100 riskMultiplier safeKelly confidence
      (s : t) (o : Opportunity.t) (riskScore : Number.t) (size : Z) :
  sized floor100 riskMultiplier safeKelly confidence s o riskScore
  = Ok size ->
  exists x, size = ensureWithinBounds s x getCurrentBalance.
Proof.
  unfold sized. repeat case_match; intros; simplify_eq; eauto.
Qed.

End SizerFacts.

(** X20.  Whatever the opportunity, the risk score, the recorded trades and the
    outcome of the arithmetic on doubles, the position size that
    [calculatePositionSize] returns is at least the minimum of 0.1 ether
    and at most 9 ether, nine tenths of the balance that
    [getCurrentBalance] reports, and it exceeds the configured maximum
    only where that maximum is below the minimum.  The same holds of the
    [positionSize] of every assessment of a risk manager that sizes with
    it. *)
Theorem position_size_is_bounded :
  forall (floor100 : Q -> Z) (riskMultiplier : Q -> Q)
         (safeKelly : list PositionSizer.trade -> Q)
         (confidence : Opportunity.t -> option Q)
         (s : PositionSizer.t),
    PositionSizer.minPositionSize s = 10 ^ 17 ->
    let sizer :=
      PositionSizer.calculatePositionSize floor100 riskMultiplier
        safeKelly confidence s in
    let bounded size :=
      10 ^ 17 <= size <= 9 * 10 ^ 18
      /\ size <= Z.max (PositionSizer.maxPositionSize s) (10 ^ 17) in
    (forall o riskScore, bounded (sizer o riskScore))
    /\ (forall today now o r ok score checks failed why size at_,
          snd (RiskManager.assessOpportunity sizer today now o r)
          = RiskManager.Assessment ok score checks failed why
              (Some size) at_ ->
          bounded size).
Proof.
  intros floor100 riskMultiplier safeKelly confidence s Hmin. cbv zeta.
  assert (G : forall o riskScore,
             let size :=
               PositionSizer.calculatePositionSize floor100 riskMultiplier
                 safeKelly confidence s o riskScore in
             10 ^ 17 <= size <= 9 * 10 ^ 18
             /\ size <= Z.max (PositionSizer.maxPositionSize s) (10 ^ 17)).
  { intros o riskScore. cbv zeta.
    unfold PositionSizer.calculatePositionSize.
    destruct (PositionSizer.sized floor100 riskMultiplier safeKelly
                confidence s o riskScore) as [size | msg] eqn:E.
    - destruct (sized_range _ _ _ _ _ _ _ _ E) as [x ->].
      pose proof (ensureWithinBounds_range s x
                    PositionSizer.getCurrentBalance) as H.
      cbv zeta in H. rewrite Hmin in H.
      change (Z.quot (PositionSizer.getCurrentBalance * 90) 100)
        with (9 * 10 ^ 18) in H.
      lia.
    - rewrite Hmin. lia. }
  split; [exact G |].
  intros today now o r ok score checks failed why size at_ E.
  unfold RiskManager.assessOpportunity in E.
  destruct (RiskManager.run_checks _ o) as [cs | msg]; simpl in E;
    [| discriminate].
  injection E as _ _ _ _ _ E _.
  destruct (_ && _); [| discriminate].
  injection E as <-. apply G.
Qed.

Lemma position_size_is_bounded_witness :
  let sizer :=
    PositionSizer.calculatePositionSize
      (fun _ => 100) (fun _ => 1%Q) (fun _ => 0%Q)
      (fun _ => None) (PositionSizer.new None) in
  10 ^ 17 <= sizer Scenario.arbitrage (Number.lit (29 # 51)) <= 9 * 10 ^ 18.
Proof.
  cbv zeta.
  destruct (position_size_is_bounded
              (fun _ => 100) (fun _ => 1%Q) (fun _ => 0%Q)
              (fun _ => None) (PositionSizer.new None) eq_refl)
    as [H _].
  apply H.
Defined.

(** X21.  What goes wrong inside [calculatePositionSize] never reaches the
    caller: the position is then the minimum.  That is the case of an
    opportunity with an expected profit whose amount is zero, where the
    profit ratio divides by zero, and of a strategy named like a property
    that every object inherits, where the limit is not a number. *)
Theorem sizing_errors_fall_back_to_the_minimum :
  forall (floor100 : Q -> Z) (riskMultiplier : Q -> Q)
         (safeKelly : list PositionSizer.trade -> Q)
         (confidence : Opportunity.t -> option Q)
         (s : PositionSizer.t) (o : Opportunity.t)
         (riskScore : Number.t),
    let size :=
      PositionSizer.calculatePositionSize floor100 riskMultiplier
        safeKelly confidence s o riskScore in
    (Opportunity.amount o = Some 0 ->
     Opportunity.expectedProfit o <> None ->
     size = PositionSizer.minPositionSize s)
    /\ (forall name,
          Opportunity.strategy o = Some name ->
          In name PositionSizer.inherited_keys ->
          size = PositionSizer.minPositionSize s)
    /\ (PositionSizer.sized floor100 riskMultiplier safeKelly confidence
          s o riskScore = Ok size
        \/ size = PositionSizer.minPositionSize s).
Proof.
  intros floor100 riskMultiplier safeKelly confidence s o riskScore.
  cbv zeta. unfold PositionSizer.calculatePositionSize.
  split; [| split].
  - intros Ha Hp.
    assert (E : exists msg,
               PositionSizer.calculateBasePosition floor100 confidence o
                 PositionSizer.getCurrentBalance = Throw msg).
    { unfold PositionSizer.calculateBasePosition. rewrite Ha.
      destruct (Opportunity.expectedProfit o) as [profit |];
        [| congruence].
      unfold RiskManager.bn_div. simpl.
      repeat case_match; eauto; discriminate. }
    destruct E as [msg E].
    unfold PositionSizer.sized. rewrite E. reflexivity.
  - intros name Hs Hin.
    assert (E : forall x, exists msg,
               PositionSizer.applyStrategyLimits x
                 (Opportunity.strategy o) = Throw msg).
    { intros x. unfold PositionSizer.applyStrategyLimits. rewrite Hs.
      assert (existsb (String.eqb name) PositionSizer.inherited_keys
              = true) as ->.
      { apply existsb_exists. exists name. split; [exact Hin |].
        apply String.eqb_refl. }
      eauto. }
    unfold PositionSizer.sized.
    destruct (PositionSizer.calculateBasePosition _ _ _ _); [| reflexivity].
    destruct (PositionSizer.applyRiskAdjustment _ _ _ _); [| reflexivity].
    destruct (E a0) as [msg ->]. reflexivity.
  - destruct (PositionSizer.sized _ _ _ _ _ _ _); auto.
Qed.

Lemma sizing_errors_fall_back_to_the_minimum_witness :
  let empty :=
    Opportunity.with_amount (Some 0) Scenario.arbitrage in
  PositionSizer.calculatePositionSize
    (fun _ => 100) (fun _ => 1%Q) (fun _ => 0%Q)
    (fun _ => None) (PositionSizer.new None) empty (Number.lit (29 # 51))
  = 10 ^ 17.
Proof.
  cbv zeta.
  destruct (sizing_errors_fall_back_to_the_minimum
              (fun _ => 100) (fun _ => 1%Q) (fun _ => 0%Q)
              (fun _ => None) (PositionSizer.new None)
              (Opportunity.with_amount (Some 0) Scenario.arbitrage)
              (Number.lit (29 # 51))) as [H _].
  cbv zeta in H. rewrite H; [reflexivity | reflexivity | discriminate].
Defined.

(** ** The executor: nonces, wallets and counters *)
Section NonceFacts.

Import Executor.

Variable getTransactionCount : string -> Z.

Lemma getNonce_other (a b : string) (e : t) :
  a <> b ->
  nonces (fst (getNonce getTransactionCount a e)) !! b = nonces e !! b.
Proof.
  intros H. unfold getNonce. simpl. apply lookup_insert_ne. exact H.
Qed.

Lemma getNonce_same (a : string) (e : t) :
  (0 <= getTransactionCount a)%Z ->
  (forall k, nonces e !! a = Some k -> (0 < k)%Z) ->
  let start := default (getTransactionCount a) (nonces e !! a) in
  snd (getNonce getTransactionCount a e) = start
  /\ nonces (fst (getNonce getTransactionCount a e)) !! a
     = Some (start + 1)
  /\ (0 <= start)%Z.
Proof.
  intros Hc Hs. cbv zeta. unfold getNonce. simpl.
  rewrite lookup_insert_eq.
  destruct (nonces e !! a) as [n |] eqn:E; simpl.
  - specialize (Hs n eq_refl).
    destruct (Z.eqb_spec n 0); [lia |]. repeat split; lia.
  - auto.
Qed.

Lemma issued_to_contiguous (a : string) (addrs : list string) (e : t) :
  (0 <= getTransactionCount a)%Z ->
  (forall k, nonces e !! a = Some k -> (0 < k)%Z) ->
  let run := getNonce_each getTransactionCount addrs e in
  let issued := issued_to a (snd run) in
  let start := default (getTransactionCount a) (nonces e !! a) in
  issued = map (fun i => start + Z.of_nat i)%Z (seq 0 (length issued))
  /\ length issued = length (List.filter (String.eqb a) addrs)
  /\ default (getTransactionCount a) (nonces (fst run) !! a)
     = (start + Z.of_nat (length issued))%Z
  /\ (forall k, nonces (fst run) !! a = Some k -> (0 < k)%Z).
Proof.
  intros Hc. cbv zeta. revert e.
  induction addrs as [| b addrs IH]; intros e Hs.
  - simpl. split; [reflexivity |]. split; [reflexivity |].
    split; [lia | exact Hs].
  - cbn [getNonce_each].
    destruct (getNonce getTransactionCount b e) as [e1 x] eqn:E1.
    destruct (getNonce_each getTransactionCount addrs e1) as [e2 xs]
      eqn:E2.
    unfold issued_to in *. cbn [snd fst List.filter].
    destruct (String.eqb_spec b a) as [-> | Hne].
    + rewrite String.eqb_refl.
      destruct (getNonce_same a e Hc Hs) as (Hx & Hst & H0).
      rewrite E1 in Hx, Hst. simpl in Hx, Hst.
      assert (Hs1 : forall k, nonces e1 !! a = Some k -> (0 < k)%Z).
      { intros k Hk. rewrite Hst in Hk. injection Hk as <-. lia. }
      specialize (IH e1 Hs1). rewrite E2 in IH. simpl in IH.
      destruct IH as (I1 & I2 & I3 & I4).
      rewrite Hst in I1, I3. simpl in I1, I3.
      cbn [map length seq snd fst].
      split; [| split; [| split]].
      * rewrite Hx. f_equal; [lia |].
        rewrite I1 at 1. rewrite <- seq_shift, map_map.
        apply map_ext. intros i. lia.
      * simpl. lia.
      * rewrite I3. lia.
      * exact I4.
    + assert (Hab : String.eqb a b = false).
      { apply String.eqb_neq. congruence. }
      rewrite Hab.
      pose proof (getNonce_other b a e Hne) as Ho.
      rewrite E1 in Ho. simpl in Ho.
      assert (Hs1 : forall k, nonces e1 !! a = Some k -> (0 < k)%Z).
      { intros k Hk. rewrite Ho in Hk. auto. }
      specialize (IH e1 Hs1). rewrite E2 in IH. simpl in IH.
      rewrite Ho in IH. exact IH.
Qed.

End NonceFacts.

(** X22.  The nonces of one address are handed out in sequence as long as
    each call of [getNonce] is awaited before the next one is made,
    whatever calls for other addresses come in between: the calls for an
    address [a] return, in order, [start], [start + 1], ..., where
    [start] is the counter stored for [a] or, without one, the pending
    count of the chain; there are as many of them as calls for [a]; and
    the next one would continue the sequence.  After [resetNonce] the
    sequence starts from the count of the chain again.  A call that
    finds a counter reads and advances it without giving way.  A call
    that finds none waits for the chain in between: two such calls that
    are under way at once, as the handlers of two opportunities make
    them, both return the count of the chain, and the counter then
    stands one above it, not two.  The count of the chain is taken not
    to be negative and a stored counter to be positive, as every counter
    that [getNonce] stores is. *)
Theorem nonces_are_handed_out_in_sequence_per_address :
  forall (getTransactionCount : string -> Z) (a : string)
         (addrs : list string) (e : Executor.t),
    0 <= getTransactionCount a ->
    (forall k, Executor.nonces e !! a = Some k -> 0 < k) ->
    let run := Executor.getNonce_each getTransactionCount addrs e in
    let issued := Executor.issued_to a (snd run) in
    let start :=
      default (getTransactionCount a) (Executor.nonces e !! a) in
    issued = map (fun i => start + Z.of_nat i) (seq 0 (length issued))
    /\ length issued = length (List.filter (String.eqb a) addrs)
    /\ snd (Executor.getNonce getTransactionCount a (fst run))
       = start + Z.of_nat (length issued)
    /\ snd (Executor.getNonce getTransactionCount a
              (Executor.resetNonce a (fst run)))
       = getTransactionCount a
    /\ (forall (b : string) (e0 : Executor.t),
          Executor.getNonce getTransactionCount b e0
          = match Executor.getNonce_start b e0 with
            | Some done => done
            | None => Executor.getNonce_resume getTransactionCount b e0
            end)
    /\ (forall k : Z,
          Executor.nonces e !! a = Some k ->
          Executor.getNonce_start a e
          = Some (Executor.set_nonces
                    (<[a := k + 1]> (Executor.nonces e)) e, k))
    /\ (Executor.nonces e !! a = None ->
        Executor.getNonce_start a e = None
        /\ exists e2 : Executor.t,
             Executor.getNonce_overlapping getTransactionCount a e
             = (e2, (getTransactionCount a, getTransactionCount a))
             /\ Executor.nonces e2 !! a = Some (getTransactionCount a + 1)).
Proof.
  intros gtc a addrs e Hc Hs. cbv zeta.
  destruct (issued_to_contiguous gtc a addrs e Hc Hs)
    as (H1 & H2 & H3 & H4).
  split; [exact H1 |]. split; [exact H2 |]. split; [| split; [| split]].
  - destruct (getNonce_same gtc a _ Hc H4) as (Hx & _).
    rewrite Hx. exact H3.
  - unfold Executor.getNonce, Executor.resetNonce. simpl.
    rewrite lookup_delete_eq. reflexivity.
  - intros b e0.
    unfold Executor.getNonce, Executor.getNonce_start,
      Executor.getNonce_resume.
    destruct (Executor.nonces e0 !! b) as [n |]; [| reflexivity].
    destruct (Z.eqb n 0); reflexivity.
  - split.
    + intros k Hk. unfold Executor.getNonce_start. rewrite Hk.
      specialize (Hs k Hk). destruct (Z.eqb_spec k 0); [lia | reflexivity].
    + intros Hn.
      assert (E : Executor.getNonce_start a e = None)
        by (unfold Executor.getNonce_start; rewrite Hn; reflexivity).
      split; [exact E |].
      unfold Executor.getNonce_overlapping. rewrite E.
      unfold Executor.getNonce_resume. eexists. split; [reflexivity |].
      simpl. apply lookup_insert_eq.
Qed.

Lemma nonces_are_handed_out_in_sequence_per_address_witness :
  Executor.issued_to "0xmain"
    (snd (Executor.getNonce_each (fun _ => 5)
            ["0xmain"; "0xburner"; "0xmain"; "0xmain"] Executor.new))
  = [5; 6; 7]
  /\ exists e2 : Executor.t,
       Executor.getNonce_overlapping (fun _ => 5) "0xmain" Executor.new
       = (e2, (5, 5))
       /\ Executor.nonces e2 !! "0xmain" = Some 6.
Proof.
  destruct (nonces_are_handed_out_in_sequence_per_address
              (fun _ => 5) "0xmain"
              ["0xmain"; "0xburner"; "0xmain"; "0xmain"] Executor.new)
    as (H1 & H2 & _ & _ & _ & _ & H7).
  - lia.
  - intros k Hk. cbn [Executor.nonces Executor.new] in Hk.
    rewrite lookup_empty in Hk. discriminate.
  - cbv zeta in H1, H2. split; [rewrite H1, H2; reflexivity |].
    destruct H7 as [_ H7]; [reflexivity |]. exact H7.
Defined.

(** X23.  [selectWallet] hands out one of the bot's own wallets.  It is a
    burner exactly when the score is above 7 or the opportunity is a
    sandwich, and the bot has a burner; in that case there always is a
    wallet.  Every other opportunity goes out from the main wallet. *)
Theorem selectWallet_separates_risky_trades :
  forall (wallets : list Executor.wallet) (o : Opportunity.t)
         (score : Number.t) (e : Executor.t),
    let risky :=
      Number.ltb (Number.of_Z 7) score = true
      \/ Opportunity.type o = Some "sandwich" in
    let has_burner :=
      exists b, In b wallets /\ Executor.is_burner b = true in
    (forall w,
       Executor.selectWallet wallets o score e = Some w ->
       In w wallets
       /\ (Executor.is_burner w = true <-> risky /\ has_burner))
    /\ (risky -> has_burner ->
        exists w, Executor.selectWallet wallets o score e = Some w)
    /\ (~ (risky /\ has_burner) ->
        Executor.selectWallet wallets o score e
        = Executor.getWallet_main wallets)
    /\ (forall q : Q,
          Number.ltb (Number.of_Z 7) (Number.Num q) = true <-> (7 < q)%Q).
Proof.
  intros wallets o score e. cbv zeta.
  assert (Hr : Number.ltb (Number.of_Z 7) score
               || bool_decide (Opportunity.type o = Some "sandwich")
               = true
               <-> Number.ltb (Number.of_Z 7) score = true
                   \/ Opportunity.type o = Some "sandwich").
  { rewrite orb_true_iff, bool_decide_eq_true. tauto. }
  assert (Hb : Nat.ltb 0 (length (List.filter Executor.is_burner wallets))
               = true
               <-> exists b, In b wallets /\ Executor.is_burner b = true).
  { rewrite Nat.ltb_lt. split.
    - intros H.
      destruct (List.filter Executor.is_burner wallets) as [| b l] eqn:E;
        [simpl in H; lia |].
      exists b. apply filter_In. rewrite E. left. reflexivity.
    - intros (b & Hin & Hbb).
      assert (In b (List.filter Executor.is_burner wallets))
        by (apply filter_In; auto).
      destruct (List.filter Executor.is_burner wallets);
        [contradiction | simpl; lia]. }
  assert (H7 : forall q : Q,
             Number.ltb (Number.of_Z 7) (Number.Num q) = true
             <-> (7 < q)%Q).
  { intros q. unfold Number.of_Z, Number.ltb.
    assert (E7 : (Number.double (inject_Z 7) == 7)%Q)
      by (apply (double_Z 7); reflexivity).
    rewrite negb_true_iff, Qle_bool_false, E7. reflexivity. }
  unfold Executor.selectWallet.
  destruct (Number.ltb (Number.of_Z 7) score
            || bool_decide (Opportunity.type o = Some "sandwich")) eqn:E1;
    destruct (Nat.ltb 0 (length (List.filter Executor.is_burner wallets)))
      eqn:E2; simpl.
  - assert (Hlt : (Executor.submitted (Executor.stats e)
                   mod length (List.filter Executor.is_burner wallets)
                   < length (List.filter Executor.is_burner wallets))%nat).
    { apply Nat.mod_upper_bound. apply Nat.ltb_lt in E2. lia. }
    split; [| split; [| split; [| exact H7]]].
    + intros w Hw. apply nth_error_In in Hw. apply filter_In in Hw.
      destruct Hw as [Hin Hbw]. split; [exact Hin |].
      split; [| intros _; exact Hbw].
      intros _. split; [apply Hr; reflexivity | apply Hb; reflexivity].
    + intros _ _.
      destruct (nth_error (List.filter Executor.is_burner wallets) _)
        as [w |] eqn:En; [eauto |].
      apply nth_error_None in En. lia.
    + intros H. exfalso. apply H. split; [apply Hr | apply Hb]; reflexivity.
  - split; [| split; [| split; [| exact H7]]].
    + intros w Hw. unfold Executor.getWallet_main in Hw.
      apply find_some in Hw. destruct Hw as [Hin Hm].
      split; [exact Hin |]. split.
      * intros Hbw. rewrite Hbw in Hm. discriminate.
      * intros [_ H]. apply Hb in H. congruence.
    + intros _ H. apply Hb in H. congruence.
    + reflexivity.
  - split; [| split; [| split; [| exact H7]]].
    + intros w Hw. unfold Executor.getWallet_main in Hw.
      apply find_some in Hw. destruct Hw as [Hin Hm].
      split; [exact Hin |]. split.
      * intros Hbw. rewrite Hbw in Hm. discriminate.
      * intros [H _]. apply Hr in H. congruence.
    + intros H _. apply Hr in H. congruence.
    + reflexivity.
  - split; [| split; [| split; [| exact H7]]].
    + intros w Hw. unfold Executor.getWallet_main in Hw.
      apply find_some in Hw. destruct Hw as [Hin Hm].
      split; [exact Hin |]. split.
      * intros Hbw. rewrite Hbw in Hm. discriminate.
      * intros [H _]. apply Hr in H. congruence.
    + intros H _. apply Hr in H. congruence.
    + reflexivity.
Qed.

Section CounterFacts.

Import Executor.

Lemma buildTransaction_stats botGasPrice getTransactionCount
      encodeLiquidation (o : Opportunity.t) (w : wallet) (e : t) :
  stats (fst (buildTransaction botGasPrice getTransactionCount
                encodeLiquidation o w e)) = stats e.
Proof.
  unfold buildTransaction, getNonce. simpl.
  repeat case_match; reflexivity.
Qed.

Lemma selectWallet_stats (wallets : list wallet) (o : Opportunity.t)
      (score : Number.t) (e e' : t) :
  stats e' = stats e ->
  selectWallet wallets o score e' = selectWallet wallets o score e.
Proof. intros H. unfold selectWallet. rewrite H. reflexivity. Qed.

(** What [executeStandard] does to the counters, and what it lets out. *)
Lemma executeStandard_counts (standard : txOutcome)
      (profitCalculator : string -> option (profitView -> option Z))
      (t0 : tx) (o : Opportunity.t) (e : t) :
  let run := caught (executeStandard standard profitCalculator t0 o e) in
  let s := stats e in
  let s' := stats (fst (fst run)) in
  submitted s' = S (submitted s)
  /\ (((snd run = [] \/ snd run = [Signed t0])
       /\ failed s' = S (failed s)
       /\ confirmed s' = confirmed s
       /\ reverted s' = reverted s
       /\ snd (fst run) = Failure "Execution error")
      \/ (snd run = [Signed t0; Sent t0]
          /\ (confirmed s + failed s + reverted s
              < confirmed s' + failed s' + reverted s')%nat)).
Proof.
  cbv zeta. unfold executeStandard.
  destruct standard as [msg | msg | msg | [|] gasCost fl]; simpl.
  - split; [reflexivity |]. left. repeat split; auto.
  - split; [reflexivity |]. left. repeat split; auto.
  - split; [reflexivity |]. right. split; [reflexivity | lia].
  - destruct (calculateActualProfit profitCalculator gasCost o); simpl;
      (split; [reflexivity |]); right; (split; [reflexivity | lia]).
  - split; [reflexivity |]. right. split; [reflexivity | lia].
Qed.

End CounterFacts.

(** X24.  [stats.submitted] counts plain transactions only, and it counts
    them before they are signed.  An execution either leaves it as it
    was or adds one to it; a sandwich, a flash loan and a bundle are not
    counted.  Where one is added, [executeStandard] ran on the single
    transaction that was built: either the signature or the submission
    threw, so that nothing or only the signature left the process,
    [stats.failed] went up by one as well and the result is 'Execution
    error'; or the transaction was signed and sent, and one at least of
    [confirmed], [failed] and [reverted] went up.  An execution that does
    not count and lets nothing out leaves all four counters alone.  A
    sandwich leaves them alone in any case, so that the burner of one
    sandwich is the burner of the next: the rotation of [selectWallet]
    advances with plain transactions only. *)
Theorem only_plain_transactions_count_as_submitted :
  forall (wallets : list Executor.wallet)
         (strategies : gmap string Executor.strategyConfig)
         (botGasPrice : Z) (getTransactionCount : string -> Z)
         (simulateTransaction :
            Executor.built -> result Executor.simulationRaw)
         (outcome : Executor.chainOutcome)
         (standard : Executor.txOutcome)
         (profitCalculator :
            string -> option (Executor.profitView -> option Z))
         (encodeLiquidation :
            option string -> option string -> option Z -> string)
         (o : Opportunity.t) (score : Number.t) (e : Executor.t),
    let run :=
      Executor.execute wallets strategies botGasPrice getTransactionCount
        simulateTransaction outcome standard profitCalculator
        encodeLiquidation o score e in
    let s := Executor.stats e in
    let s' := Executor.stats (fst (fst run)) in
    (Executor.submitted s' = Executor.submitted s
     \/ Executor.submitted s' = S (Executor.submitted s))
    /\ (Opportunity.type o = Some "sandwich"
        \/ Opportunity.type o = Some "flashloan"
        \/ Opportunity.requiresBundle o = true ->
        Executor.submitted s' = Executor.submitted s)
    /\ (Executor.submitted s' = S (Executor.submitted s) ->
        exists t0 : Executor.tx,
          ((snd run = [] \/ snd run = [Executor.Signed t0])
           /\ Executor.failed s' = S (Executor.failed s)
           /\ Executor.confirmed s' = Executor.confirmed s
           /\ Executor.reverted s' = Executor.reverted s
           /\ snd (fst run) = Executor.Failure "Execution error")
          \/ (snd run = [Executor.Signed t0; Executor.Sent t0]
              /\ (Executor.confirmed s + Executor.failed s
                  + Executor.reverted s
                  < Executor.confirmed s' + Executor.failed s'
                    + Executor.reverted s')%nat))
    /\ (Executor.submitted s' = Executor.submitted s ->
        snd run = [] -> s' = s)
    /\ (Opportunity.type o = Some "sandwich" ->
        s' = s
        /\ forall o' score',
             Executor.selectWallet wallets o' score' (fst (fst run))
             = Executor.selectWallet wallets o' score' e).
Proof.
  intros wallets strategies botGasPrice getTransactionCount
         simulateTransaction outcome standard profitCalculator
         encodeLiquidation o score e.
  cbv zeta.
  set (P := fun run : Executor.t * Executor.execResult
                      * list Executor.event =>
    (Executor.submitted (Executor.stats (fst (fst run)))
     = Executor.submitted (Executor.stats e)
     \/ Executor.submitted (Executor.stats (fst (fst run)))
        = S (Executor.submitted (Executor.stats e)))
    /\ (Opportunity.type o = Some "sandwich"
        \/ Opportunity.type o = Some "flashloan"
        \/ Opportunity.requiresBundle o = true ->
        Executor.submitted (Executor.stats (fst (fst run)))
        = Executor.submitted (Executor.stats e))
    /\ (Executor.submitted (Executor.stats (fst (fst run)))
        = S (Executor.submitted (Executor.stats e)) ->
        exists t0 : Executor.tx,
          ((snd run = [] \/ snd run = [Executor.Signed t0])
           /\ Executor.failed (Executor.stats (fst (fst run)))
              = S (Executor.failed (Executor.stats e))
           /\ Executor.confirmed (Executor.stats (fst (fst run)))
              = Executor.confirmed (Executor.stats e)
           /\ Executor.reverted (Executor.stats (fst (fst run)))
              = Executor.reverted (Executor.stats e)
           /\ snd (fst run) = Executor.Failure "Execution error")
          \/ (snd run = [Executor.Signed t0; Executor.Sent t0]
              /\ (Executor.confirmed (Executor.stats e)
                  + Executor.failed (Executor.stats e)
                  + Executor.reverted (Executor.stats e)
                  < Executor.confirmed (Executor.stats (fst (fst run)))
                    + Executor.failed (Executor.stats (fst (fst run)))
                    + Executor.reverted (Executor.stats (fst (fst run))))%nat))
    /\ (Executor.submitted (Executor.stats (fst (fst run)))
        = Executor.submitted (Executor.stats e) ->
        snd run = [] ->
        Executor.stats (fst (fst run)) = Executor.stats e)
    /\ (Opportunity.type o = Some "sandwich" ->
        Executor.stats (fst (fst run)) = Executor.stats e
        /\ forall o' score',
             Executor.selectWallet wallets o' score' (fst (fst run))
             = Executor.selectWallet wallets o' score' e)).
  change (P (Executor.execute wallets strategies botGasPrice
               getTransactionCount simulateTransaction outcome standard
               profitCalculator encodeLiquidation o score e)).
  assert (Hsame : forall run,
             Executor.stats (fst (fst run)) = Executor.stats e -> P run).
  { intros run H1. unfold P. rewrite H1.
    split; [left; reflexivity |]. split; [reflexivity |].
    split; [intros H; lia |]. split; [reflexivity |].
    intros _. split; [reflexivity |].
    intros o' score'. apply selectWallet_stats. exact H1. }
  unfold Executor.execute.
  destruct (Executor.selectWallet wallets o score e) as [w |];
    [| apply Hsame; reflexivity].
  pose proof (buildTransaction_stats botGasPrice getTransactionCount
                encodeLiquidation o w e) as Hst.
  destruct (Executor.buildTransaction botGasPrice getTransactionCount
              encodeLiquidation o w e) as [e1 b].
  simpl in Hst. cbv zeta.
  destruct (negb (Executor.sim_success
                    (Executor.simulate simulateTransaction b)));
    [apply Hsame; exact Hst |].
  destruct (Executor.sim_profit
              (Executor.simulate simulateTransaction b))
    as [actualProfit |]; [| apply Hsame; exact Hst].
  destruct (Executor.minProfit strategies o) as [minProfit |];
    [| apply Hsame; exact Hst].
  destruct (Z.ltb actualProfit minProfit);
    [apply Hsame; exact Hst |].
  unfold Executor.dispatch.
  destruct (bool_decide (Opportunity.type o = Some "sandwich")) eqn:Es.
  - apply Hsame. unfold Executor.executeSandwich.
    repeat case_match; simpl; exact Hst.
  - apply bool_decide_eq_false in Es.
    destruct (bool_decide (Opportunity.type o = Some "flashloan")) eqn:Ef.
    + apply Hsame. unfold Executor.executeFlashLoan.
      repeat case_match; simpl; exact Hst.
    + apply bool_decide_eq_false in Ef.
      destruct (Opportunity.requiresBundle o) eqn:Eb.
      * clear Hsame.
        assert (Hbu : Executor.submitted
                        (Executor.stats
                           (fst (fst (Executor.caught
                                        (Executor.executeBundle botGasPrice
                                           getTransactionCount outcome o w
                                           e1)))))
                      = Executor.submitted (Executor.stats e)
                      /\ (snd (Executor.caught
                                 (Executor.executeBundle botGasPrice
                                    getTransactionCount outcome o w e1))
                          = [] ->
                          Executor.stats
                            (fst (fst (Executor.caught
                                         (Executor.executeBundle
                                            botGasPrice getTransactionCount
                                            outcome o w e1))))
                          = Executor.stats e)).
        { unfold Executor.executeBundle, Executor.buildBundle,
            Executor.getNonce.
          repeat case_match; simplify_eq; simpl; rewrite ?Hst;
            (split; [reflexivity |]); intros H;
            try reflexivity;
            try (apply app_eq_nil in H; destruct H; discriminate). }
        destruct Hbu as [Hb1 Hb2]. unfold P. rewrite Hb1.
        split; [left; reflexivity |]. split; [reflexivity |].
        split; [intros H; lia |]. split; [intros _; exact Hb2 |].
        intros H. contradiction.
      * destruct b as [t0 | f bk]; [| apply Hsame; exact Hst].
        clear Hsame.
        destruct (executeStandard_counts standard profitCalculator t0 o e1)
          as [H1 H2].
        cbv zeta in H1, H2. rewrite Hst in H1, H2. unfold P.
        rewrite H1.
        split; [right; reflexivity |].
        split; [intros [H | [H | H]];
                [contradiction | contradiction | discriminate] |].
        split; [intros _; exists t0; exact H2 |].
        split; [intros H; lia |].
        intros H. contradiction.
Qed.

(** ** The monitor: cache, events and blocks *)
Section MonitorFurther.

Import Monitor.

Variable cfg : config.
Variable decoders : string -> option (transaction -> option decoded).
Variable parseLending : string -> option string.

Lemma cache_set_In (k : string) (v : enrichedTx)
      (m : list (string * enrichedTx)) :
  In (k, v) (cache_set k v m).
Proof.
  induction m as [| [k' v'] m IH]; simpl; [auto |].
  destruct (String.eqb k k'); simpl; auto.
Qed.

Lemma cache_set_keys (k : string) (v : enrichedTx)
      (m : list (string * enrichedTx)) :
  map fst (cache_set k v m)
  = if existsb (String.eqb k) (map fst m) then map fst m
    else map fst m ++ [k].
Proof.
  induction m as [| [k' v'] m IH]; simpl; [reflexivity |].
  destruct (String.eqb_spec k k') as [-> | Hne]; simpl; [reflexivity |].
  rewrite IH. destruct (existsb (String.eqb k) (map fst m)); reflexivity.
Qed.

Lemma cache_set_length (k : string) (v : enrichedTx)
      (m : list (string * enrichedTx)) :
  (length m <= length (cache_set k v m) <= S (length m))%nat.
Proof.
  induction m as [| [k' v'] m IH]; simpl; [lia |].
  destruct (String.eqb k k'); simpl; lia.
Qed.

Lemma emitSpecificEvents_shape (x : enrichedTx) :
  (length (emitSpecificEvents cfg x) <= 2)%nat
  /\ Forall (fun ev => event_hash ev = Some (hash (tx x)))
            (emitSpecificEvents cfg x).
Proof.
  unfold emitSpecificEvents.
  repeat case_match; simpl; (split; [lia |]);
    repeat constructor.
Qed.

Lemma processTransaction_stats now x src b (m : t) :
  let m' :=
    fst (processTransaction cfg decoders parseLending now x src b m) in
  blocksProcessed (stats m') = blocksProcessed (stats m)
  /\ transactionsAnalyzed (stats m') = S (transactionsAnalyzed (stats m))
  /\ mempoolTxAnalyzed (stats m')
     = (mempoolTxAnalyzed (stats m)
        + match src with Pending => 1 | InBlock => 0 end)%nat
  /\ processedTxs m' = {[hash x]} ∪ processedTxs m
  /\ maxCacheSize m' = maxCacheSize m
  /\ targetContracts m' = targetContracts m.
Proof.
  cbv zeta. unfold processTransaction.
  repeat case_match; simpl; repeat split; lia.
Qed.

Lemma process_all_stats now b xs (m : t) :
  let m' := fst (process_all cfg decoders parseLending now b xs m) in
  blocksProcessed (stats m') = blocksProcessed (stats m)
  /\ transactionsAnalyzed (stats m')
     = (transactionsAnalyzed (stats m) + length xs)%nat
  /\ mempoolTxAnalyzed (stats m') = mempoolTxAnalyzed (stats m)
  /\ processedTxs m'
     = list_to_set (map hash xs) ∪ processedTxs m
  /\ maxCacheSize m' = maxCacheSize m
  /\ targetContracts m' = targetContracts m.
Proof.
  cbv zeta. revert m. induction xs as [| x xs IH]; intros m; simpl.
  - repeat split; try lia.
    rewrite union_empty_l_L. reflexivity.
  - pose proof (processTransaction_stats now x InBlock (Some b) m) as H.
    destruct (processTransaction cfg decoders parseLending now x InBlock
                (Some b) m) as [m1 ev1].
    specialize (IH m1).
    destruct (process_all cfg decoders parseLending now b xs m1)
      as [m2 ev2].
    cbv zeta in H. simpl in *.
    destruct H as (H1 & H2 & H3 & H4 & H5 & H6).
    destruct IH as (I1 & I2 & I3 & I4 & I5 & I6).
    rewrite I1, I2, I3, I4, I5, I6, H1, H2, H3, H4, H5, H6.
    repeat split; try lia.
    rewrite union_assoc_L.
    rewrite (union_comm_L (list_to_set (map hash xs)) {[hash x]}).
    reflexivity.
Qed.

Lemma cleanupCache_cache (m : t) :
  (0 <= maxCacheSize m)%Z ->
  (Z.of_nat (length (txCache (cleanupCache m))) <= maxCacheSize m)%Z
  /\ (exists oldest, txCache m = oldest ++ txCache (cleanupCache m))
  /\ ((Z.of_nat (length (txCache m)) <= maxCacheSize m)%Z ->
      txCache (cleanupCache m) = txCache m)
  /\ ((maxCacheSize m < Z.of_nat (length (txCache m)))%Z ->
      Z.of_nat (length (txCache (cleanupCache m)))
      = (maxCacheSize m * 8 / 10)%Z).
Proof.
  intros H0. unfold cleanupCache. simpl.
  assert (H8 : (0 <= maxCacheSize m * 8 / 10 <= maxCacheSize m)%Z).
  { split; [apply Z.div_pos; lia |].
    apply Z.div_le_upper_bound; lia. }
  destruct (Z.ltb_spec (maxCacheSize m) (Z.of_nat (length (txCache m))))
    as [Hlt | Hge].
  - rewrite length_drop.
    split; [lia |]. split; [| split; [lia | intros _; lia]].
    eexists. symmetry. apply take_drop.
  - split; [exact Hge |]. split; [exists []; reflexivity |].
    split; [reflexivity | lia].
Qed.

End MonitorFurther.

(** X25.  [cleanupCache] keeps the cache within [maxCacheSize]: what is left
    are the newest entries, all of them when the cache was within the
    limit and four fifths of the limit when it was not.  The set of
    processed hashes is left with at most 50000 hashes, and it is emptied,
    not trimmed, once it holds more: after that every hash counts as new
    again.  The counters are not touched. *)
Theorem cleanupCache_bounds_cache_and_dedup_set :
  forall (m : Monitor.t),
    0 <= Monitor.maxCacheSize m ->
    let m' := Monitor.cleanupCache m in
    Z.of_nat (length (Monitor.txCache m')) <= Monitor.maxCacheSize m
    /\ (exists oldest, Monitor.txCache m = oldest ++ Monitor.txCache m')
    /\ (Z.of_nat (length (Monitor.txCache m)) <= Monitor.maxCacheSize m ->
        Monitor.txCache m' = Monitor.txCache m)
    /\ (Monitor.maxCacheSize m < Z.of_nat (length (Monitor.txCache m)) ->
        Z.of_nat (length (Monitor.txCache m'))
        = Monitor.maxCacheSize m * 8 / 10)
    /\ Z.of_nat (size (Monitor.processedTxs m')) <= 50000
    /\ (Z.of_nat (size (Monitor.processedTxs m)) <= 50000 ->
        Monitor.processedTxs m' = Monitor.processedTxs m)
    /\ (50000 < Z.of_nat (size (Monitor.processedTxs m)) ->
        Monitor.processedTxs m' = ∅)
    /\ Monitor.stats m' = Monitor.stats m
    /\ Monitor.targetContracts m' = Monitor.targetContracts m.
Proof.
  intros m H0. cbv zeta.
  destruct (cleanupCache_cache m H0) as (C1 & C2 & C3 & C4).
  split; [exact C1 |]. split; [exact C2 |]. split; [exact C3 |].
  split; [exact C4 |].
  unfold Monitor.cleanupCache. simpl.
  destruct (Z.ltb_spec 50000 (Z.of_nat (size (Monitor.processedTxs m))))
    as [Hlt | Hge].
  - split; [rewrite size_empty; lia |]. split; [lia |].
    split; [reflexivity |]. split; reflexivity.
  - split; [lia |]. split; [reflexivity |].
    split; [lia |]. split; reflexivity.
Qed.

Lemma cleanupCache_bounds_cache_and_dedup_set_witness :
  Monitor.txCache (Monitor.cleanupCache Scenario.monitor)
  = Monitor.txCache Scenario.monitor.
Proof.
  destruct (cleanupCache_bounds_cache_and_dedup_set Scenario.monitor)
    as (_ & _ & H & _).
  - vm_compute. discriminate.
  - apply H. vm_compute. discriminate.
Defined.

(** X26.  What [processTransaction] lets out belongs to the transaction it was
    given.  It emits nothing, or one [transaction] event followed by at
    most one event for the kind of the transaction and at most one for a
    high value; every event carries the hash of the transaction; and when
    it emits, the cache holds the emitted transaction under that hash.
    Whether it emits or not, the transaction is counted as analysed, the
    cache grows by one entry at most, and a contract creation (no [to])
    emits nothing and is not cached. *)
Theorem processTransaction_emits_for_its_transaction_only :
  forall (cfg : Monitor.config)
         (decoders : string ->
                     option (Monitor.transaction -> option Monitor.decoded))
         (parseLending : string -> option string)
         (now : Z) (x : Monitor.transaction) (src : Monitor.source)
         (b : option Monitor.block) (m : Monitor.t),
    let run :=
      Monitor.processTransaction cfg decoders parseLending now x src b m in
    let m' := fst run in
    let evs := snd run in
    Forall (fun ev => Monitor.event_hash ev = Some (Monitor.hash x)) evs
    /\ (length evs <= 3)%nat
    /\ ((evs = [] /\ Monitor.txCache m' = Monitor.txCache m)
        \/ exists enriched rest,
             evs = Monitor.EvTransaction enriched :: rest
             /\ Monitor.tx enriched = x
             /\ Monitor.tx_source enriched = src
             /\ In (Monitor.hash x, enriched) (Monitor.txCache m'))
    /\ (truthy_str (Monitor.to x) = false -> evs = [])
    /\ (length (Monitor.txCache m) <= length (Monitor.txCache m')
        <= S (length (Monitor.txCache m)))%nat
    /\ Monitor.transactionsAnalyzed (Monitor.stats m')
       = S (Monitor.transactionsAnalyzed (Monitor.stats m)).
Proof.
  intros cfg decoders parseLending now x src b m. cbv zeta.
  unfold Monitor.processTransaction.
  match goal with
  | |- context [Monitor.isInterestingTransaction cfg ?a x] =>
      destruct (Monitor.isInterestingTransaction cfg a x) eqn:Ei
  end; simpl.
  - destruct (Monitor.decodeTransaction cfg decoders parseLending x)
      as [d |] eqn:Ed; simpl.
    + match goal with
      | |- context [Monitor.emitSpecificEvents cfg ?en] =>
          pose proof (emitSpecificEvents_shape cfg en) as [Hl Hf];
          set (enriched := en) in *
      end.
      split; [constructor; [reflexivity | exact Hf] |].
      split; [lia |].
      split; [right; exists enriched, (Monitor.emitSpecificEvents cfg enriched);
              repeat split; apply cache_set_In |].
      split.
      * intros Ht. unfold Monitor.isInterestingTransaction in Ei.
        rewrite Ht in Ei. discriminate.
      * split; [apply cache_set_length | reflexivity].
    + split; [constructor |]. split; [lia |].
      split; [left; auto |]. split; [auto |]. split; [lia | reflexivity].
  - split; [constructor |]. split; [lia |].
    split; [left; auto |]. split; [auto |]. split; [lia | reflexivity].
Qed.

(** X27.  A block is accounted for in full: when the provider returns the
    block, [blocksProcessed] goes up by one and [transactionsAnalyzed] by
    the number of its transactions, the count of pending transactions
    stays, the last thing emitted is the [block] event with that number of
    transactions, the cache is within its limit afterwards, and the hashes
    of the block's transactions are all in the set of processed hashes,
    unless that set outgrew 50000 and was emptied.  Without a block
    nothing happens. *)
Theorem a_block_is_accounted_for :
  forall (cfg : Monitor.config)
         (getBlockWithTransactions : Z -> option Monitor.block)
         (decoders : string ->
                     option (Monitor.transaction -> option Monitor.decoded))
         (parseLending : string -> option string)
         (now blockNumber : Z) (m : Monitor.t),
    0 <= Monitor.maxCacheSize m ->
    let run :=
      Monitor.blockSubscription cfg getBlockWithTransactions decoders
        parseLending now blockNumber m in
    let m' := fst run in
    match getBlockWithTransactions blockNumber with
    | None => run = (m, [])
    | Some b =>
        let txs := Monitor.transactions b in
        Monitor.blocksProcessed (Monitor.stats m')
        = S (Monitor.blocksProcessed (Monitor.stats m))
        /\ Monitor.transactionsAnalyzed (Monitor.stats m')
           = (Monitor.transactionsAnalyzed (Monitor.stats m)
              + length txs)%nat
        /\ Monitor.mempoolTxAnalyzed (Monitor.stats m')
           = Monitor.mempoolTxAnalyzed (Monitor.stats m)
        /\ last (snd run)
           = Some (Monitor.EvBlock (Monitor.number b)
                     (Monitor.block_hash b) (length txs))
        /\ Z.of_nat (length (Monitor.txCache m'))
           <= Monitor.maxCacheSize m
        /\ (Monitor.processedTxs m' = ∅
            \/ forall x, In x txs ->
                 Monitor.hash x ∈ Monitor.processedTxs m')
    end.
Proof.
  intros cfg getBlock decoders parseLending now blockNumber m H0.
  cbv zeta. unfold Monitor.blockSubscription.
  destruct (getBlock blockNumber) as [b |]; [| reflexivity].
  match goal with
  | |- context [Monitor.process_all cfg decoders parseLending now b
                  (Monitor.transactions b) ?m0] =>
      pose proof (process_all_stats cfg decoders parseLending now b
                    (Monitor.transactions b) m0) as H;
      destruct (Monitor.process_all cfg decoders parseLending now b
                  (Monitor.transactions b) m0) as [m1 evs]
  end.
  cbv zeta in H. simpl in H.
  destruct H as (H1 & H2 & H3 & H4 & H5 & H6).
  assert (Hmax : 0 <= Monitor.maxCacheSize m1) by (rewrite H5; exact H0).
  destruct (cleanupCache_cache m1 Hmax) as (C1 & _).
  cbn [fst snd].
  split; [exact H1 |]. split; [exact H2 |]. split; [exact H3 |].
  split; [apply last_snoc |].
  split; [rewrite <- H5; exact C1 |].
  unfold Monitor.cleanupCache. simpl.
  destruct (Z.ltb 50000 (Z.of_nat (size (Monitor.processedTxs m1))));
    [left; reflexivity |].
  right. intros x Hx. rewrite H4.
  apply elem_of_union_l, elem_of_list_to_set, list_elem_of_In.
  apply in_map. exact Hx.
Qed.

Lemma a_block_is_accounted_for_witness :
  let run :=
    Monitor.blockSubscription Scenario.monitor_config
      Scenario.getBlockWithTransactions Scenario.decoders
      Scenario.parseLending Scenario.now 100 Scenario.monitor in
  Monitor.blocksProcessed (Monitor.stats (fst run)) = 1%nat.
Proof.
  cbv zeta.
  assert (H0 : 0 <= Monitor.maxCacheSize Scenario.monitor)
    by (vm_compute; discriminate).
  pose proof (a_block_is_accounted_for Scenario.monitor_config
                Scenario.getBlockWithTransactions Scenario.decoders
                Scenario.parseLending Scenario.now 100 Scenario.monitor H0)
    as H.
  cbv zeta in H.
  assert (E : Scenario.getBlockWithTransactions 100
              = Some Scenario.block_100) by reflexivity.
  rewrite E in H. destruct H as (H & _).
  rewrite H. reflexivity.
Defined.

(** ** The helpers: retrying and chunking *)
Section HelperFacts.

Import Helpers.

Context {A : Type}.
Variable fn : nat -> result A.
Variable attempts : nat.
Variables delay factor maxDelay : Z.

Lemma retry_from_success (n i k : nat) (a : A) (lastError : option string) :
  (i + n = attempts)%nat ->
  (i <= k < attempts)%nat ->
  (forall j, (i <= j < k)%nat -> exists e, fn j = Throw e) ->
  fn k = Ok a ->
  retry_from fn attempts delay factor maxDelay n i lastError
  = (Returned a, map (waitTime delay factor maxDelay) (seq i (k - i))).
Proof.
  revert i lastError. induction n as [| n IH]; intros i lastError Hn Hk Hf Hs.
  - lia.
  - cbn [retry_from].
    destruct (Nat.eq_dec i k) as [-> | Hne].
    + rewrite Hs. replace (k - k)%nat with 0%nat by lia. reflexivity.
    + destruct (Hf i) as [e He]; [lia |]. rewrite He.
      assert (Hlt : Nat.ltb i (attempts - 1) = true)
        by (apply Nat.ltb_lt; lia).
      rewrite Hlt.
      rewrite (IH (S i) (Some e)); [| lia | lia | | exact Hs].
      * replace (k - i)%nat with (S (k - S i)) by lia. reflexivity.
      * intros j Hj. apply Hf. lia.
Qed.

Lemma retry_from_failure (n i : nat) (lastError : option string) :
  (i + n = attempts)%nat ->
  (0 < n)%nat ->
  (forall j, (i <= j < attempts)%nat -> exists e, fn j = Throw e) ->
  exists e,
    fn (attempts - 1) = Throw e
    /\ retry_from fn attempts delay factor maxDelay n i lastError
       = (Threw (Some e),
          map (waitTime delay factor maxDelay)
              (seq i (attempts - 1 - i))).
Proof.
  revert i lastError. induction n as [| n IH]; intros i lastError Hn Hp Hf.
  - lia.
  - cbn [retry_from].
    destruct (Hf i) as [e He]; [lia |]. rewrite He.
    destruct (Nat.ltb_spec i (attempts - 1)) as [Hlt | Hge].
    + destruct (IH (S i) (Some e)) as (e' & He' & Hr); [lia | lia | |].
      * intros j Hj. apply Hf. lia.
      * exists e'. split; [exact He' |]. rewrite Hr.
        replace (attempts - 1 - i)%nat with (S (attempts - 1 - S i))
          by lia.
        reflexivity.
    + assert (n = 0)%nat as -> by lia.
      assert (i = attempts - 1)%nat as Hi by lia.
      exists e. split; [rewrite <- Hi; exact He |].
      simpl. replace (attempts - 1 - i)%nat with 0%nat by lia.
      reflexivity.
Qed.

Lemma retry_from_waits (n i : nat) (lastError : option string) :
  (i + n = attempts)%nat ->
  let waits :=
    snd (retry_from fn attempts delay factor maxDelay n i lastError) in
  (length waits <= attempts - 1 - i)%nat
  /\ Forall (fun w => w <= maxDelay) waits.
Proof.
  cbv zeta. revert i lastError.
  induction n as [| n IH]; intros i lastError Hn.
  - simpl. split; [lia | constructor].
  - cbn [retry_from].
    destruct (fn i) as [a | e]; [simpl; split; [lia | constructor] |].
    destruct (Nat.ltb_spec i (attempts - 1)) as [Hlt | Hge].
    + destruct (IH (S i) (Some e)) as [H1 H2]; [lia |].
      destruct (retry_from fn attempts delay factor maxDelay n (S i)
                  (Some e)) as [r waits].
      simpl in *. split; [lia |].
      constructor; [apply Z.le_min_r | exact H2].
    + destruct (IH (S i) (Some e)) as [H1 H2]; [lia |].
      split; [lia | exact H2].
Qed.

End HelperFacts.

(** X28.  [retry] calls [fn] until it returns, [attempts] times at most.  When
    attempt [k] is the first that returns, [retry] returns its value,
    having slept after each of the [k] failures before it for
    [min(delay * factor ^ i, maxDelay)], [i] being the number of the
    attempt.  When all attempts throw, it throws what the last attempt
    threw, and it has not slept after that one.  In any case it sleeps
    fewer times than there are attempts, never longer than [maxDelay];
    with no attempt to make it throws [undefined]. *)
Theorem retry_stops_at_the_first_success :
  forall (A : Type) (fn : nat -> result A) (attempts : nat)
         (delay factor maxDelay : Z),
    let run := Helpers.retry fn attempts delay factor maxDelay in
    let wait := Helpers.waitTime delay factor maxDelay in
    (forall k a,
       (k < attempts)%nat ->
       (forall j, (j < k)%nat -> exists e, fn j = Throw e) ->
       fn k = Ok a ->
       run = (Helpers.Returned a, map wait (seq 0 k)))
    /\ ((0 < attempts)%nat ->
        (forall j, (j < attempts)%nat -> exists e, fn j = Throw e) ->
        exists e,
          fn (attempts - 1)%nat = Throw e
          /\ run = (Helpers.Threw (Some e),
                    map wait (seq 0 (attempts - 1))))
    /\ (attempts = 0%nat -> run = (Helpers.Threw None, []))
    /\ (length (snd run) <= attempts - 1)%nat
    /\ Forall (fun w => w <= maxDelay) (snd run).
Proof.
  intros A fn attempts delay factor maxDelay. cbv zeta.
  unfold Helpers.retry. split; [| split; [| split]].
  - intros k a Hk Hf Hs.
    rewrite (retry_from_success fn attempts delay factor maxDelay
               attempts 0 k a None); [| lia | lia | | exact Hs].
    + rewrite Nat.sub_0_r. reflexivity.
    + intros j Hj. apply Hf. lia.
  - intros Hp Hf.
    destruct (retry_from_failure fn attempts delay factor maxDelay
                attempts 0 None) as (e & He & Hr); [lia | lia | |].
    + intros j Hj. apply Hf. lia.
    + exists e. split; [exact He |]. rewrite Hr, Nat.sub_0_r.
      reflexivity.
  - intros ->. reflexivity.
  - pose proof (retry_from_waits fn attempts delay factor maxDelay
                  attempts 0 None) as H.
    cbv zeta in H. rewrite Nat.sub_0_r in H. apply H. lia.
Qed.

Lemma retry_stops_at_the_first_success_witness :
  Helpers.retry
    (fun i => if Nat.ltb i 2 then Throw "timeout" else Ok 42)
    3 1000 2 30000
  = (Helpers.Returned 42, [1000; 2000]).
Proof.
  destruct (retry_stops_at_the_first_success Z
              (fun i => if Nat.ltb i 2 then Throw "timeout" else Ok 42)
              3 1000 2 30000) as [H _].
  cbv zeta in H. rewrite (H 2%nat 42); [reflexivity | lia | | reflexivity].
  intros j Hj. exists "timeout".
  destruct j as [| [| j]]; [reflexivity | reflexivity | lia].
Defined.

Section ChunkFacts.

Import Helpers.

Context {A : Type}.

Lemma chunk_loop_spec (array : list A) (size : nat) :
  (0 < size)%nat ->
  forall fuel i,
    (length array - i < fuel)%nat ->
    exists chunks,
      chunk_loop fuel array size i = Some chunks
      /\ concat chunks = drop i array
      /\ Forall (fun c => (0 < length c <= size)%nat) chunks
      /\ (length chunks * size < length array - i + size)%nat
      /\ (length array - i <= length chunks * size)%nat.
Proof.
  intros Hs. induction fuel as [| fuel IH]; intros i Hf; [lia |].
  cbn [chunk_loop].
  destruct (Nat.ltb_spec i (length array)) as [Hlt | Hge].
  - destruct (IH (i + size)%nat) as (chunks & E & Hc & Hall & Hn1 & Hn2);
      [lia |].
    rewrite E. eexists. split; [reflexivity |].
    split; [| split; [| split]].
    + rewrite concat_cons, Hc.
      rewrite <- (take_drop size (drop i array)) at 2.
      rewrite drop_drop. reflexivity.
    + constructor; [| exact Hall].
      rewrite length_take, length_drop. lia.
    + cbn [length].
      destruct (Nat.le_gt_cases (i + size) (length array)) as [Hle | Hgt].
      * simpl. lia.
      * destruct (length chunks) as [| n]; simpl in *; lia.
    + simpl. lia.
  - exists []. split; [reflexivity |].
    split; [| split; [constructor | simpl; lia]].
    simpl. symmetry. apply drop_ge. lia.
Qed.

Lemma chunk_loop_stuck (array : list A) (fuel : nat) :
  array <> [] -> chunk_loop fuel array 0 0 = None.
Proof.
  intros Hne. induction fuel as [| fuel IH]; [reflexivity |].
  cbn [chunk_loop Nat.add]. rewrite IH.
  destruct array; [congruence | reflexivity].
Qed.

End ChunkFacts.

(** X29.  [chunk] cuts the array into pieces of [size] elements and loses
    nothing: for a positive [size] the loop ends, within as many turns as
    the array has elements, and the pieces put together are the array;
    no piece is empty or longer than [size], and there are as many pieces
    as it takes, the length divided by [size], rounded up.  With a [size]
    of 0 and an array that is not empty the loop never ends. *)
Theorem chunk_loses_nothing :
  forall (A : Type) (array : list A) (size fuel : nat),
    ((0 < size)%nat ->
     (length array < fuel)%nat ->
     exists chunks,
       Helpers.chunk fuel array size = Some chunks
       /\ concat chunks = array
       /\ Forall (fun c => (0 < length c <= size)%nat) chunks
       /\ length chunks = ((length array + size - 1) / size)%nat)
    /\ (size = 0%nat -> array <> [] ->
        Helpers.chunk fuel array size = None).
Proof.
  intros A array size fuel. unfold Helpers.chunk. split.
  - intros Hs Hf.
    destruct (chunk_loop_spec array size Hs fuel 0)
      as (chunks & E & Hc & Hall & Hn1 & Hn2); [lia |].
    exists chunks. split; [exact E |]. split; [exact Hc |].
    split; [exact Hall |].
    rewrite Nat.sub_0_r in Hn1, Hn2.
    apply Nat.div_unique with
      (r := (length array + size - 1 - length chunks * size)%nat); lia.
  - intros -> Hne. apply chunk_loop_stuck. exact Hne.
Qed.

Lemma chunk_loses_nothing_witness :
  Helpers.chunk 6 [1; 2; 3; 4; 5] 2 = Some [[1; 2]; [3; 4]; [5]].
Proof.
  destruct (chunk_loses_nothing Z [1; 2; 3; 4; 5] 2 6) as [H _].
  destruct H as (chunks & E & _); [lia | simpl; lia |].
  rewrite E. vm_compute in E. symmetry. exact E.
Defined.
